(** * plural-edtech backend: context assembly and prompt construction

    A shallow embedding of [backend/llm.py] (with the parts of
    [backend/schemas.py] and [backend/database.py] it relies on) and the
    properties of the context-selection, prompt-assembly, content
    normalisation and turn orchestration code; then of the image task,
    of the request handlers of [backend/main.py] and of
    [backend/auth.py].

    Conventions of the embedding
    - Python values that the code inspects dynamically (message content,
      JSON documents, service results) are values of [pyval].
    - Python [str] is [string]; a character is a code point below 256.
    - An exception is a value [Raise e] of [Result]; [try]/[except] is
      [try_except].
    - External collaborators (embedding service, similarity RPC, HTTP
      client, generation model, JSON codec, clock) are the fields of a
      record [Services]; each call is recorded as an [event].
    - The Supabase tables are an in-memory [Store] whose reads and writes
      succeed; what [database.py], [main.py] and [auth.py] print or log
      is not recorded.
    - A request handler maps the store to the new store, the background
      tasks it scheduled and a [Reply]. *)

From Stdlib Require Import ZArith NArith String Ascii List.
From Stdlib.Strings Require Import Byte.
From stdpp Require Import base gmap sets list strings pretty sorting.

Set Warnings "-register-all".

Open Scope string_scope.
Open Scope list_scope.

(** ** Python values *)

(** IEEE-754 binary64 bit pattern of a Python [float]; the code never
    computes with floats, it only passes them around. *)
Definition float64 := N.

Inductive pyval : Type :=
| PNone
| PBool (b : bool)
| PInt (n : Z)
| PFloat (bits : float64)
| PStr (s : string)
| PList (l : list pyval)
| PDict (d : list (string * pyval)).

(** Truth value of a Python object in a boolean context. *)
Definition truthy (v : pyval) : bool :=
  match v with
  | PNone => false
  | PBool b => b
  | PInt n => negb (n =? 0)%Z
  | PFloat bits => negb ((bits =? 0)%N || (bits =? 0x8000000000000000)%N)
  | PStr s => negb (String.eqb s "")
  | PList l => match l with [] => false | _ => true end
  | PDict d => match d with [] => false | _ => true end
  end.

(** [d.get(k, default)] on a dict given as its key/value pairs. *)
Fixpoint dict_get_default (k : string) (d : list (string * pyval)) (default : pyval) : pyval :=
  match d with
  | [] => default
  | (k', v) :: rest => if String.eqb k k' then v else dict_get_default k rest default
  end.

(** [d.get(k)]. *)
Definition dict_get (k : string) (d : list (string * pyval)) : pyval :=
  dict_get_default k d PNone.

(** [v == s] for a [str] literal [s]: only a [str] compares equal to a [str]. *)
Definition eq_str (v : pyval) (s : string) : bool :=
  match v with
  | PStr s' => String.eqb s' s
  | _ => false
  end.

Definition isinstance_dict (v : pyval) : bool :=
  match v with PDict _ => true | _ => false end.

(** ** Exceptions *)

Inductive exn : Type :=
| IndexError
| TypeError
| ValueError
| JSONDecodeError
| HTTPStatusError (status : Z)
| ServiceError (what : string).

Inductive Result (A : Type) : Type :=
| Ok (a : A)
| Raise (e : exn).
Arguments Ok {A} a.
Arguments Raise {A} e.

Definition bindR {A B} (r : Result A) (k : A -> Result B) : Result B :=
  match r with
  | Ok a => k a
  | Raise e => Raise e
  end.

Notation "'dor' x <- m ; k" := (bindR m (fun x => k))
  (at level 10, x name, m at level 100, k at level 200).

(** ** Python sequence and string operations *)

(** [l[-n:]] for [n > 0]. *)
Definition last_n {A} (n : nat) (l : list A) : list A :=
  drop (length l - n) l.

(** [l[-1]]. *)
Definition index_last {A} (l : list A) : Result A :=
  match last l with
  | Some x => Ok x
  | None => Raise IndexError
  end.

(** Whitespace code points below 256, as [str.isspace] and [str.strip] see them. *)
Definition py_isspace_char (c : ascii) : bool :=
  let n := nat_of_ascii c in
  ((9 <=? n)%nat && (n <=? 13)%nat) || ((28 <=? n)%nat && (n <=? 32)%nat)
  || (n =? 133)%nat || (n =? 160)%nat.

Fixpoint string_forall (p : ascii -> bool) (s : string) : bool :=
  match s with
  | EmptyString => true
  | String c r => p c && string_forall p r
  end.

(** [s.isspace()]. *)
Definition isspace (s : string) : bool :=
  negb (String.eqb s "") && string_forall py_isspace_char s.

Fixpoint lstrip_chars (p : ascii -> bool) (s : string) : string :=
  match s with
  | EmptyString => EmptyString
  | String c r => if p c then lstrip_chars p r else s
  end.

Fixpoint rstrip_chars (p : ascii -> bool) (s : string) : string :=
  match s with
  | EmptyString => EmptyString
  | String c r =>
      match rstrip_chars p r with
      | EmptyString => if p c then EmptyString else String c EmptyString
      | r' => String c r'
      end
  end.

(** [s.strip()]. *)
Definition strip (s : string) : string :=
  rstrip_chars py_isspace_char (lstrip_chars py_isspace_char s).

Fixpoint string_mem (c : ascii) (s : string) : bool :=
  match s with
  | EmptyString => false
  | String c' r => Ascii.eqb c c' || string_mem c r
  end.

(** [s.lstrip(chars)] and [s.rstrip(chars)]: [chars] is a set of characters. *)
Definition lstrip (chars s : string) : string :=
  lstrip_chars (fun c => string_mem c chars) s.
Definition rstrip (chars s : string) : string :=
  rstrip_chars (fun c => string_mem c chars) s.

(** [sep.join(items)]; raises [TypeError] when an item is not a [str]. *)
Fixpoint join (sep : string) (items : list pyval) : Result string :=
  match items with
  | [] => Ok ""
  | [PStr s] => Ok s
  | PStr s :: rest => dor r <- join sep rest; Ok (s +:+ sep +:+ r)
  | _ => Raise TypeError
  end.

Definition newline : string := String (ascii_of_nat 10) EmptyString.
Definition dquote : string := String (ascii_of_nat 34) EmptyString.
Definition fence : string := String (ascii_of_nat 96) (String (ascii_of_nat 96) (String (ascii_of_nat 96) EmptyString)).

(** [s.split(sep)[-1]]: what follows the last [sep], all of [s] without one. *)
Fixpoint last_field (sep : ascii) (s : string) : string :=
  match s with
  | EmptyString => EmptyString
  | String c rest =>
      if string_mem sep rest then last_field sep rest
      else if Ascii.eqb c sep then rest
      else s
  end.

(** ** schemas.py *)

(** A [uuid.UUID], as its 128-bit integer. *)
Abbreviation uuid := N.

Module schemas.

Record Quest : Type := mkQuest {
  title : option string;
  q_id : uuid;
  q_user_id : string;
  q_created_at : Z;
  last_updated_at : Z
}.

Record Message : Type := mkMessage {
  content : pyval;
  role : string;
  id : uuid;
  quest_id : uuid;
  user_id : string;
  created_at : Z;
  metadata : option pyval
}.

(** The shape [MessageBase.content : Union[str, List[Dict[str, Any]]]]
    accepts. *)
Definition valid_content (c : pyval) : bool :=
  match c with
  | PStr _ => true
  | PList items => forallb isinstance_dict items
  | _ => false
  end.

(** The shape [Message.metadata : Optional[Dict[str, Any]]] accepts. *)
Definition valid_metadata (md : option pyval) : bool :=
  match md with
  | None | Some PNone | Some (PDict _) => true
  | Some _ => false
  end.

(** The constructor of [schemas.Message] accepts the row.  The columns typed by the table
    ([id], [quest_id], [user_id], [created_at], [role]) always validate;
    [content] and [metadata] are JSON columns and may hold any value. *)
Definition valid_message (m : Message) : bool :=
  valid_content (content m) && valid_metadata (metadata m).

Record QuestCreate : Type := mkQuestCreate {
  initial_prompt : option string
}.

Record MessageCreate : Type := mkMessageCreate {
  mc_content : pyval
}.

Record QuestDetail : Type := mkQuestDetail {
  detail_quest : Quest;
  detail_messages : list Message
}.

Record ImageGenerationRequest : Type := mkImageGenerationRequest {
  prompt : string
}.

End schemas.

Abbreviation Message := schemas.Message.

(** ** Dialogue turns

    The dicts [llm.py] hands to the generation model: a part is either
    [{'text': ...}] or [{'inline_data': {'mime_type': ..., 'data': ...}}];
    a turn is [{'role': ..., 'parts': [...]}]. *)

Inductive Part : Type :=
| TextPart (text : pyval)
| InlineData (mime_type : string) (data : list byte).

Record Turn : Type := mkTurn {
  role : string;
  parts : list Part
}.

(** [p.get('text')] on a part. *)
Definition part_text (p : Part) : pyval :=
  match p with
  | TextPart v => v
  | InlineData _ _ => PNone
  end.

(** ** The store and the external services *)

Record message_row : Type := mkRow {
  row_message : Message;
  row_embedding : option (list pyval)
}.

Record Store : Type := mkStore {
  quests : list schemas.Quest;
  messages : list message_row
}.

(** What [fetch_image_data] reads off an [httpx] response. *)
Record Response : Type := mkResponse {
  status_code : Z;
  response_content : list byte;
  content_type : option string
}.

(** [response.user] of the auth admin API. *)
Record User : Type := mkUser {
  user_metadata : option (list (string * pyval))
}.

(** The collaborators the backend calls but does not implement.  Each
    field is the outcome of the named call as a function of its arguments;
    [DEFAULT_SYSTEM_PROMPT] is the module constant of [llm.py]. *)
Record Services : Type := mkServices {
  (* genai.embed_content_async(model, content, task_type) *)
  embed_content : string -> Result (list (string * pyval));
  (* rpc("match_quest_messages", {...}).execute().data, validated rows *)
  match_quest_messages : Store -> list pyval -> float64 -> Z -> uuid -> Result (list Message);
  (* httpx.AsyncClient().get(url, follow_redirects=True) *)
  http_get : string -> Result Response;
  (* mimetypes.guess_type(url)[0] *)
  guess_type : string -> option string;
  (* chat_model.generate_content_async(prompt) followed by .text *)
  generate_content : list Turn -> Result string;
  (* the same call with response_mime_type="application/json" *)
  generate_json_content : list Turn -> Result string;
  (* json.loads, json.dumps, str *)
  json_loads : string -> Result pyval;
  json_dumps : pyval -> Result string;
  builtin_str : pyval -> string;
  (* supabase_client.auth.admin.get_user_by_id(user_id).user *)
  get_user_by_id : string -> Result (option User);
  (* datetime.now(timezone.utc) and the table's default primary key *)
  utcnow : Store -> Z;
  gen_random_uuid : Store -> uuid;
  DEFAULT_SYSTEM_PROMPT : string
}.

(** [EXCEPTION] is [logging.exception]: an error record with the traceback. *)
Inductive level : Type := INFO | WARNING | ERROR | EXCEPTION.

(** What a turn does that is visible outside it: the log records of
    [llm.py] (the message is the f-string as written, placeholders left in
    place) and the calls to the collaborators. *)
Inductive event : Type :=
| Log (lvl : level) (msg : string)
| EmbedContent (text : string)
| MatchQuestMessages (quest_id : uuid) (query_embedding : list pyval)
| HttpGet (url : string)
| GetUserById (user_id : string)
| GenerateContent (prompt : list Turn) (outcome : Result string)
| GenerateSuggestions (prompt : list Turn) (outcome : Result string)
| GetMessagesByQuest (user_id : string) (quest_id : uuid)
| AddMessage (user_id : string) (quest_id : uuid) (role : string) (content : pyval)
    (embedding : option (list pyval)) (metadata : option pyval).

(** ** Computations: store passing, an event log, exceptions *)

Definition M (A : Type) : Type := Store -> Store * list event * Result A.

Definition ret {A} (a : A) : M A := fun st => (st, [], Ok a).

Definition lift {A} (r : Result A) : M A := fun st => (st, [], r).

Definition bind {A B} (m : M A) (k : A -> M B) : M B := fun st =>
  match m st with
  | (st1, ev1, Ok a) => match k a st1 with (st2, ev2, r) => (st2, ev1 ++ ev2, r) end
  | (st1, ev1, Raise e) => (st1, ev1, Raise e)
  end.

(** [try: m except Exception as e: handler e]. *)
Definition try_except {A} (m : M A) (handler : exn -> M A) : M A := fun st =>
  match m st with
  | (st1, ev1, Raise e) => match handler e st1 with (st2, ev2, r) => (st2, ev1 ++ ev2, r) end
  | done => done
  end.

Definition emit (e : event) : M unit := fun st => (st, [e], Ok tt).

Definition log (lvl : level) (msg : string) : M unit := emit (Log lvl msg).

Notation "'do' x <- m ; k" := (bind m (fun x => k))
  (at level 10, x name, m at level 100, k at level 200).
Notation "m ;; k" := (bind m (fun _ => k))
  (at level 100, k at level 200, right associativity).

(** [for x in l: s = body(s, x)]. *)
Fixpoint for_each {A S} (body : S -> A -> M S) (l : list A) (s : S) : M S :=
  match l with
  | [] => ret s
  | x :: rest => do s' <- body s x; for_each body rest s'
  end.

Definition store_of {A} (r : Store * list event * Result A) : Store := fst (fst r).
Definition events_of {A} (r : Store * list event * Result A) : list event := snd (fst r).
Definition result_of {A} (r : Store * list event * Result A) : Result A := snd r.

(** ** database.py *)

(** ** The collaborators of the image task and of the endpoints *)

(** [response.user] of [supabase_client.auth.get_user(token)]. *)
Record AuthUser : Type := mkAuthUser {
  au_id : string
}.

(** The placeholder renderer, the clock and random source of the file
    name, the storage bucket ['quest-images'] and the auth API.  The
    bucket is outside the [Store]: its calls are not recorded in the
    trace, only their outcomes are used. *)
Record Platform : Type := mkPlatform {
  (* PILImage.new('RGB', (60, 30), color='red') saved as PNG: image_bytes *)
  render_png : Result (list byte);
  (* int(datetime.now(timezone.utc).timestamp() * 1000) *)
  timestamp_ms : Z;
  (* random.randint(a, b) *)
  randint : Z -> Z -> Z;
  (* storage.from_('quest-images').upload(path, image_bytes, {"content-type": mime_type}) *)
  storage_upload : string -> list byte -> string -> Result unit;
  (* storage.from_('quest-images').get_public_url(path) *)
  get_public_url : string -> Result pyval;
  (* f"{e}" *)
  exception_text : exn -> string;
  (* supabase_client.auth.get_user(token).user *)
  auth_get_user : string -> Result (option AuthUser)
}.

Module database.

Definition get_quest_by_id (st : Store) (user_id : string) (quest_id : uuid) : option schemas.Quest :=
  List.find (fun q => (schemas.q_id q =? quest_id)%N && String.eqb (schemas.q_user_id q) user_id)
    (quests st).

(** [.order("created_at", desc=False)]; rows with equal keys keep their
    table order. *)
Fixpoint insert_by_created_at (m : Message) (sorted : list Message) : list Message :=
  match sorted with
  | [] => [m]
  | x :: rest =>
      if (schemas.created_at m <=? schemas.created_at x)%Z then m :: sorted
      else x :: insert_by_created_at m rest
  end.

Definition order_by_created_at (l : list Message) : list Message :=
  foldr insert_by_created_at [] l.

(** Returns [[]] when the quest is not the user's, when it has no
    messages, and when one of its rows is rejected by the
    [schemas.Message] validation: the exception of the list
    comprehension is caught and the whole read gives [[]]. *)
Definition get_messages_by_quest (st : Store) (user_id : string) (quest_id : uuid) : list Message :=
  match get_quest_by_id st user_id quest_id with
  | None => []
  | Some _ =>
      let data := List.filter (fun m => (schemas.quest_id m =? quest_id)%N)
                    (map row_message (messages st)) in
      if forallb schemas.valid_message data
      then order_by_created_at data
      else []
  end.

Definition touch_quest (now : Z) (quest_id : uuid) (q : schemas.Quest) : schemas.Quest :=
  if (schemas.q_id q =? quest_id)%N
  then schemas.mkQuest (schemas.title q) (schemas.q_id q) (schemas.q_user_id q)
         (schemas.q_created_at q) now
  else q.

(** Inserts the row, with the id the table gives it, then bumps the
    quest's [last_updated_at], then builds the [schemas.Message] of the
    inserted row: when that validation raises, the [except] returns
    [None], and the row stays inserted. *)
Definition add_message (W : Services) (st : Store) (user_id : string) (quest_id : uuid)
    (role : string) (content : pyval) (embedding : option (list pyval))
    (metadata : option pyval) : Store * option Message :=
  let new_message :=
    schemas.mkMessage content role (gen_random_uuid W st) quest_id user_id (utcnow W st) metadata in
  let inserted := mkStore (quests st) (messages st ++ [mkRow new_message embedding]) in
  (mkStore (map (touch_quest (utcnow W inserted) quest_id) (quests inserted)) (messages inserted),
   if schemas.valid_message new_message then Some new_message else None).

(** The similarity RPC; any exception of the call gives [[]]. *)
Definition find_relevant_messages (W : Services) (st : Store) (quest_id : uuid)
    (query_embedding : list pyval) (match_threshold : float64) (match_count : Z) : list Message :=
  match match_quest_messages W st query_embedding match_threshold match_count quest_id with
  | Ok data => data
  | Raise _ => []
  end.

(** The title of a new quest:
    [initial_prompt[:50] + "..." if initial_prompt else "New Quest"]. *)
Definition quest_title (initial_prompt : string) : string :=
  if String.eqb initial_prompt "" then "New Quest"
  else String.substring 0 50 initial_prompt +:+ "...".

(** The log record before the [try] slices [initial_prompt], which raises
    [TypeError] on [None]; otherwise the quest row is inserted and read
    back through [get_quest_by_id]. *)
Definition create_quest (W : Services) (st : Store) (user_id : string)
    (quest_data : schemas.QuestCreate) : Store * Result (option schemas.Quest) :=
  match schemas.initial_prompt quest_data with
  | None => (st, Raise TypeError)
  | Some initial_prompt =>
      let title := quest_title initial_prompt in
      let new_quest :=
        schemas.mkQuest (Some title) (gen_random_uuid W st) user_id (utcnow W st) (utcnow W st) in
      let inserted := mkStore (quests st ++ [new_quest]) (messages st) in
      (inserted, Ok (get_quest_by_id inserted user_id (schemas.q_id new_quest)))
  end.

(** [.delete().eq("id", quest_id).eq("user_id", user_id)]. *)
Definition deleted_by (user_id : string) (quest_id : uuid) (q : schemas.Quest) : bool :=
  (schemas.q_id q =? quest_id)%N && String.eqb (schemas.q_user_id q) user_id.

(** Deletes the user's quest; the messages of a deleted quest go with it
    (the CASCADE constraint the source relies on).  Returns [True]
    whether or not a row was deleted. *)
Definition delete_quest (st : Store) (user_id : string) (quest_id : uuid) : Store * bool :=
  if existsb (deleted_by user_id quest_id) (quests st)
  then (mkStore (List.filter (fun q => negb (deleted_by user_id quest_id q)) (quests st))
          (List.filter (fun r => negb (schemas.quest_id (row_message r) =? quest_id)%N)
             (messages st)),
        true)
  else (st, true).

End database.

(** ** llm.py *)

Module llm.

(** *** extractTextContent *)

(** The comprehension
    [[part.get('text', '') for part in content
      if isinstance(part, dict) and part.get('type') == 'text']]. *)
Fixpoint text_parts (content : list pyval) : list pyval :=
  match content with
  | [] => []
  | PDict d :: rest =>
      if eq_str (dict_get "type" d) "text"
      then dict_get_default "text" d (PStr "") :: text_parts rest
      else text_parts rest
  | _ :: rest => text_parts rest
  end.

Section WithServices.

Context (W : Services).

Definition extractTextContent (content : pyval) : Result string :=
  match content with
  | PStr s => Ok s
  | PList l => join newline (text_parts l)
  | other =>
      match json_dumps W other with
      | Ok s => Ok s
      | Raise _ => Ok ""
      end
  end.

(** *** generate_embedding *)

Definition dict_has_key (k : string) (d : list (string * pyval)) : bool :=
  existsb (fun kv => String.eqb k (fst kv)) d.

Definition generate_embedding (text_content : string) : M (option (list pyval)) :=
  try_except
    (if String.eqb text_content "" || isspace text_content then ret None
     else
       emit (EmbedContent text_content);;
       do result <- lift (embed_content W text_content);
       if dict_has_key "embedding" result
       then match dict_get "embedding" result with
            | PList embedding => ret (Some embedding)
            | _ => log ERROR "Failed to generate valid embedding. API Result: {result}";; ret None
            end
       else log ERROR "Failed to generate valid embedding. API Result: {result}";; ret None)
    (fun _ => log EXCEPTION "Error generating embedding for content: {text_content[:50]}...";;
              ret None).

(** *** fetch_image_data *)

(** [response.raise_for_status()]: an exception unless the status is 2xx. *)
Definition raise_for_status (r : Response) : Result unit :=
  if (200 <=? status_code r)%Z && (status_code r <? 300)%Z then Ok tt
  else Raise (HTTPStatusError (status_code r)).

(** [client.get(image_url, ...)]: the client refuses a URL that is not a
    [str] before anything is sent. *)
Definition client_get (image_url : pyval) : M Response :=
  match image_url with
  | PStr url => emit (HttpGet url);; lift (http_get W url)
  | _ => lift (Raise TypeError)
  end.

(** [mimetypes.guess_type(image_url)[0] or response.headers.get('content-type')]. *)
Definition resolve_mime_type (image_url : string) (response : Response) : option string :=
  match guess_type W image_url with
  | Some guessed => if String.eqb guessed "" then content_type response else Some guessed
  | None => content_type response
  end.

(** [not mime_type or not mime_type.startswith('image/')]. *)
Definition invalid_mime_type (mime_type : option string) : bool :=
  match mime_type with
  | None => true
  | Some m => String.eqb m "" || negb (String.prefix "image/" m)
  end.

Definition fetch_image_data (image_url : pyval) : M (option (string * list byte)) :=
  try_except
    (do response <- client_get image_url;
     lift (raise_for_status response);;
     let image_bytes := response_content response in
     match image_url with
     | PStr url =>
         let mime_type := resolve_mime_type url response in
         match mime_type with
         | Some m =>
             if invalid_mime_type mime_type
             then log ERROR "Invalid mime type for URL: {image_url}";; ret None
             else ret (Some (m, image_bytes))
         | None => log ERROR "Invalid mime type for URL: {image_url}";; ret None
         end
     | _ => lift (Raise TypeError) (* mimetypes.guess_type takes a str *)
     end)
    (fun _ => log EXCEPTION "Failed to fetch image data from URL: {image_url}";; ret None).

(** *** format_content_for_gemini *)

Definition IMAGE_PLACEHOLDER : string := "[Image could not be loaded]".

(** The test of the [elif] at line 77: the item is tagged ['image_url'],
    its ['image_url'] entry is a dict, and that dict has a truthy ['url']. *)
Definition image_reference (item : list (string * pyval)) : option pyval :=
  if eq_str (dict_get "type" item) "image_url"
  then match dict_get "image_url" item with
       | PDict ref => if truthy (dict_get "url" ref) then Some (dict_get "url" ref) else None
       | _ => None
       end
  else None.

(** The body of the loop over a list-shaped content: appends to [parts]. *)
Definition format_item (parts : list Part) (item : pyval) : M (list Part) :=
  match item with
  | PDict d =>
      if eq_str (dict_get "type" d) "text" && truthy (dict_get "text" d)
      then ret (parts ++ [TextPart (dict_get "text" d)])
      else match image_reference d with
           | Some image_url =>
               log INFO "Fetching image data for URL: {image_url}";;
               do image_data <- fetch_image_data image_url;
               match image_data with
               | Some (mime_type, data) => ret (parts ++ [InlineData mime_type data])
               | None => ret (parts ++ [TextPart (PStr IMAGE_PLACEHOLDER)])
               end
           | None => ret parts
           end
  | other => ret (parts ++ [TextPart (PStr (builtin_str W other))])
  end.

Definition format_content_for_gemini (content : pyval) : M (list Part) :=
  match content with
  | PStr s => ret [TextPart (PStr s)]
  | PList items => for_each format_item items []
  | other => ret [TextPart (PStr (builtin_str W other))]
  end.

(** *** format_history_for_gemini *)

Fixpoint format_history_for_gemini (db_messages : list Message) : Result (list Turn) :=
  match db_messages with
  | [] => Ok []
  | msg :: rest =>
      dor text_content <- extractTextContent (schemas.content msg);
      dor history <- format_history_for_gemini rest;
      if negb (String.eqb text_content "")
      then Ok (mkTurn (schemas.role msg) [TextPart (PStr text_content)] :: history)
      else Ok history
  end.

(** *** generate_followup_suggestions *)

Definition SUGGESTION_INSTRUCTION : string :=
  "Based on our conversation and my last response, suggest 3 brief, relevant follow-up questions a curious child might ask next. Format the response ONLY as a JSON list of strings, like: ["
  +:+ dquote +:+ "Question 1?" +:+ dquote +:+ ", "
  +:+ dquote +:+ "Question 2?" +:+ dquote +:+ ", "
  +:+ dquote +:+ "Question 3?" +:+ dquote +:+ "]".

(** [Some] of the strings when every element is a [str]. *)
Fixpoint all_str (l : list pyval) : option (list string) :=
  match l with
  | [] => Some []
  | PStr s :: rest => match all_str rest with Some ss => Some (s :: ss) | None => None end
  | _ => None
  end.

(** [text.strip().lstrip('```json').rstrip('```').strip()]. *)
Definition raw_json_of (text : string) : string :=
  strip (rstrip fence (lstrip (fence +:+ "json") (strip text))).

Definition generate_followup_suggestions (history : list Turn) (latest_response : string)
    : M (list string) :=
  let suggestion_prompt :=
    history ++ [mkTurn "model" [TextPart (PStr latest_response)];
                mkTurn "user" [TextPart (PStr SUGGESTION_INSTRUCTION)]] in
  try_except
    (log INFO "Generating follow-up suggestions...";;
     let outcome := generate_json_content W suggestion_prompt in
     emit (GenerateSuggestions suggestion_prompt outcome);;
     do text <- lift outcome;
     let raw_json := raw_json_of text in
     do suggestions <- lift (json_loads W raw_json);
     match suggestions with
     | PList l =>
         match all_str l with
         | Some strs => log INFO "Generated suggestions: {suggestions}";; ret (take 4 strs)
         | None => log ERROR "Suggestion response not valid JSON list: {raw_json}";; ret []
         end
     | _ => log ERROR "Suggestion response not valid JSON list: {raw_json}";; ret []
     end)
    (fun _ => log EXCEPTION "Error generating suggestions:";; ret []).

(** *** get_system_prompt *)

Definition get_system_prompt (user_id : string) : M string :=
  try_except
    (emit (GetUserById user_id);;
     do user_data <- lift (get_user_by_id W user_id);
     let custom_prompt :=
       match user_data with
       | Some u =>
           match user_metadata u with
           | Some (kv :: md) => dict_get "custom_guide_prompt" (kv :: md)
           | _ => PNone
           end
       | None => PNone
       end in
     match custom_prompt with
     | PStr s =>
         if negb (String.eqb s "") && negb (String.eqb (strip s) "")
         then log INFO "Using custom guide prompt for user {user_id}.";; ret (strip s)
         else log INFO "Using default system prompt for user {user_id}.";;
              ret (DEFAULT_SYSTEM_PROMPT W)
     | _ => log INFO "Using default system prompt for user {user_id}.";;
            ret (DEFAULT_SYSTEM_PROMPT W)
     end)
    (fun _ => log EXCEPTION "Error fetching custom prompt for user {user_id}, using default.";;
              ret (DEFAULT_SYSTEM_PROMPT W)).

(** *** generate_ai_response: context selection (lines 140-147) *)

(** The body of both merge loops:
    [if msg.id not in combined_context_ids:
       context_messages_for_history.append(msg); combined_context_ids.add(msg.id)].
    The state is [(context_messages_for_history, combined_context_ids)]. *)
Definition add_unseen (acc : list Message * gset uuid) (msg : Message)
    : list Message * gset uuid :=
  if decide (schemas.id msg ∈ acc.2) then acc
  else (acc.1 ++ [msg], acc.2 ∪ {[schemas.id msg]}).

(** The two loops, over [relevant_messages] and then [recent_messages]. *)
Definition merge_context (relevant_messages recent_messages : list Message) : list Message :=
  (foldl add_unseen (foldl add_unseen ([], ∅) relevant_messages) recent_messages).1.

Definition MAX_CONTEXT_MSGS : nat := 7.

Definition select_context (relevant_messages messages_db : list Message) : list Message :=
  let recent_messages := last_n 3 messages_db in
  let context_messages_for_history := merge_context relevant_messages recent_messages in
  if (MAX_CONTEXT_MSGS <? length context_messages_for_history)%nat
  then last_n MAX_CONTEXT_MSGS context_messages_for_history
  else context_messages_for_history.

(** *** generate_ai_response: prompt construction (lines 159-170) *)

Definition ACKNOWLEDGEMENT : string := "Understood. I'm ready to guide the child.".

Definition preamble (effective_system_prompt : string) : list Turn :=
  [ mkTurn "user" [TextPart (PStr effective_system_prompt)];
    mkTurn "model" [TextPart (PStr ACKNOWLEDGEMENT)] ].

(** Line 164: drop the first history turn when its role is ['user']. *)
Definition history_to_append (formatted_history : list Turn) : list Turn :=
  match formatted_history with
  | first :: rest => if String.eqb (role first) "user" then rest else formatted_history
  | [] => []
  end.

(** Lines 166-168, on the state [(final_prompt, last_role)]. *)
Definition walk_step (acc : list Turn * string) (msg : Turn) : M (list Turn * string) :=
  if String.eqb (role msg) acc.2
  then log WARNING "Skipping message due to non-alternating role: {msg}";; ret acc
  else ret (acc.1 ++ [msg], role msg).

Definition FILLER : Turn := mkTurn "model" [TextPart (PStr "Okay.")].

Definition assemble_prompt (effective_system_prompt : string) (formatted_history : list Turn)
    (latest_user_parts : list Part) : M (list Turn) :=
  let final_prompt := preamble effective_system_prompt in
  do walked <- for_each walk_step (history_to_append formatted_history) (final_prompt, "model");
  let final_prompt := walked.1 in
  do last_turn <- lift (index_last final_prompt);
  let final_prompt :=
    if String.eqb (role last_turn) "user" then final_prompt ++ [FILLER] else final_prompt in
  ret (final_prompt ++ [mkTurn "user" latest_user_parts]).

(** *** generate_ai_response *)

(** 0.75 as a binary64. *)
Definition MATCH_THRESHOLD : float64 := 0x3FE8000000000000%N.

(** [next((msg for msg in reversed(messages_db) if msg.role == 'user'), None)]. *)
Definition latest_user (messages_db : list Message) : option Message :=
  List.find (fun msg => String.eqb (schemas.role msg) "user") (rev messages_db).

Definition find_relevant_messages (quest_id : uuid) (query_embedding : list pyval)
    (match_threshold : float64) (match_count : Z) : M (list Message) :=
  fun st => (st, [MatchQuestMessages quest_id query_embedding],
             Ok (database.find_relevant_messages W st quest_id query_embedding
                   match_threshold match_count)).

(** Lines 136-147: the query embedding, the similarity search when there
    is one, and the merge with the last three messages. *)
Definition prepare_context (quest_id : uuid) (messages_db : list Message)
    (latest_user_content_text : string) : M (list Message) :=
  do query_embedding <- generate_embedding latest_user_content_text;
  do relevant_messages <-
    match query_embedding with
    | Some (x :: embedding) =>
        find_relevant_messages quest_id (x :: embedding) MATCH_THRESHOLD 3
    | _ => log WARNING "No query embedding for quest {quest_id}, skipping similarity search.";;
           ret []
    end;
  ret (select_context relevant_messages messages_db).

(** Lines 179-181: the history handed to the suggestion prompt. *)
Definition history_for_suggestions (formatted_history : list Turn)
    (latest_user_content_text : string) : Result (list Turn) :=
  dor last_turn <- index_last formatted_history;
  if existsb (fun p => eq_str (part_text p) latest_user_content_text) (parts last_turn)
  then Ok formatted_history
  else Ok (formatted_history ++ [mkTurn "user" [TextPart (PStr latest_user_content_text)]]).

Definition add_message (user_id : string) (quest_id : uuid) (role : string) (content : pyval)
    (embedding : option (list pyval)) (metadata : option pyval) : M (option Message) :=
  fun st =>
    let '(st', saved) := database.add_message W st user_id quest_id role content embedding metadata in
    (st', [AddMessage user_id quest_id role content embedding metadata], Ok saved).

Definition get_messages_by_quest (user_id : string) (quest_id : uuid) : M (list Message) :=
  fun st => (st, [GetMessagesByQuest user_id quest_id],
             Ok (database.get_messages_by_quest st user_id quest_id)).

(** [{"suggestions": suggestions} if suggestions else None]. *)
Definition suggestions_metadata (suggestions : list string) : option pyval :=
  match suggestions with
  | [] => None
  | _ => Some (PDict [("suggestions", PList (map PStr suggestions))])
  end.

(** Lines 172-188: everything from the generation call on. *)
Definition respond (user_id : string) (quest_id : uuid) (formatted_history : list Turn)
    (latest_user_content_text : string) (final_prompt : list Turn) : M unit :=
  log INFO "Calling Gemini chat model for Quest {quest_id}...";;
  let outcome := generate_content W final_prompt in
  emit (GenerateContent final_prompt outcome);;
  do ai_response_text <- lift outcome;
  log INFO "Gemini response generated: {ai_response_text[:100]}...";;
  do history <- lift (history_for_suggestions formatted_history latest_user_content_text);
  do suggestions <- generate_followup_suggestions history ai_response_text;
  do ai_response_embedding <- generate_embedding ai_response_text;
  let metadata := suggestions_metadata suggestions in
  add_message user_id quest_id "model" (PStr ai_response_text) ai_response_embedding metadata;;
  log INFO "AI response, embedding, and suggestions saved for Quest {quest_id}".

Definition generate_ai_response (user_id : string) (quest_id : uuid) : M unit :=
  log INFO "Generating AI response for Quest {quest_id}";;
  try_except
    (do messages_db <- get_messages_by_quest user_id quest_id;
     match messages_db with
     | [] => log WARNING "No messages for Quest {quest_id}."
     | _ =>
         match latest_user messages_db with
         | None => log WARNING "No user message for Quest {quest_id}."
         | Some latest_user_message =>
             do latest_user_content_text <-
               lift (extractTextContent (schemas.content latest_user_message));
             do context_messages_for_history <-
               prepare_context quest_id messages_db latest_user_content_text;
             log INFO "Using {len(context_messages_for_history)} messages (text only) as history context.";;
             do formatted_history <- lift (format_history_for_gemini context_messages_for_history);
             do latest_user_parts <-
               format_content_for_gemini (schemas.content latest_user_message);
             match latest_user_parts with
             | [] => log WARNING "Could not format latest user message parts."
             | _ =>
                 do effective_system_prompt <- get_system_prompt user_id;
                 do final_prompt <-
                   assemble_prompt effective_system_prompt formatted_history latest_user_parts;
                 respond user_id quest_id formatted_history latest_user_content_text final_prompt
             end
         end
     end)
    (fun _ => log EXCEPTION "Error generating AI response for Quest {quest_id}:").

End WithServices.

(** *** handle_image_generation_request *)

Section ImageGeneration.

Context (W : Services) (P : Platform).

(** [mime_type.split('/')[-1] or 'png']. *)
Definition file_ext (mime_type : string) : string :=
  let ext := last_field "/" mime_type in
  if String.eqb ext "" then "png" else ext.

(** [filePath = f"{user_id}/{fileName}"] with
    [fileName = f"generated_{timestamp}_{random.randint(100,999)}.{file_ext}"]. *)
Definition file_path (user_id mime_type : string) : string :=
  user_id +:+ "/" +:+ "generated_" +:+ pretty (timestamp_ms P) +:+ "_"
  +:+ pretty (randint P 100 999) +:+ "." +:+ file_ext mime_type.

Definition text_item (text : string) : pyval :=
  PDict [("type", PStr "text"); ("text", PStr text)].

Definition image_url_item (url : string) : pyval :=
  PDict [("type", PStr "image_url"); ("image_url", PDict [("url", PStr url)])].

(** The body of the [try]; the result is
    [(generated_image_url, error_message)] as they stand at its end. *)
Definition generate_and_upload (user_id : string) : M (option string * option string) :=
  do image_bytes <- lift (render_png P);
  let mime_type := "image/png" in
  if match image_bytes with [] => false | _ => true end && negb (String.eqb mime_type "")
  then
    let filePath := file_path user_id mime_type in
    log INFO "Uploading generated image to: {filePath}";;
    do _ <- lift (storage_upload P filePath image_bytes mime_type);
    do url_response <- lift (get_public_url P filePath);
    if match url_response with PStr _ => true | _ => false end && truthy url_response
    then
      log INFO "Generated image uploaded successfully: {generated_image_url}";;
      ret (match url_response with PStr url => Some url | _ => None end, None)
    else
      log ERROR "{error_message} Response: {url_response}";;
      ret (None, Some "Image uploaded, but failed to get public URL.")
  else ret (None, Some "Image generation failed (no image data received).").

(** A [str] or [None] in a boolean context. *)
Definition if_truthy (s : option string) : option string :=
  match s with
  | Some t => if String.eqb t "" then None else Some t
  | None => None
  end.

(** Never raises: what the [try] raises becomes the error message, and
    [generated_image_url] is still [None] then, nothing that can raise
    following its assignment. *)
Definition handle_image_generation_request (user_id : string) (quest_id : uuid)
    (prompt : string) : M unit :=
  log INFO "Starting image generation for quest {quest_id} with prompt: {prompt[:50]}...";;
  do outcome <-
    try_except (generate_and_upload user_id)
      (fun e =>
         log EXCEPTION "Error during image generation task for quest {quest_id}:";;
         ret (None, Some ("An unexpected error occurred: " +:+ exception_text P e)));
  let generated_image_url := fst outcome in
  let error_message := snd outcome in
  let request := text_item ("Image generation request: " +:+ dquote +:+ prompt +:+ dquote) in
  let result :=
    match if_truthy generated_image_url, if_truthy error_message with
    | Some url, _ => image_url_item url
    | None, Some reason => text_item ("Sorry, image generation failed: " +:+ reason)
    | None, None => text_item "Sorry, image generation failed unexpectedly."
    end in
  add_message W user_id quest_id "model" (PList [request; result]) None None;;
  log INFO "Image generation result message saved for quest {quest_id}".

End ImageGeneration.

End llm.

(** ** auth.py and main.py *)

(** How a request handler ends: with its return value, with an
    [HTTPException], or with an exception nothing catches. *)
Inductive Reply (A : Type) : Type :=
| Return (a : A)
| HTTPException (status_code : Z) (detail : string)
| Unhandled (e : exn).
Arguments Return {A} a.
Arguments HTTPException {A} status_code detail.
Arguments Unhandled {A} e.

(** What [background_tasks.add_task] schedules. *)
Inductive task : Type :=
| generate_ai_response_task (user_id : string) (quest_id : uuid)
| handle_image_generation_request_task (user_id : string) (quest_id : uuid) (prompt : string).

Module auth.

Definition credentials_exception {A} : Reply A :=
  HTTPException 401 "Could not validate credentials".

(** The [try] raises [credentials_exception] itself when there is no
    user; its [except Exception] catches that and whatever the auth
    call raises, and raises [credentials_exception]. *)
Definition get_current_user (P : Platform) (token : string) : Reply AuthUser :=
  let attempt : Reply AuthUser :=
    match auth_get_user P token with
    | Raise e => Unhandled e
    | Ok None => credentials_exception
    | Ok (Some user) => Return user
    end in
  match attempt with
  | Return user => Return user
  | HTTPException _ _ | Unhandled _ => credentials_exception
  end.

End auth.

Module main.

(** A handler maps the store to the new store, the tasks it scheduled
    and its reply; [user_id] is [str(current_user.id)]. *)
Definition Handler (A : Type) : Type := Store -> Store * list task * Reply A.

Definition NOT_FOUND {A} : Reply A := HTTPException 404 "Quest not found or access denied".

Definition create_new_quest (W : Services) (user_id : string)
    (quest_data : schemas.QuestCreate) : Handler schemas.Quest := fun st =>
  match database.create_quest W st user_id quest_data with
  | (st', Raise e) => (st', [], Unhandled e)
  | (st', Ok None) => (st', [], HTTPException 500 "Could not create quest")
  | (st', Ok (Some quest)) => (st', [], Return quest)
  end.

Definition get_quest_details (user_id : string) (quest_id : uuid)
    : Handler schemas.QuestDetail := fun st =>
  match database.get_quest_by_id st user_id quest_id with
  | None => (st, [], NOT_FOUND)
  | Some quest =>
      (st, [],
       Return (schemas.mkQuestDetail quest (database.get_messages_by_quest st user_id quest_id)))
  end.

Definition add_new_message (W : Services) (user_id : string) (quest_id : uuid)
    (message_data : schemas.MessageCreate) : Handler Message := fun st =>
  match database.get_quest_by_id st user_id quest_id with
  | None => (st, [], NOT_FOUND)
  | Some _ =>
      match database.add_message W st user_id quest_id "user"
              (schemas.mc_content message_data) None None with
      | (st', None) => (st', [], HTTPException 500 "Could not save user message")
      | (st', Some user_message) =>
          (st', [generate_ai_response_task user_id quest_id], Return user_message)
      end
  end.

Definition generate_image_for_quest (user_id : string) (quest_id : uuid)
    (request_data : schemas.ImageGenerationRequest) : Handler pyval := fun st =>
  match database.get_quest_by_id st user_id quest_id with
  | None => (st, [], NOT_FOUND)
  | Some _ =>
      (st,
       [handle_image_generation_request_task user_id quest_id (schemas.prompt request_data)],
       Return (PDict [("message", PStr "Image generation request received.")]))
  end.

(** [GuideResponse(prompt=...)]: the field is [Optional[str]]; the
    validation error is a [ValueError]. *)
Definition GuideResponse (prompt : pyval) : Result (option string) :=
  match prompt with
  | PNone => Ok None
  | PStr s => Ok (Some s)
  | _ => Raise ValueError
  end.

Definition get_user_guide (W : Services) (user_id : string) : Reply (option string) :=
  let attempt :=
    dor user_data <- get_user_by_id W user_id;
    match user_data with
    | None => GuideResponse PNone
    | Some u =>
        match user_metadata u with
        | None | Some [] => GuideResponse PNone
        | Some metadata => GuideResponse (dict_get "custom_guide_prompt" metadata)
        end
    end in
  match attempt with
  | Ok response => Return response
  | Raise _ => HTTPException 500 "Failed to retrieve guide information"
  end.

Definition delete_single_quest (user_id : string) (quest_id : uuid) : Handler unit := fun st =>
  let '(st', success) := database.delete_quest st user_id quest_id in
  if success then (st', [], Return tt)
  else (st', [], HTTPException 500 "Failed to delete quest").

(** What a scheduled task runs, once the reply has been sent. *)
Definition run_task (W : Services) (P : Platform) (t : task) : M unit :=
  match t with
  | generate_ai_response_task user_id quest_id => llm.generate_ai_response W user_id quest_id
  | handle_image_generation_request_task user_id quest_id prompt =>
      llm.handle_image_generation_request W P user_id quest_id prompt
  end.

End main.

(** ** Concrete services, stores and messages *)

Module Sample.

Definition png_url : string := "https://x/y.png".

Definition png_bytes : list byte := [x89; x50; x4e; x47].

Definition suggestions_json : string :=
  "[" +:+ dquote +:+ "Why?" +:+ dquote +:+ ", " +:+ dquote +:+ "How?" +:+ dquote +:+ "]".

(** Every service answers; the embedding service is down.  [builtin_str]
    is [str] on [None], booleans, integers and strings, the only values
    the samples apply it to. *)
Definition services : Services := {|
  embed_content := fun _ => Raise (ServiceError "embedding service unavailable");
  match_quest_messages := fun _ _ _ _ _ => Ok [];
  http_get := fun url =>
    if String.eqb url png_url then Ok (mkResponse 200 png_bytes (Some "application/octet-stream"))
    else Raise (ServiceError "connection refused");
  guess_type := fun url => if String.eqb url png_url then Some "image/png" else None;
  generate_content := fun _ => Ok "Air scatters blue light the most. What colour is the sky at sunset?";
  generate_json_content := fun _ => Ok suggestions_json;
  json_loads := fun s =>
    if String.eqb s suggestions_json then Ok (PList [PStr "Why?"; PStr "How?"])
    else Raise JSONDecodeError;
  json_dumps := fun _ => Raise TypeError;
  builtin_str := fun v =>
    match v with
    | PStr s => s
    | PNone => "None"
    | PBool true => "True"
    | PBool false => "False"
    | PInt n => pretty n
    | _ => "<object>"
    end;
  get_user_by_id := fun _ => Ok None;
  utcnow := fun st => (1000 + Z.of_nat (length (messages st)))%Z;
  gen_random_uuid := fun st => (100 + N.of_nat (length (messages st)))%N;
  DEFAULT_SYSTEM_PROMPT := "You are a nurturing parent guiding a curious child."
|}.

(** The same, with a generation model that raises. *)
Definition services_generation_down : Services := {|
  embed_content := embed_content services;
  match_quest_messages := match_quest_messages services;
  http_get := http_get services;
  guess_type := guess_type services;
  generate_content := fun _ => Raise (ServiceError "generation unavailable");
  generate_json_content := generate_json_content services;
  json_loads := json_loads services;
  json_dumps := json_dumps services;
  builtin_str := builtin_str services;
  get_user_by_id := get_user_by_id services;
  utcnow := utcnow services;
  gen_random_uuid := gen_random_uuid services;
  DEFAULT_SYSTEM_PROMPT := DEFAULT_SYSTEM_PROMPT services
|}.

Definition quest : schemas.Quest := schemas.mkQuest (Some "Sky...") 1%N "u1" 900 900.

Definition text_message (i : N) (r : string) (text : string) : Message :=
  schemas.mkMessage (PStr text) r i 1%N "u1" (Z.of_N i) None.

Definition image_dict : list (string * pyval) :=
  [("type", PStr "image_url"); ("image_url", PDict [("url", PStr png_url)])].

Definition image_item : pyval := PDict image_dict.

Definition image_message : Message :=
  schemas.mkMessage (PList [image_item]) "user" 10%N 1%N "u1" 950 None.

Definition store_of_log (log : list Message) : Store :=
  mkStore [quest] (map (fun m => mkRow m None) log).

(** A quest whose only message is a picture sent by the user. *)
Definition image_only_store : Store := store_of_log [image_message].

(** A quest with one text message of the user. *)
Definition question_store : Store := store_of_log [text_message 10 "user" "Why is the sky blue?"].

(** A quest whose log holds a single message, of the model. *)
Definition model_only_store : Store := store_of_log [text_message 10 "model" "Hello!"].

(** Ten messages, alternating, with ids 1 to 10. *)
Definition ten_messages : list Message :=
  [ text_message 1 "user" "q1"; text_message 2 "model" "a1";
    text_message 3 "user" "q2"; text_message 4 "model" "a2";
    text_message 5 "user" "q3"; text_message 6 "model" "a3";
    text_message 7 "user" "q4"; text_message 8 "model" "a4";
    text_message 9 "user" "q5"; text_message 10 "model" "a5" ].

(** Similarity results: the ninth and the second message of [ten_messages]. *)
Definition similar : list Message :=
  [ text_message 9 "user" "q5"; text_message 2 "model" "a1" ].

Definition history : list Turn :=
  [ mkTurn "user" [TextPart (PStr "q1")]; mkTurn "model" [TextPart (PStr "a1")];
    mkTurn "user" [TextPart (PStr "q2")]; mkTurn "user" [TextPart (PStr "q2 again")];
    mkTurn "model" [TextPart (PStr "a2")] ].

(** A text item whose text is empty. *)
Definition empty_text_item : pyval := PDict [("type", PStr "text"); ("text", PStr "")].

Definition reply : string :=
  "Air scatters blue light the most. What colour is the sky at sunset?".

(** The prompt of the turn on [image_only_store]. *)
Definition image_only_prompt : list Turn :=
  [ mkTurn "user" [TextPart (PStr (DEFAULT_SYSTEM_PROMPT services))];
    mkTurn "model" [TextPart (PStr llm.ACKNOWLEDGEMENT)];
    mkTurn "user" [InlineData "image/png" png_bytes] ].

(** What the turn on [image_only_store] does, in order. *)
Definition image_only_trace : list event :=
  [ Log INFO "Generating AI response for Quest {quest_id}";
    GetMessagesByQuest "u1" 1%N;
    Log WARNING "No query embedding for quest {quest_id}, skipping similarity search.";
    Log INFO "Using {len(context_messages_for_history)} messages (text only) as history context.";
    Log INFO "Fetching image data for URL: {image_url}";
    HttpGet png_url;
    GetUserById "u1";
    Log INFO "Using default system prompt for user {user_id}.";
    Log INFO "Calling Gemini chat model for Quest {quest_id}...";
    GenerateContent image_only_prompt (Ok reply);
    Log INFO "Gemini response generated: {ai_response_text[:100]}...";
    Log EXCEPTION "Error generating AI response for Quest {quest_id}:" ].

End Sample.

(** ** Reference definitions for the statements *)

(** Keeping the first occurrence of every message id, in order: what
    "merge preserving first-seen order, deduplicating by message
    identity" means for a list. *)
Fixpoint first_seen_from (seen : list uuid) (l : list Message) : list Message :=
  match l with
  | [] => []
  | m :: rest =>
      if decide (schemas.id m ∈ seen) then first_seen_from seen rest
      else m :: first_seen_from (schemas.id m :: seen) rest
  end.

Definition first_seen (l : list Message) : list Message := first_seen_from [] l.

(** No two adjacent turns share a role. *)
Definition no_repeated_role (p : list Turn) : Prop :=
  forall i t u, p !! i = Some t -> p !! S i = Some u -> role t <> role u.

(** Every turn is spoken by one of the two parties of the chat protocol. *)
Definition two_party (p : list Turn) : Prop :=
  Forall (fun t => role t = "user" \/ role t = "model") p.

(** The id set of the merge loops holds exactly the ids in [seen]. *)
Definition tracks (acc : list Message * gset uuid) (seen : list uuid) : Prop :=
  forall x, x ∈ acc.2 <-> x ∈ seen.

(** The turns that lines 166-168 append, given the role of the last
    turn appended so far. *)
Fixpoint accepted_turns (last_role : string) (hist : list Turn) : list Turn :=
  match hist with
  | [] => []
  | msg :: rest =>
      if String.eqb (role msg) last_role then accepted_turns last_role rest
      else msg :: accepted_turns (role msg) rest
  end.

(** Every turn of [p] has a role other than the one before it, [prev]
    being the role before the first. *)
Fixpoint chain (prev : string) (p : list Turn) : Prop :=
  match p with
  | [] => True
  | t :: rest => role t <> prev /\ chain (role t) rest
  end.

(** The role of the last turn of [p], or [prev] when [p] is empty. *)
Definition last_role_of (prev : string) (p : list Turn) : string :=
  foldl (fun _ t => role t) prev p.

(** The turns at even positions are the user's, the others the model's. *)
Definition alternates_from_user (p : list Turn) : Prop :=
  forall i t, p !! i = Some t -> role t = if Nat.even i then "user" else "model".

Definition is_log (e : event) : Prop :=
  match e with Log _ _ => True | _ => False end.

(** [post m st Q]: running [m] from the store [st] ends in a store, an
    event list and a result that satisfy [Q]. *)
Definition post {A} (m : M A) (st : Store)
    (Q : Store -> list event -> Result A -> Prop) : Prop :=
  Q (store_of (m st)) (events_of (m st)) (result_of (m st)).

(** [respects R P m]: from any store, [m] ends in a store related to it
    by [R] and emits only events that satisfy [P]. *)
Definition respects {A} (R : Store -> Store -> Prop) (P : event -> Prop) (m : M A) : Prop :=
  forall st, post m st (fun st' evs _ => R st st' /\ Forall P evs).

(** Events other than a call of the generation model for the reply and a
    call of [database.add_message]. *)
Definition benign (e : event) : Prop :=
  match e with
  | GenerateContent _ _ => False
  | AddMessage _ _ _ _ _ _ => False
  | _ => True
  end.

Definition is_add_message (e : event) : Prop :=
  match e with AddMessage _ _ _ _ _ _ => True | _ => False end.

(** A call of the generation model for the reply that raised. *)
Definition generation_failed (e : event) : Prop :=
  match e with GenerateContent _ (Raise _) => True | _ => False end.

Definition is_similarity_search (e : event) : Prop :=
  match e with MatchQuestMessages _ _ => True | _ => False end.

Definition any_store : Store -> Store -> Prop := fun _ _ => True.

(** Events other than a call of the generation model that raised. *)
Definition no_failure (e : event) : Prop :=
  match e with GenerateContent _ (Raise _) => False | _ => True end.

(** If the generation call raised among [evs], the store is still [st]
    and [database.add_message] was not called. *)
Definition nothing_persisted_on_failure (st st' : Store) (evs : list event) : Prop :=
  Exists generation_failed evs -> st' = st /\ Forall (fun e => ~ is_add_message e) evs.

(** Line 76: the item is a dict tagged ['text'] with a truthy ['text']. *)
Definition is_text_item (item : pyval) : bool :=
  match item with
  | PDict d => eq_str (dict_get "type" d) "text" && truthy (dict_get "text" d)
  | _ => false
  end.

(** Line 77: the item is a dict that passes the image-reference test. *)
Definition is_image_reference_item (item : pyval) : bool :=
  match item with
  | PDict d => match llm.image_reference d with Some _ => true | None => false end
  | _ => false
  end.

(** The MIME type of a fetched image: the one guessed from the URL
    extension, otherwise the declared content type of the response. *)
Definition mime_of (W : Services) (url : string) (response : Response) : option string :=
  match guess_type W url with
  | Some (String c m) => Some (String c m)
  | _ => content_type response
  end.

Definition success_status (response : Response) : Prop :=
  (200 <= status_code response < 300)%Z.

(** The fetch of an image reference fails: the request raises (a URL
    that is not a string is refused), the status is not 2xx, or the MIME
    type is missing or does not start with [image/]. *)
Definition fetch_fails (W : Services) (image_url : pyval) : Prop :=
  match image_url with
  | PStr url =>
      match http_get W url with
      | Raise _ => True
      | Ok response =>
          ~ success_status response
          \/ match mime_of W url response with
             | Some m => String.prefix "image/" m = false
             | None => True
             end
      end
  | _ => True
  end.

(** The fetch succeeds with this MIME type and these bytes. *)
Definition fetch_succeeds (W : Services) (image_url : pyval) (mime : string) (data : list byte)
    : Prop :=
  exists url response,
    image_url = PStr url /\ http_get W url = Ok response /\ success_status response
    /\ mime_of W url response = Some mime /\ String.prefix "image/" mime = true
    /\ data = response_content response.

(** The suggestion list read off the outcome of the suggestion call:
    the strings of the JSON array the reply parses to, at most 4 of them,
    and nothing on any other outcome. *)
Definition parsed_suggestions (W : Services) (outcome : Result string) : list string :=
  match outcome with
  | Ok text =>
      match json_loads W (llm.raw_json_of text) with
      | Ok (PList l) =>
          match llm.all_str l with
          | Some strs => take 4 strs
          | None => []
          end
      | _ => []
      end
  | Raise _ => []
  end.

(** The prompt [generate_followup_suggestions] sends. *)
Definition suggestion_prompt (history : list Turn) (latest_response : string) : list Turn :=
  history ++ [mkTurn "model" [TextPart (PStr latest_response)];
              mkTurn "user" [TextPart (PStr llm.SUGGESTION_INSTRUCTION)]].

(** The rows of a quest, in table order, as [schemas.Message] values. *)
Definition rows_of_quest (st : Store) (quest_id : uuid) : list Message :=
  List.filter (fun m => (schemas.quest_id m =? quest_id)%N) (map row_message (messages st)).

(** Every row of the quest passes the [schemas.Message] validation,
    content and metadata. *)
Definition rows_valid (st : Store) (quest_id : uuid) : Prop :=
  forallb schemas.valid_message (rows_of_quest st quest_id) = true.

(** Ascending [created_at]. *)
Definition older_or_same (a b : Message) : Prop :=
  (schemas.created_at a <= schemas.created_at b)%Z.

(** The message [add_message] inserts: the id is the table's, the date
    the clock's. *)
Definition inserted_message (W : Services) (st : Store) (user_id : string) (quest_id : uuid)
    (role : string) (content : pyval) (metadata : option pyval) : Message :=
  schemas.mkMessage content role (gen_random_uuid W st) quest_id user_id (utcnow W st) metadata.

(** The turn [format_history_for_gemini] makes of a message whose text
    was extracted, if any. *)
Definition history_turn (W : Services) (msg : Message) : option Turn :=
  match llm.extractTextContent W (schemas.content msg) with
  | Ok text =>
      if String.eqb text "" then None
      else Some (mkTurn (schemas.role msg) [TextPart (PStr text)])
  | Raise _ => None
  end.

Definition is_http_get (e : event) : bool :=
  match e with HttpGet _ => true | _ => false end.

Definition is_embed_content (e : event) : bool :=
  match e with EmbedContent _ => true | _ => false end.

(** A list item that adds no block: a dict that is neither a text item
    nor an image reference. *)
Definition is_dropped_item (item : pyval) : bool :=
  isinstance_dict item && negb (is_text_item item) && negb (is_image_reference_item item).

(** [text] is empty or blank. *)
Definition blank (text : string) : bool :=
  String.eqb text "" || isspace text.

(** What a turn may leave behind: nothing, or one model message holding
    a reply of the generation model, added to the quest by
    [database.add_message]. *)
Definition at_most_one_reply (W : Services) (user_id : string) (quest_id : uuid)
    (st st' : Store) (evs : list event) : Prop :=
  (st' = st /\ Forall (fun e => ~ is_add_message e) evs)
  \/ exists prompt reply embedding metadata,
       generate_content W prompt = Ok reply
       /\ st' = (database.add_message W st user_id quest_id "model" (PStr reply)
                   embedding metadata).1
       /\ AddMessage user_id quest_id "model" (PStr reply) embedding metadata ∈ evs.

(** The public URL under which the placeholder image ends up: it was
    rendered, uploaded under the user's folder as a PNG, and the bucket
    gave a non-empty URL for that path. *)
Definition published_url (P : Platform) (user_id : string) : option string :=
  match render_png P with
  | Ok (b :: image_bytes) =>
      let path :=
        user_id +:+ "/generated_" +:+ pretty (timestamp_ms P) +:+ "_"
        +:+ pretty (randint P 100 999) +:+ ".png" in
      match storage_upload P path (b :: image_bytes) "image/png" with
      | Ok _ =>
          match get_public_url P path with
          | Ok (PStr url) => if String.eqb url "" then None else Some url
          | _ => None
          end
      | Raise _ => None
      end
  | _ => None
  end.

(** The first item of the message the image task stores. *)
Definition request_line (prompt : string) : string :=
  "Image generation request: " +:+ dquote +:+ prompt +:+ dquote.

Definition apology (reason : string) : pyval :=
  llm.text_item ("Sorry, image generation failed: " +:+ reason).

(** What a turn that stops early leaves behind: the store as it was, and
    neither a generation call nor a stored message. *)
Definition harmless (st st' : Store) (evs : list event) : Prop :=
  st' = st /\ Forall benign evs.

(** The quest row [q] is not the quest [quest_id] of [user_id]. *)
Definition not_owned (user_id : string) (quest_id : uuid) (q : schemas.Quest) : Prop :=
  schemas.q_id q = quest_id -> schemas.q_user_id q <> user_id.

(** ** A second quest and an embedding service that answers *)

Module Scenario.

Definition embedding_vector : list pyval := [PFloat 0x3FF0000000000000%N; PFloat 0%N].

(** [Sample.services] with the embedding service up and a similarity
    search that returns the oldest row of the quest. *)
Definition services_up : Services := {|
  embed_content := fun _ => Ok [("embedding", PList embedding_vector)];
  match_quest_messages := fun st _ _ _ quest_id => Ok (take 1 (rows_of_quest st quest_id));
  http_get := http_get Sample.services;
  guess_type := guess_type Sample.services;
  generate_content := generate_content Sample.services;
  generate_json_content := generate_json_content Sample.services;
  json_loads := json_loads Sample.services;
  json_dumps := json_dumps Sample.services;
  builtin_str := builtin_str Sample.services;
  get_user_by_id := get_user_by_id Sample.services;
  utcnow := utcnow Sample.services;
  gen_random_uuid := gen_random_uuid Sample.services;
  DEFAULT_SYSTEM_PROMPT := DEFAULT_SYSTEM_PROMPT Sample.services
|}.

Definition moon_quest : schemas.Quest := schemas.mkQuest (Some "Moon...") 2%N "u2" 800 800.

Definition moon_message : Message :=
  schemas.mkMessage (PStr "Why does the moon change?") "user" 20%N 2%N "u2" 20 None.

(** Two quests of two users, one message each. *)
Definition two_quest_store : Store :=
  mkStore [Sample.quest; moon_quest]
    [ mkRow (Sample.text_message 10 "user" "Why is the sky blue?") None;
      mkRow moon_message None ].

Definition night_question : Message := Sample.text_message 3 "user" "And at night?".

(** A conversation of three messages that ends with a question. *)
Definition conversation : list Message :=
  [ Sample.text_message 1 "user" "Why is the sky blue?";
    Sample.text_message 2 "model" "Air scatters blue light the most." ].

Definition conversation_store : Store := Sample.store_of_log (conversation ++ [night_question]).

Definition fenced_body : string := "[" +:+ dquote +:+ "Why?" +:+ dquote +:+ "]".

(** A platform on which everything works; the bucket serves a path under
    [https://cdn/]. *)
Definition platform : Platform := {|
  render_png := Ok Sample.png_bytes;
  timestamp_ms := 1700000000000;
  randint := fun a _ => (a + 23)%Z;
  storage_upload := fun _ _ _ => Ok tt;
  get_public_url := fun path => Ok (PStr ("https://cdn/" +:+ path));
  exception_text := fun e => match e with ServiceError what => what | _ => "error" end;
  auth_get_user := fun token =>
    if String.eqb token "valid" then Ok (Some (mkAuthUser "u1")) else Ok None
|}.

Definition image_request : schemas.ImageGenerationRequest :=
  schemas.mkImageGenerationRequest "a red kite".

Definition conversation_only_store : Store := Sample.store_of_log conversation.

(** A quest whose only message is a user message with nothing to send. *)
Definition empty_item_message : Message :=
  schemas.mkMessage (PList [Sample.empty_text_item]) "user" 10%N 1%N "u1" 950 None.

Definition empty_item_store : Store := Sample.store_of_log [empty_item_message].

(** A row whose metadata is a string: [schemas.Message] rejects it. *)
Definition noted_message : Message :=
  schemas.mkMessage (PStr "Because of the air.") "model" 11%N 1%N "u1" 11 (Some (PStr "note")).

(** The quest of [Sample.question_store] with that row added. *)
Definition noted_store : Store :=
  Sample.store_of_log [Sample.text_message 10 "user" "Why is the sky blue?"; noted_message].

End Scenario.

(** * Properties *)

(** ** Rules for running computations *)

Section Rules.

Context {A B : Type}.

Lemma post_run (m : M A) st Q :
  post m st Q <-> exists st' evs r, m st = (st', evs, r) /\ Q st' evs r.
Proof.
  unfold post, store_of, events_of, result_of. destruct (m st) as [[st' evs] r]. simpl.
  split; [by eauto|]. by intros (? & ? & ? & [= <- <- <-] & ?).
Qed.

Lemma post_mono (m : M A) st (Q Q' : Store -> list event -> Result A -> Prop) :
  post m st Q -> (forall st' evs r, Q st' evs r -> Q' st' evs r) -> post m st Q'.
Proof. unfold post. auto. Qed.

Lemma post_ret (a : A) st Q : Q st [] (Ok a) -> post (ret a) st Q.
Proof. done. Qed.

Lemma post_lift (r : Result A) st Q : Q st [] r -> post (lift r) st Q.
Proof. done. Qed.

Lemma post_bind (m : M A) (k : A -> M B) st Q :
  post m st (fun st1 ev1 r =>
    match r with
    | Ok a => post (k a) st1 (fun st2 ev2 r2 => Q st2 (ev1 ++ ev2) r2)
    | Raise e => Q st1 ev1 (Raise e)
    end) ->
  post (bind m k) st Q.
Proof.
  unfold post, bind, store_of, events_of, result_of.
  destruct (m st) as [[st1 ev1] [a|e]]; simpl; [|done].
  by destruct (k a st1) as [[st2 ev2] r2].
Qed.

Lemma post_try_except (m : M A) (handler : exn -> M A) st Q :
  post m st (fun st1 ev1 r =>
    match r with
    | Ok a => Q st1 ev1 (Ok a)
    | Raise e => post (handler e) st1 (fun st2 ev2 r2 => Q st2 (ev1 ++ ev2) r2)
    end) ->
  post (try_except m handler) st Q.
Proof.
  unfold post, try_except, store_of, events_of, result_of.
  destruct (m st) as [[st1 ev1] [a|e]]; simpl; [done|].
  by destruct (handler e st1) as [[st2 ev2] r2].
Qed.

End Rules.

Lemma post_emit e st Q : Q st [e] (Ok tt) -> post (emit e) st Q.
Proof. done. Qed.

Lemma post_log lvl msg st Q : Q st [Log lvl msg] (Ok tt) -> post (log lvl msg) st Q.
Proof. done. Qed.

(** One step of symbolic execution. *)
Ltac run_step :=
  lazymatch goal with
  | |- post (bind _ _) _ _ => apply post_bind
  | |- post (try_except _ _) _ _ => apply post_try_except
  | |- post (ret _) _ _ => apply post_ret
  | |- post (lift _) _ _ => apply post_lift
  | |- post (log _ _) _ _ => apply post_log
  | |- post (emit _) _ _ => apply post_emit
  end;
  cbv beta iota.

(** ** What a computation touches *)

Section Respects.

Context (R : Store -> Store -> Prop) `{!Reflexive R, !Transitive R} (P : event -> Prop).

Lemma respects_ret {A} (a : A) : respects R P (ret a).
Proof. intros st. run_step. by split. Qed.

Lemma respects_lift {A} (r : Result A) : respects R P (lift r).
Proof. intros st. run_step. by split. Qed.

Lemma respects_emit e : P e -> respects R P (emit e).
Proof. intros He st. run_step. split; [done|]. by constructor. Qed.

Lemma respects_log lvl msg : P (Log lvl msg) -> respects R P (log lvl msg).
Proof. apply respects_emit. Qed.

Lemma respects_bind {A B} (m : M A) (k : A -> M B) :
  respects R P m -> (forall a, respects R P (k a)) -> respects R P (bind m k).
Proof.
  intros Hm Hk st. run_step. eapply post_mono; [apply Hm|].
  intros st1 ev1 [a|e] [HR1 HP1]; [|done].
  eapply post_mono; [apply Hk|]. intros st2 ev2 r [HR2 HP2].
  split; [by etrans|]. by apply Forall_app.
Qed.

Lemma respects_try_except {A} (m : M A) (handler : exn -> M A) :
  respects R P m -> (forall e, respects R P (handler e)) -> respects R P (try_except m handler).
Proof.
  intros Hm Hh st. run_step. eapply post_mono; [apply Hm|].
  intros st1 ev1 [a|e] [HR1 HP1]; [done|].
  eapply post_mono; [apply Hh|]. intros st2 ev2 r [HR2 HP2].
  split; [by etrans|]. by apply Forall_app.
Qed.

Lemma respects_for_each {A S} (body : S -> A -> M S) (l : list A) (s : S) :
  (forall s x, respects R P (body s x)) -> respects R P (for_each body l s).
Proof.
  intros Hbody. revert s. induction l as [|x l IH]; intros s; cbn [for_each].
  - apply respects_ret.
  - apply respects_bind; [apply Hbody | apply IH].
Qed.

End Respects.

Lemma respects_weaken {A} (R R' : Store -> Store -> Prop) (P P' : event -> Prop) (m : M A) :
  respects R P m -> (forall st st', R st st' -> R' st st') -> (forall e, P e -> P' e) ->
  respects R' P' m.
Proof.
  intros Hm HR HP st. eapply post_mono; [apply Hm|].
  intros st' evs r [H1 H2]. split; [auto|]. eapply Forall_impl; eauto.
Qed.

Create HintDb quiet.

(** Breaks a [respects] goal down along the structure of the program;
    calls of functions are left to the hints of [quiet]. *)
Ltac respects_step :=
  lazymatch goal with
  | |- respects _ _ (bind _ _) => apply respects_bind; [try apply _ ..| |intros ?]
  | |- respects _ _ (try_except _ _) => apply respects_try_except; [try apply _ ..| |intros ?]
  | |- respects _ _ (ret _) => apply respects_ret; apply _
  | |- respects _ _ (lift _) => apply respects_lift; apply _
  | |- respects _ _ (log _ _) => apply respects_log; [try apply _ ..|exact I]
  | |- respects _ _ (emit _) => apply respects_emit; [try apply _ ..|exact I]
  | |- respects _ _ (for_each _ _ _) => apply respects_for_each; [try apply _ ..|intros ? ?]
  | |- respects _ _ (match ?x with _ => _ end) => destruct x
  | |- respects _ _ _ => solve [auto with quiet]
  end.

Ltac respects_tac := repeat respects_step.

Section Quiet.

Context (W : Services).

Lemma generate_embedding_quiet text : respects eq benign (llm.generate_embedding W text).
Proof. unfold llm.generate_embedding. respects_tac. Qed.

Lemma client_get_quiet image_url : respects eq benign (llm.client_get W image_url).
Proof. unfold llm.client_get. respects_tac. Qed.

#[local] Hint Resolve generate_embedding_quiet client_get_quiet : quiet.

Lemma fetch_image_data_quiet image_url : respects eq benign (llm.fetch_image_data W image_url).
Proof. unfold llm.fetch_image_data. respects_tac. Qed.

#[local] Hint Resolve fetch_image_data_quiet : quiet.

Lemma format_item_quiet parts item : respects eq benign (llm.format_item W parts item).
Proof. unfold llm.format_item. respects_tac. Qed.

#[local] Hint Resolve format_item_quiet : quiet.

Lemma format_content_for_gemini_quiet content :
  respects eq benign (llm.format_content_for_gemini W content).
Proof. unfold llm.format_content_for_gemini. respects_tac. Qed.

Lemma get_system_prompt_quiet user_id : respects eq benign (llm.get_system_prompt W user_id).
Proof. unfold llm.get_system_prompt. respects_tac. Qed.

Lemma generate_followup_suggestions_quiet history latest_response :
  respects eq benign (llm.generate_followup_suggestions W history latest_response).
Proof. unfold llm.generate_followup_suggestions. respects_tac. Qed.

Lemma walk_step_quiet acc msg : respects eq benign (llm.walk_step acc msg).
Proof. unfold llm.walk_step. respects_tac. Qed.

#[local] Hint Resolve walk_step_quiet : quiet.

Lemma assemble_prompt_quiet sys hist latest_user_parts :
  respects eq benign (llm.assemble_prompt sys hist latest_user_parts).
Proof. unfold llm.assemble_prompt. respects_tac. Qed.

Lemma find_relevant_messages_quiet quest_id query_embedding match_threshold match_count :
  respects eq benign
    (llm.find_relevant_messages W quest_id query_embedding match_threshold match_count).
Proof. intros st. split; [done|]. by repeat constructor. Qed.

Lemma get_messages_by_quest_quiet user_id quest_id :
  respects eq benign (llm.get_messages_by_quest user_id quest_id).
Proof. intros st. split; [done|]. by repeat constructor. Qed.

#[local] Hint Resolve find_relevant_messages_quiet get_messages_by_quest_quiet
  format_content_for_gemini_quiet get_system_prompt_quiet
  generate_followup_suggestions_quiet assemble_prompt_quiet : quiet.

Lemma prepare_context_quiet quest_id messages_db text :
  respects eq benign (llm.prepare_context W quest_id messages_db text).
Proof. unfold llm.prepare_context. respects_tac. Qed.

#[local] Hint Resolve prepare_context_quiet : quiet.

End Quiet.

(** ** Context selection *)

Section ContextSelection.

Implicit Types (l relevant recent : list Message) (acc : list Message * gset uuid).

Lemma first_seen_from_ext seen1 seen2 l :
  (forall x, x ∈ seen1 <-> x ∈ seen2) ->
  first_seen_from seen1 l = first_seen_from seen2 l.
Proof.
  revert seen1 seen2. induction l as [|m l IH]; intros seen1 seen2 Hext; simpl; [done|].
  destruct (decide (schemas.id m ∈ seen1)) as [H1|H1],
           (decide (schemas.id m ∈ seen2)) as [H2|H2].
  - by apply IH.
  - by apply Hext in H1.
  - by apply Hext in H2.
  - f_equal. apply IH. intros x. rewrite !elem_of_cons. by rewrite Hext.
Qed.

Lemma foldl_add_unseen acc seen l :
  tracks acc seen ->
  (foldl llm.add_unseen acc l).1 = acc.1 ++ first_seen_from seen l
  /\ tracks (foldl llm.add_unseen acc l) (seen ++ (schemas.id <$> l)).
Proof.
  revert acc seen. induction l as [|m l IH]; intros acc seen Htr; simpl.
  - rewrite !app_nil_r. done.
  - unfold llm.add_unseen at 2 4.
    destruct (decide (schemas.id m ∈ acc.2)) as [Hin|Hnin].
    + destruct (decide (schemas.id m ∈ seen)) as [Hs|Hn]; [|by apply Htr in Hin].
      destruct (IH acc seen Htr) as [-> Htr']. split; [done|].
      intros x. rewrite (Htr' x), !elem_of_app, elem_of_cons.
      split; [tauto|]. intros [?|[->|?]]; auto.
    + destruct (decide (schemas.id m ∈ seen)) as [Hy|_]; [by apply Htr in Hy|].
      destruct (IH (acc.1 ++ [m], acc.2 ∪ {[schemas.id m]}) (schemas.id m :: seen)) as [-> Htr'].
      { intros x. simpl. rewrite elem_of_union, elem_of_singleton, elem_of_cons, (Htr x). tauto. }
      simpl. split; [by rewrite <- app_assoc|].
      intros x. rewrite (Htr' x). simpl. rewrite !elem_of_app, !elem_of_cons, elem_of_app. tauto.
Qed.

Lemma first_seen_from_app seen l1 l2 :
  first_seen_from seen (l1 ++ l2)
  = first_seen_from seen l1 ++ first_seen_from (seen ++ (schemas.id <$> l1)) l2.
Proof.
  revert seen. induction l1 as [|m l1 IH]; intros seen.
  - simpl. by rewrite app_nil_r.
  - rewrite <- app_comm_cons, fmap_cons. cbn [first_seen_from].
    destruct (decide (schemas.id m ∈ seen)) as [Hin|Hnin]; rewrite IH.
    + f_equal. apply first_seen_from_ext. intros x.
      rewrite !elem_of_app, elem_of_cons. split; [tauto|]. intros [?|[->|?]]; auto.
    + cbn [app]. do 2 f_equal. apply first_seen_from_ext. intros x.
      repeat (rewrite elem_of_app || rewrite elem_of_cons). tauto.
Qed.

Lemma first_seen_from_filter seen l :
  first_seen_from seen l = filter (fun m => schemas.id m ∉ seen) (first_seen l).
Proof.
  unfold first_seen. revert seen. induction l as [|m l IH]; intros seen; simpl; [done|].
  destruct (decide (schemas.id m ∈ [])) as [Hnil|_]; [by apply elem_of_nil in Hnil|].
  rewrite filter_cons.
  destruct (decide (schemas.id m ∈ seen)) as [Hin|Hnin].
  - rewrite decide_False by tauto.
    rewrite (IH seen), (IH [schemas.id m]), list_filter_filter.
    apply list_filter_iff. intros x. rewrite list_elem_of_singleton.
    split; [|by intros [? _]]. intros Hx. split; [done|].
    intros Heq. apply Hx. by rewrite Heq.
  - rewrite decide_True by done. f_equal.
    rewrite (IH (schemas.id m :: seen)), (IH [schemas.id m]), list_filter_filter.
    apply list_filter_iff. intros x. rewrite list_elem_of_singleton, elem_of_cons.
    split; [intros Hx; split; intros Hy; apply Hx; auto | intros [H1 H2] [?|?]; auto].
Qed.

Lemma first_seen_from_ids seen l :
  NoDup (schemas.id <$> first_seen_from seen l)
  /\ forall x, x ∈ (schemas.id <$> first_seen_from seen l) ->
               (x ∉ seen) /\ x ∈ (schemas.id <$> l).
Proof.
  revert seen. induction l as [|m l IH]; intros seen; simpl.
  - split; [constructor|]. intros x Hx. by apply elem_of_nil in Hx.
  - destruct (decide (schemas.id m ∈ seen)) as [Hin|Hnin].
    + destruct (IH seen) as [Hnd Hsub]. split; [done|].
      intros x Hx. destruct (Hsub x Hx). rewrite elem_of_cons. auto.
    + destruct (IH (schemas.id m :: seen)) as [Hnd Hsub]. simpl. split.
      * apply NoDup_cons. split; [|done].
        intros Hx. apply Hsub in Hx as [Hx _]. apply Hx. by left.
      * intros x. rewrite !elem_of_cons. intros [->|Hx]; [auto|].
        apply Hsub in Hx as [Hx ?]. rewrite elem_of_cons in Hx. tauto.
Qed.

Lemma first_seen_NoDup l :
  NoDup (schemas.id <$> l) -> first_seen l = l.
Proof.
  unfold first_seen. intros Hnd.
  assert (forall seen, (forall x, x ∈ seen -> x ∉ (schemas.id <$> l)) ->
                       first_seen_from seen l = l) as Hgen.
  { induction l as [|m l IH]; intros seen Hdisj; simpl; [done|].
    simpl in Hnd. apply NoDup_cons in Hnd as [Hm Hnd].
    rewrite decide_False.
    - f_equal. apply IH; [done|]. intros x. rewrite elem_of_cons.
      intros [->|Hx]; [done|]. apply Hdisj in Hx. simpl in Hx.
      rewrite elem_of_cons in Hx. tauto.
    - intros Hin. apply Hdisj in Hin. apply Hin. simpl. by left. }
  apply Hgen. intros x Hx. by apply elem_of_nil in Hx.
Qed.

Lemma merge_context_first_seen relevant recent :
  llm.merge_context relevant recent
  = first_seen relevant ++ first_seen_from (schemas.id <$> relevant) recent.
Proof.
  unfold llm.merge_context, first_seen.
  destruct (foldl_add_unseen ([], ∅) [] relevant) as [Hrel Htr].
  { intros x. simpl. rewrite elem_of_nil. set_solver. }
  destruct (foldl_add_unseen _ _ recent Htr) as [-> _].
  by rewrite Hrel.
Qed.

Lemma last_n_length {A} n (l : list A) : length (last_n n l) <= n.
Proof. unfold last_n. rewrite length_drop. lia. Qed.

Lemma last_n_all {A} n (l : list A) : length l <= n -> last_n n l = l.
Proof. unfold last_n. intros H. by replace (length l - n) with 0 by lia. Qed.

Lemma last_n_NoDup_ids n l :
  NoDup (schemas.id <$> l) -> NoDup (schemas.id <$> last_n n l).
Proof.
  unfold last_n. rewrite fmap_drop. intros Hnd.
  eapply sublist_NoDup; [exact Hnd | apply sublist_drop].
Qed.

Lemma first_seen_from_covers seen l x :
  x ∈ (schemas.id <$> l) -> x ∉ seen -> x ∈ (schemas.id <$> first_seen_from seen l).
Proof.
  revert seen. induction l as [|m l IH]; intros seen Hin Hseen.
  - by apply elem_of_nil in Hin.
  - rewrite fmap_cons, elem_of_cons in Hin. cbn [first_seen_from].
    destruct (decide (schemas.id m ∈ seen)) as [Hm|Hm].
    + destruct Hin as [->|Hin]; [done|]. by apply IH.
    + rewrite fmap_cons, elem_of_cons.
      destruct (decide (x = schemas.id m)) as [->|Hne]; [by left|right].
      apply IH; [by destruct Hin|]. rewrite elem_of_cons. tauto.
Qed.

Lemma merge_context_concat relevant recent :
  llm.merge_context relevant recent = first_seen (relevant ++ recent).
Proof.
  rewrite merge_context_first_seen. unfold first_seen.
  by rewrite first_seen_from_app.
Qed.

Lemma merge_context_NoDup relevant recent :
  NoDup (schemas.id <$> llm.merge_context relevant recent).
Proof. rewrite merge_context_concat. apply first_seen_from_ids. Qed.

(** C5. The merge loops compute the first occurrences, by message id, of
    the similarity results followed by the recency results: the
    similarity results (once each) come first and in their order, the
    recency results whose id was not among them follow in their order, and
    no id occurs twice.  A message that is in both sets is therefore in
    the merged list once, at the position it has among the similarity
    results. *)
Theorem merge_context_dedup relevant recent :
  llm.merge_context relevant recent = first_seen (relevant ++ recent)
  /\ llm.merge_context relevant recent
     = first_seen relevant
       ++ filter (fun m => schemas.id m ∉ (schemas.id <$> relevant)) (first_seen recent)
  /\ NoDup (schemas.id <$> llm.merge_context relevant recent)
  /\ forall m r,
       m ∈ relevant -> r ∈ recent -> schemas.id m = schemas.id r ->
       exists i m',
         first_seen relevant !! i = Some m' /\ schemas.id m' = schemas.id m
         /\ llm.merge_context relevant recent !! i = Some m'
         /\ forall j x, llm.merge_context relevant recent !! j = Some x ->
                        schemas.id x = schemas.id m -> j = i.
Proof.
  pose proof (merge_context_NoDup relevant recent) as Hnd.
  split; [apply merge_context_concat|]. split; [|split; [done|]].
  - by rewrite merge_context_first_seen, first_seen_from_filter.
  - intros m r Hm _ _.
    assert (schemas.id m ∈ (schemas.id <$> first_seen relevant)) as Hin.
    { apply first_seen_from_covers; [by apply list_elem_of_fmap_2 | apply not_elem_of_nil]. }
    apply list_elem_of_fmap in Hin as (m' & Hid & Hin).
    apply list_elem_of_lookup in Hin as [i Hi].
    exists i, m'. split; [done|]. split; [done|].
    assert (llm.merge_context relevant recent !! i = Some m') as Hmerged.
    { rewrite merge_context_first_seen. by apply lookup_app_l_Some. }
    split; [done|]. intros j x Hj Hx.
    apply (NoDup_lookup (schemas.id <$> llm.merge_context relevant recent) j i (schemas.id m));
      [done| |]; rewrite list_lookup_fmap.
    + by rewrite Hj, <- Hx.
    + by rewrite Hmerged, Hid.
Qed.

(** C2. The selected context has at most 7 messages and no two of them
    have the same id, whatever the log and the similarity results are. *)
Theorem select_context_bounded_dedup relevant messages_db :
  length (llm.select_context relevant messages_db) <= 7
  /\ NoDup (schemas.id <$> llm.select_context relevant messages_db).
Proof.
  unfold llm.select_context, llm.MAX_CONTEXT_MSGS.
  pose proof (merge_context_NoDup relevant (last_n 3 messages_db)) as Hnd.
  destruct (Nat.ltb_spec 7 (length (llm.merge_context relevant (last_n 3 messages_db)))).
  - split; [apply last_n_length | by apply last_n_NoDup_ids].
  - split; [lia | done].
Qed.

End ContextSelection.

(** ** Prompt assembly *)

Section PromptAssembly.

Implicit Types (p hist : list Turn) (t : Turn).

Lemma last_role_of_app prev p1 p2 :
  last_role_of prev (p1 ++ p2) = last_role_of (last_role_of prev p1) p2.
Proof. apply foldl_app. Qed.

Lemma last_role_of_last prev p t :
  last p = Some t -> last_role_of prev p = role t.
Proof.
  intros [p' ->]%last_Some. by rewrite last_role_of_app.
Qed.

Lemma chain_app prev p1 p2 :
  chain prev (p1 ++ p2) <-> chain prev p1 /\ chain (last_role_of prev p1) p2.
Proof.
  revert prev. induction p1 as [|t p1 IH]; intros prev; simpl.
  - tauto.
  - rewrite IH. unfold last_role_of. simpl. tauto.
Qed.

Lemma chain_no_repeated_role t p :
  chain (role t) p -> no_repeated_role (t :: p).
Proof.
  revert t. induction p as [|u p IH]; intros t Hc i a b Ha Hb.
  - destruct i; simpl in *; [done|]. by destruct i.
  - destruct Hc as [Hne Hc]. destruct i as [|i]; simpl in *.
    + injection Ha as <-. injection Hb as <-. congruence.
    + by apply (IH u Hc i a b).
Qed.

Lemma accepted_turns_chain last_role hist :
  chain last_role (accepted_turns last_role hist).
Proof.
  revert last_role. induction hist as [|msg hist IH]; intros last_role; simpl; [done|].
  destruct (String.eqb_spec (role msg) last_role); simpl; auto.
Qed.

Lemma accepted_turns_sublist last_role hist :
  accepted_turns last_role hist `sublist_of` hist.
Proof.
  revert last_role. induction hist as [|msg hist IH]; intros last_role; simpl.
  - constructor.
  - destruct (String.eqb (role msg) last_role).
    + apply sublist_cons, IH.
    + apply sublist_skip, IH.
Qed.

Lemma two_party_sublist p1 p2 :
  p1 `sublist_of` p2 -> two_party p2 -> two_party p1.
Proof.
  unfold two_party. rewrite !Forall_forall. intros Hsub Hp x Hx.
  apply Hp. by eapply elem_of_sublist.
Qed.

Lemma history_to_append_sublist hist :
  llm.history_to_append hist `sublist_of` hist.
Proof.
  destruct hist as [|first rest]; simpl; [constructor|].
  destruct (String.eqb (role first) "user"); [by apply sublist_cons|done].
Qed.

Lemma alternation_parity a b prev p :
  Forall (fun t => role t = a \/ role t = b) p ->
  a <> b -> prev = b -> chain prev p ->
  forall i t, p !! i = Some t -> role t = if Nat.even i then a else b.
Proof.
  revert a b prev. induction p as [|u p IH]; intros a b prev Hp Hab -> Hc i t Hi.
  - done.
  - apply Forall_cons in Hp as [Hu Hp]. destruct Hc as [Hne Hc].
    assert (role u = a) as Hua by (destruct Hu; congruence).
    destruct i as [|i]; simpl in Hi.
    + injection Hi as <-. done.
    + rewrite Nat.even_succ, <- Nat.negb_even.
      assert (role t = if Nat.even i then b else a) as ->.
      { apply (IH b a (role u)); auto.
        eapply Forall_impl; [exact Hp|]. simpl. tauto. }
      by destruct (Nat.even i).
Qed.

(** The walk appends [accepted_turns] to the prompt, logs only, and
    leaves the store alone. *)
Lemma for_each_walk_step hist final_prompt last_role st :
  post (for_each llm.walk_step hist (final_prompt, last_role)) st
    (fun st' evs r =>
       st' = st /\ Forall is_log evs
       /\ exists last_role', r = Ok (final_prompt ++ accepted_turns last_role hist, last_role')).
Proof.
  revert final_prompt last_role.
  induction hist as [|msg hist IH]; intros final_prompt last_role; cbn [for_each accepted_turns].
  - run_step. rewrite app_nil_r. eauto.
  - run_step. unfold llm.walk_step at 1. cbn [fst snd].
    destruct (String.eqb (role msg) last_role).
    + do 3 run_step.
      eapply post_mono; [apply IH|]. intros st' evs r (-> & Hlog & lr & ->).
      split; [done|]. split; [by constructor|]. eauto.
    + run_step.
      eapply post_mono; [apply IH|]. intros st' evs r (-> & Hlog & lr & ->).
      rewrite <- app_assoc. eauto.
Qed.

(** The prompt [assemble_prompt] returns, in closed form. *)
Lemma assemble_prompt_run sys hist latest_user_parts st :
  let body := llm.preamble sys ++ accepted_turns "model" (llm.history_to_append hist) in
  let filler := if String.eqb (last_role_of "model" body) "user" then [llm.FILLER] else [] in
  exists evs,
    llm.assemble_prompt sys hist latest_user_parts st
    = (st, evs, Ok (body ++ filler ++ [mkTurn "user" latest_user_parts]))
    /\ Forall is_log evs.
Proof.
  intros body filler.
  cut (post (llm.assemble_prompt sys hist latest_user_parts) st (fun st' evs r =>
         st' = st /\ Forall is_log evs
         /\ r = Ok (body ++ filler ++ [mkTurn "user" latest_user_parts]))).
  { intros (st' & evs & r & Hrun & -> & Hlog & ->)%post_run. eauto. }
  unfold llm.assemble_prompt. run_step.
  eapply post_mono; [apply for_each_walk_step|].
  intros st' evs r (-> & Hlog & lr & ->). cbn [fst]. fold body.
  destruct (last body) as [t|] eqn:Hlast.
  - run_step. unfold index_last. rewrite Hlast. do 2 run_step.
    rewrite !app_nil_r. split; [done|]. split; [done|].
    subst filler. rewrite (last_role_of_last _ _ _ Hlast).
    destruct (String.eqb (role t) "user"); by rewrite <- ?app_assoc.
  - by apply last_None in Hlast.
Qed.

(** C1. Prompt assembly raises nothing, leaves the store alone and
    returns a prompt in which no two adjacent turns have the same role and
    whose last turn is the user's and holds the latest user blocks, for
    every system prompt, history and block list.  When the turns of the
    history are the user's or the model's, as the data model has it, the
    turns of the prompt are the user's at even positions and the model's
    at odd ones. *)
Theorem assemble_prompt_alternates sys hist latest_user_parts st :
  exists evs final_prompt,
    llm.assemble_prompt sys hist latest_user_parts st = (st, evs, Ok final_prompt)
    /\ no_repeated_role final_prompt
    /\ last final_prompt = Some (mkTurn "user" latest_user_parts)
    /\ (two_party hist -> alternates_from_user final_prompt).
Proof.
  destruct (assemble_prompt_run sys hist latest_user_parts st) as (evs & Hrun & _).
  simpl in Hrun. eexists evs, _. split; [exact Hrun|].
  set (acc := accepted_turns "model" (llm.history_to_append hist)) in *.
  set (body := mkTurn "user" [TextPart (PStr sys)]
               :: mkTurn "model" [TextPart (PStr llm.ACKNOWLEDGEMENT)] :: acc) in *.
  set (filler := if String.eqb (last_role_of "model" body) "user" then [llm.FILLER] else []).
  assert (chain "model" (body ++ filler ++ [mkTurn "user" latest_user_parts])) as Hchain.
  { apply chain_app. split.
    - simpl. repeat split; try done. apply accepted_turns_chain.
    - subst filler. destruct (String.eqb_spec (last_role_of "model" body) "user") as [E|E].
      + rewrite E. simpl. repeat split; done.
      + cbn [app chain role]. split; [|done]. intros Heq. by apply E. }
  split; [|split].
  - apply chain_no_repeated_role. exact (proj2 Hchain).
  - rewrite 2!app_comm_cons, app_assoc. apply last_snoc.
  - intros Hparty i t Hi.
    apply (alternation_parity "user" "model" "model"
             (body ++ filler ++ [mkTurn "user" latest_user_parts])); try done.
    unfold two_party in Hparty. rewrite !Forall_app. repeat split.
    + repeat (apply Forall_cons; split; [simpl; auto|]).
      apply (two_party_sublist acc hist); [|done].
      etrans; [apply accepted_turns_sublist | apply history_to_append_sublist].
    + subst filler. destruct (String.eqb _ "user"); [|constructor].
      apply Forall_singleton. by right.
    + apply Forall_singleton. by left.
Qed.

(** C9. When the first turn of the formatted history is the user's, it
    is dropped before the walk: the prompt is the preamble, then the
    turns the walk keeps out of the rest of the history (a sub-list of
    it, in order), then the filler if any, then the latest user turn.
    The turn after the preamble is thus a turn of the rest of the
    history or the latest user turn. *)
Theorem leading_user_turn_discarded sys first rest latest_user_parts st :
  role first = "user" ->
  llm.history_to_append (first :: rest) = rest
  /\ exists evs filler,
       llm.assemble_prompt sys (first :: rest) latest_user_parts st
       = (st, evs, Ok (llm.preamble sys ++ accepted_turns "model" rest ++ filler
                       ++ [mkTurn "user" latest_user_parts]))
       /\ accepted_turns "model" rest `sublist_of` rest
       /\ (filler = [] \/ filler = [llm.FILLER])
       /\ forall t, (accepted_turns "model" rest ++ filler
                     ++ [mkTurn "user" latest_user_parts]) !! 0 = Some t ->
                    t ∈ rest \/ t = mkTurn "user" latest_user_parts.
Proof.
  intros Hfirst.
  assert (llm.history_to_append (first :: rest) = rest) as Hdrop.
  { simpl. by rewrite Hfirst. }
  split; [done|].
  destruct (assemble_prompt_run sys (first :: rest) latest_user_parts st) as (evs & Hrun & _).
  rewrite Hdrop in Hrun. cbv zeta in Hrun.
  set (body := llm.preamble sys ++ accepted_turns "model" rest) in *.
  exists evs, (if String.eqb (last_role_of "model" body) "user" then [llm.FILLER] else []).
  split; [by rewrite Hrun|].
  split; [apply accepted_turns_sublist|].
  split; [destruct (String.eqb _ "user"); auto|].
  intros t. destruct (accepted_turns "model" rest) as [|a acc] eqn:Hacc.
  - subst body. simpl. intros [= <-]. by right.
  - simpl. intros [= <-]. left.
    eapply elem_of_sublist; [|apply (accepted_turns_sublist "model" rest)].
    rewrite Hacc. by left.
Qed.

End PromptAssembly.

(** Runs a call whose outcome is known by the equation [H]. *)
Ltac run_call H :=
  apply post_bind; unfold post at 1; rewrite H;
  cbn [store_of events_of result_of fst snd]; cbv beta iota.

Ltac run_all :=
  repeat first
    [ run_step
    | match goal with
      | |- post (match ?x with _ => _ end) _ _ => destruct x
      | |- match ?x with _ => _ end => destruct x
      end ].

Lemma generate_embedding_total W text st :
  exists evs embedding, llm.generate_embedding W text st = (st, evs, Ok embedding).
Proof.
  cut (post (llm.generate_embedding W text) st (fun st' evs r =>
         st' = st /\ exists embedding, r = Ok embedding)).
  { intros (st' & evs & r & Hrun & -> & embedding & ->)%post_run. eauto. }
  unfold llm.generate_embedding. run_all; eauto.
Qed.

(** ** Content normalisation *)

Section Normalisation.

Context (W : Services).

Lemma resolve_mime_type_mime_of url response :
  llm.resolve_mime_type W url response = mime_of W url response.
Proof.
  unfold llm.resolve_mime_type, mime_of. by destruct (guess_type W url) as [[|c m]|].
Qed.

(** [fetch_image_data] never raises; it returns [None] exactly when the
    fetch fails. *)
Lemma fetch_image_data_outcome image_url st :
  exists evs image_data,
    llm.fetch_image_data W image_url st = (st, evs, Ok image_data)
    /\ ((fetch_fails W image_url /\ image_data = None)
        \/ exists mime data, fetch_succeeds W image_url mime data
                             /\ image_data = Some (mime, data)).
Proof.
  cut (post (llm.fetch_image_data W image_url) st (fun st' evs r =>
         st' = st /\ exists image_data, r = Ok image_data
         /\ ((fetch_fails W image_url /\ image_data = None)
             \/ exists mime data, fetch_succeeds W image_url mime data
                                  /\ image_data = Some (mime, data)))).
  { intros (st' & evs & r & Hrun & -> & image_data & -> & H)%post_run. eauto. }
  unfold llm.fetch_image_data. run_step. run_step.
  destruct image_url as [| | | |url| |]; cbn [llm.client_get];
    try (run_step; do 3 run_step; split; [done|]; exists None; split; [done|]; by left).
  do 3 run_step. unfold fetch_fails, fetch_succeeds.
  destruct (http_get W url) as [response|e] eqn:Hget;
    [|do 3 run_step; split; [done|]; exists None; split; [done|]; by left].
  run_step. unfold llm.raise_for_status, success_status.
  destruct (Z.leb_spec 200 (status_code response));
    [destruct (Z.ltb_spec (status_code response) 300)|]; cbn [andb];
    try (run_step; do 3 run_step; split; [done|]; exists None; split; [done|];
         left; split; [left; lia|done]).
  run_step. rewrite resolve_mime_type_mime_of.
  destruct (mime_of W url response) as [m|] eqn:Hmime;
    [|do 3 run_step; split; [done|]; exists None; split; [done|]; left; auto].
  unfold llm.invalid_mime_type.
  destruct (String.eqb_spec m "") as [->|Hm]; cbn [orb].
  - do 3 run_step. split; [done|]. exists None. split; [done|]. left. auto.
  - destruct (String.prefix "image/" m) eqn:Hprefix; cbn [negb].
    + run_step. split; [done|]. eexists. split; [done|]. right.
      exists m, (response_content response). split; [|done].
      exists url, response. repeat split; auto; lia.
    + do 3 run_step. split; [done|]. exists None. split; [done|]. left. auto.
Qed.

(** An image reference is not a text item: its tag is ['image_url']. *)
Lemma image_reference_not_text d image_url :
  llm.image_reference d = Some image_url ->
  eq_str (dict_get "type" d) "text" = false.
Proof.
  unfold llm.image_reference, eq_str.
  destruct (dict_get "type" d) as [| | | |tag| |]; try done.
  destruct (String.eqb_spec tag "image_url") as [->|]; done.
Qed.

(** C7. For an item that passes the image-reference test, the loop body
    raises nothing, leaves the store alone and appends exactly one block:
    the text [[Image could not be loaded]] when the fetch fails (the
    request raises, the status is not 2xx, or the MIME type, taken from
    the URL extension and otherwise from the content-type header, is
    missing or does not start with [image/]), the inline image with the
    resolved MIME type and the fetched bytes when it succeeds. *)
Theorem image_reference_item_normalized d image_url parts st :
  llm.image_reference d = Some image_url ->
  exists evs block,
    llm.format_item W parts (PDict d) st = (st, evs, Ok (parts ++ [block]))
    /\ ((fetch_fails W image_url /\ block = TextPart (PStr "[Image could not be loaded]"))
        \/ exists mime data, fetch_succeeds W image_url mime data
                             /\ block = InlineData mime data).
Proof.
  intros Hitem.
  destruct (fetch_image_data_outcome image_url st) as (evs & image_data & Hrun & Hcases).
  cut (post (llm.format_item W parts (PDict d)) st (fun st' evs r =>
         st' = st /\ r = Ok (parts ++ [match image_data with
                                       | Some (mime, data) => InlineData mime data
                                       | None => TextPart (PStr llm.IMAGE_PLACEHOLDER)
                                       end]))).
  { intros (st' & evs' & r & Hrun' & -> & ->)%post_run. eexists _, _. split; [exact Hrun'|].
    destruct Hcases as [[Hfail ->]|(mime & data & Hok & ->)]; [by left|right; eauto]. }
  unfold llm.format_item.
  rewrite (image_reference_not_text _ _ Hitem), Hitem. cbn [andb].
  do 3 run_step. unfold post. rewrite Hrun. cbn [store_of events_of result_of fst snd].
  by destruct image_data as [[mime data]|].
Qed.

(** C8 (as the code has it by design). An item that is neither a text
    item with a truthy text nor an image reference is turned into a text
    block, through [str], when it is not a dict; a dict tagged ['text']
    adds no block then, its text being empty: the guard
    [and item.get('text')] of line 76.  Either way nothing is raised,
    logged or fetched.  Nothing is said of the other dicts. *)
Theorem unrecognised_item_normalized item parts st :
  is_text_item item = false ->
  is_image_reference_item item = false ->
  match item with
  | PDict d =>
      eq_str (dict_get "type" d) "text" = true ->
      llm.format_item W parts item st = (st, [], Ok parts)
  | other =>
      llm.format_item W parts item st
      = (st, [], Ok (parts ++ [TextPart (PStr (builtin_str W other))]))
  end.
Proof.
  intros Htext Himage. destruct item as [| | | | | |d]; try done.
  intros _. simpl in Htext, Himage. unfold llm.format_item. rewrite Htext.
  by destruct (llm.image_reference d).
Qed.

End Normalisation.

(** ** Context preparation *)

Section Preparation.

Context (W : Services).

Lemma select_context_recency messages_db :
  NoDup (schemas.id <$> messages_db) ->
  llm.select_context [] messages_db = last_n 3 messages_db.
Proof.
  intros Hnd. unfold llm.select_context.
  rewrite merge_context_first_seen. cbn [first_seen first_seen_from app fmap list_fmap].
  change (first_seen_from [] (last_n 3 messages_db)) with (first_seen (last_n 3 messages_db)).
  rewrite first_seen_NoDup by by apply last_n_NoDup_ids.
  pose proof (last_n_length 3 messages_db) as Hlen.
  destruct (Nat.ltb_spec llm.MAX_CONTEXT_MSGS (length (last_n 3 messages_db))) as [Hlt|]; [|done].
  unfold llm.MAX_CONTEXT_MSGS in Hlt. lia.
Qed.

(** Without text to embed, or with a failing embedding service,
    [generate_embedding] returns [None], whatever it logs. *)
Lemma generate_embedding_absent text st :
  text = "" \/ isspace text = true \/ (exists e, embed_content W text = Raise e) ->
  exists evs,
    llm.generate_embedding W text st = (st, evs, Ok None)
    /\ Forall (fun e => ~ is_similarity_search e) evs.
Proof.
  intros Hcase.
  cut (post (llm.generate_embedding W text) st (fun st' evs r =>
         st' = st /\ r = Ok None /\ Forall (fun e => ~ is_similarity_search e) evs)).
  { intros (st' & evs & r & Hrun & -> & -> & Hev)%post_run. eauto. }
  unfold llm.generate_embedding. run_step.
  destruct (String.eqb text "" || isspace text) eqn:Hskip.
  - run_step. by repeat split.
  - destruct Hcase as [->|[Hsp|[e He]]].
    + done.
    + rewrite Hsp, orb_true_r in Hskip. done.
    + do 4 run_step. rewrite He. cbv beta iota. do 3 run_step.
      split; [done|]. split; [done|]. repeat constructor; simpl; tauto.
Qed.

(** Context preparation never raises and never touches the store; what
    it returns is [select_context] of the similarity results (none when
    the search is skipped) and the log. *)
Lemma prepare_context_selects quest_id messages_db text st :
  exists evs relevant,
    llm.prepare_context W quest_id messages_db text st
    = (st, evs, Ok (llm.select_context relevant messages_db)).
Proof.
  cut (post (llm.prepare_context W quest_id messages_db text) st (fun st' evs r =>
         st' = st /\ exists relevant, r = Ok (llm.select_context relevant messages_db))).
  { intros (st' & evs & r & Hrun & -> & relevant & ->)%post_run. eauto. }
  destruct (generate_embedding_total W text st) as (evs & embedding & Hemb).
  unfold llm.prepare_context. run_call Hemb.
  destruct embedding as [[|x embedding]|]; run_step; try (do 3 run_step; run_step; by eauto).
  unfold post at 1, llm.find_relevant_messages.
  cbn [store_of events_of result_of fst snd]. run_step. eauto.
Qed.

(** C6. For a log of 10 messages with distinct ids, when the latest
    user text is empty or blank or the embedding service raises, context
    preparation makes no similarity search, raises nothing, and selects
    the last 3 messages of the log in their order. *)
Theorem no_embedding_recency_only quest_id messages_db text st :
  length messages_db = 10 ->
  NoDup (schemas.id <$> messages_db) ->
  text = "" \/ isspace text = true \/ (exists e, embed_content W text = Raise e) ->
  exists evs,
    llm.prepare_context W quest_id messages_db text st = (st, evs, Ok (drop 7 messages_db))
    /\ Forall (fun e => ~ is_similarity_search e) evs.
Proof.
  intros Hlen Hnd Hcase.
  destruct (generate_embedding_absent text st Hcase) as (evs & Hrun & Hev).
  cut (post (llm.prepare_context W quest_id messages_db text) st (fun st' evs' r =>
         st' = st /\ r = Ok (drop 7 messages_db)
         /\ Forall (fun e => ~ is_similarity_search e) evs')).
  { intros (st' & evs' & r & Hrun' & -> & -> & Hev')%post_run. eauto. }
  unfold llm.prepare_context. run_step. unfold post at 1. rewrite Hrun.
  cbn [store_of events_of result_of fst snd].
  do 5 run_step. split; [done|]. split.
  - rewrite select_context_recency by done. unfold last_n. by rewrite Hlen.
  - rewrite app_nil_r. apply Forall_app. split; [done|]. repeat constructor; simpl; tauto.
Qed.

End Preparation.

(** ** The turn *)

#[local] Hint Resolve generate_embedding_quiet client_get_quiet fetch_image_data_quiet
  format_item_quiet format_content_for_gemini_quiet get_system_prompt_quiet
  generate_followup_suggestions_quiet walk_step_quiet assemble_prompt_quiet
  find_relevant_messages_quiet get_messages_by_quest_quiet prepare_context_quiet : quiet.

#[local] Instance any_store_reflexive : Reflexive any_store.
Proof. done. Qed.

#[local] Instance any_store_transitive : Transitive any_store.
Proof. done. Qed.

Lemma benign_no_failure e : benign e -> no_failure e.
Proof. destruct e as [| | | | |? []| | |]; simpl; tauto. Qed.

Lemma benign_not_add_message e : benign e -> ~ is_add_message e.
Proof. destruct e; simpl; tauto. Qed.

Lemma no_failure_not_failed evs : Forall no_failure evs -> ~ Exists generation_failed evs.
Proof.
  intros Hall Hex. apply Exists_exists in Hex as (e & Hin & Hfail).
  rewrite Forall_forall in Hall. specialize (Hall e Hin).
  destruct e as [| | | | |? []| | |]; simpl in *; tauto.
Qed.

Lemma quiet_any {A} (m : M A) : respects eq benign m -> respects any_store no_failure m.
Proof.
  intros Hm. apply (respects_weaken eq any_store benign no_failure m Hm); [done|].
  apply benign_no_failure.
Qed.

#[local] Hint Resolve quiet_any : quiet.

Section Turn.

Context (W : Services).

Lemma add_message_any user_id quest_id role content embedding metadata :
  respects any_store no_failure
    (llm.add_message W user_id quest_id role content embedding metadata).
Proof.
  intros st. unfold post, llm.add_message.
  destruct (database.add_message W st user_id quest_id role content embedding metadata).
  split; [done|]. by repeat constructor.
Qed.

#[local] Hint Resolve add_message_any : quiet.

(** A computation that only looks things up cannot be the one that
    persisted after a failed generation. *)
Lemma quiet_nothing_persisted {A} (m : M A) st :
  respects eq benign m ->
  post m st (fun st' evs _ => nothing_persisted_on_failure st st' evs).
Proof.
  intros Hm. eapply post_mono; [apply Hm|]. intros st' evs r [<- Hev] _.
  split; [done|]. eapply Forall_impl; [exact Hev|]. apply benign_not_add_message.
Qed.

Lemma quiet_then_nothing_persisted {A B} (m : M A) (k : A -> M B) st :
  respects eq benign m ->
  (forall a, post (k a) st (fun st' evs _ => nothing_persisted_on_failure st st' evs)) ->
  post (bind m k) st (fun st' evs _ => nothing_persisted_on_failure st st' evs).
Proof.
  intros Hm Hk. run_step. eapply post_mono; [apply Hm|].
  intros st1 ev1 [a|e] [<- Hev1].
  - eapply post_mono; [apply Hk|]. intros st2 ev2 r Hsafe Hex.
    apply Exists_app in Hex as [Hex|Hex].
    + exfalso. eapply no_failure_not_failed; [|exact Hex].
      eapply Forall_impl; [exact Hev1|]. apply benign_no_failure.
    + destruct (Hsafe Hex) as [-> Hev2]. split; [done|].
      apply Forall_app. split; [|done].
      eapply Forall_impl; [exact Hev1|]. apply benign_not_add_message.
  - intros Hex. exfalso. eapply no_failure_not_failed; [|exact Hex].
    eapply Forall_impl; [exact Hev1|]. apply benign_no_failure.
Qed.

Lemma respond_nothing_persisted user_id quest_id formatted_history text final_prompt st :
  post (llm.respond W user_id quest_id formatted_history text final_prompt) st
    (fun st' evs _ => nothing_persisted_on_failure st st' evs).
Proof.
  unfold llm.respond. cbv zeta.
  destruct (generate_content W final_prompt) as [ai_response_text|e] eqn:Hgen.
  - assert (respects any_store no_failure
              (llm.respond W user_id quest_id formatted_history text final_prompt)) as Hall.
    { unfold llm.respond. cbv zeta. rewrite Hgen. respects_tac. }
    unfold llm.respond in Hall. cbv zeta in Hall. rewrite Hgen in Hall.
    eapply post_mono; [apply Hall|]. intros st' evs r [_ Hev] Hex.
    by apply no_failure_not_failed in Hev.
  - do 6 run_step. intros _. split; [done|]. repeat constructor; simpl; tauto.
Qed.

Lemma try_except_nothing_persisted {A} (m : M A) (handler : exn -> M A) st :
  post m st (fun st' evs _ => nothing_persisted_on_failure st st' evs) ->
  (forall e, respects eq benign (handler e)) ->
  post (try_except m handler) st (fun st' evs _ => nothing_persisted_on_failure st st' evs).
Proof.
  intros Hm Hh. run_step. eapply post_mono; [apply Hm|].
  intros st1 ev1 [a|e] Hsafe; [done|].
  eapply post_mono; [apply Hh|]. intros st2 ev2 r [<- Hev2] Hex.
  apply Exists_app in Hex as [Hex|Hex].
  - destruct (Hsafe Hex) as [-> Hev1]. split; [done|].
    apply Forall_app. split; [done|].
    eapply Forall_impl; [exact Hev2|]. apply benign_not_add_message.
  - exfalso. eapply no_failure_not_failed; [|exact Hex].
    eapply Forall_impl; [exact Hev2|]. apply benign_no_failure.
Qed.

Tactic Notation "quiet_prefix" "as" simple_intropattern(x) :=
  apply quiet_then_nothing_persisted; [solve [respects_tac] | intros x].

Lemma generate_ai_response_nothing_persisted user_id quest_id st :
  post (llm.generate_ai_response W user_id quest_id) st
    (fun st' evs _ => nothing_persisted_on_failure st st' evs).
Proof.
  unfold llm.generate_ai_response.
  quiet_prefix as _.
  apply try_except_nothing_persisted; [|intros e; respects_tac].
  quiet_prefix as messages_db.
  destruct messages_db as [|msg messages_db]; [apply quiet_nothing_persisted; respects_tac|].
  destruct (llm.latest_user (msg :: messages_db)) as [latest_user_message|];
    [|apply quiet_nothing_persisted; respects_tac].
  quiet_prefix as latest_user_content_text.
  quiet_prefix as context_messages_for_history.
  quiet_prefix as _.
  quiet_prefix as formatted_history.
  quiet_prefix as latest_user_parts.
  destruct latest_user_parts as [|part latest_user_parts];
    [apply quiet_nothing_persisted; respects_tac|].
  quiet_prefix as effective_system_prompt.
  quiet_prefix as final_prompt.
  apply respond_nothing_persisted.
Qed.

(** C3. If the generation call of a turn raised, the turn left the store
    as it found it and never called [database.add_message]; the
    conversation's message log reads as before the turn. *)
Theorem generation_failure_persists_nothing user_id quest_id st :
  Exists generation_failed (events_of (llm.generate_ai_response W user_id quest_id st)) ->
  store_of (llm.generate_ai_response W user_id quest_id st) = st
  /\ Forall (fun e => ~ is_add_message e)
       (events_of (llm.generate_ai_response W user_id quest_id st))
  /\ database.get_messages_by_quest
       (store_of (llm.generate_ai_response W user_id quest_id st)) user_id quest_id
     = database.get_messages_by_quest st user_id quest_id.
Proof.
  intros Hfailed.
  destruct (generate_ai_response_nothing_persisted user_id quest_id st Hfailed) as [Hst Hev].
  split; [done|]. split; [done|]. by rewrite Hst.
Qed.

Lemma post_eq {A} (m : M A) st x :
  post m st (fun st' evs r => (st', evs, r) = x) -> m st = x.
Proof.
  unfold post, store_of, events_of, result_of. by destruct (m st) as [[? ?] ?].
Qed.

Lemma latest_user_none messages_db :
  Forall (fun m => schemas.role m <> "user") messages_db ->
  llm.latest_user messages_db = None.
Proof.
  unfold llm.latest_user. intros Hall. apply List.Forall_rev in Hall.
  induction Hall as [|m l Hm _ IH]; simpl; [done|].
  by destruct (String.eqb_spec (schemas.role m) "user").
Qed.

(** C10. When the quest's log is not empty and none of its messages is
    the user's, the turn reads the log, logs one warning and returns: no
    embedding, similarity, generation or [add_message] call is made and
    the store is the one it started from. *)
Theorem no_user_message_aborts user_id quest_id st :
  database.get_messages_by_quest st user_id quest_id <> [] ->
  Forall (fun m => schemas.role m <> "user")
    (database.get_messages_by_quest st user_id quest_id) ->
  llm.generate_ai_response W user_id quest_id st
  = (st,
     [ Log INFO "Generating AI response for Quest {quest_id}";
       GetMessagesByQuest user_id quest_id;
       Log WARNING "No user message for Quest {quest_id}." ],
     Ok tt).
Proof.
  intros Hne Hnone. apply post_eq. unfold llm.generate_ai_response.
  do 4 run_step. unfold post, llm.get_messages_by_quest. simpl.
  destruct (database.get_messages_by_quest st user_id quest_id) as [|msg messages_db] eqn:Hlog;
    [done|].
  by rewrite (latest_user_none _ Hnone).
Qed.

(** *** The suggestion step *)

(** The suggestion call never raises and never touches the store; its
    result is [parsed_suggestions] of what the model answered. *)
Lemma generate_followup_suggestions_outcome history latest_response st :
  exists evs,
    llm.generate_followup_suggestions W history latest_response st
    = (st, evs,
       Ok (parsed_suggestions W
             (generate_json_content W (suggestion_prompt history latest_response)))).
Proof.
  cut (post (llm.generate_followup_suggestions W history latest_response) st
         (fun st' evs r =>
            st' = st
            /\ r = Ok (parsed_suggestions W
                         (generate_json_content W (suggestion_prompt history latest_response))))).
  { intros (st' & evs & r & Hrun & -> & ->)%post_run. eauto. }
  unfold llm.generate_followup_suggestions, parsed_suggestions. cbv zeta.
  fold (suggestion_prompt history latest_response).
  destruct (generate_json_content W (suggestion_prompt history latest_response)) as [text|e].
  - do 8 run_step.
    destruct (json_loads W (llm.raw_json_of text)) as [[| | | | |l|]|e]; run_all; try done.
  - run_all. done.
Qed.

Lemma parsed_suggestions_length outcome : length (parsed_suggestions W outcome) <= 4.
Proof.
  unfold parsed_suggestions.
  destruct outcome as [text|]; [|simpl; lia].
  destruct (json_loads W (llm.raw_json_of text)) as [[| | | | |l|]|]; try (simpl; lia).
  destruct (llm.all_str l); [|simpl; lia]. rewrite length_take. lia.
Qed.

(** With a formatted history that is not empty, a reply of the model is
    persisted whatever the suggestion call does: [add_message] is called
    with the reply, the embedding if any, and the parsed suggestions as
    metadata (no metadata when there are none). *)
Lemma respond_persists user_id quest_id formatted_history text final_prompt reply st :
  formatted_history <> [] ->
  generate_content W final_prompt = Ok reply ->
  exists history evs1 evs2 embedding,
    llm.history_for_suggestions formatted_history text = Ok history
    /\ let metadata :=
         llm.suggestions_metadata
           (parsed_suggestions W (generate_json_content W (suggestion_prompt history reply))) in
       llm.respond W user_id quest_id formatted_history text final_prompt st
       = ((database.add_message W st user_id quest_id "model" (PStr reply) embedding metadata).1,
          evs1 ++ AddMessage user_id quest_id "model" (PStr reply) embedding metadata :: evs2,
          Ok tt).
Proof.
  intros Hne Hgen.
  assert (exists history, llm.history_for_suggestions formatted_history text = Ok history)
    as [history Hhist].
  { unfold llm.history_for_suggestions, index_last.
    destruct (last formatted_history) as [t|] eqn:Hlast; [|by apply last_None in Hlast].
    simpl. destruct (existsb _ _); eauto. }
  destruct (generate_followup_suggestions_outcome history reply st) as (evs_s & Hsugg).
  destruct (generate_embedding_total W reply st) as (evs_e & embedding & Hemb).
  exists history,
    ([ Log INFO "Calling Gemini chat model for Quest {quest_id}...";
       GenerateContent final_prompt (Ok reply);
       Log INFO "Gemini response generated: {ai_response_text[:100]}..." ] ++ evs_s ++ evs_e),
    [ Log INFO "AI response, embedding, and suggestions saved for Quest {quest_id}" ],
    embedding.
  split; [done|]. cbv zeta.
  apply post_eq. unfold llm.respond. cbv zeta. rewrite Hgen, Hhist.
  do 10 run_step. run_call Hsugg. run_call Hemb.
  run_step. unfold post at 1, llm.add_message.
  destruct (database.add_message W st user_id quest_id "model" (PStr reply) embedding _)
    as [st' saved] eqn:Hadd.
  cbn [store_of events_of result_of fst snd]. run_step.
  simpl. by rewrite <- !app_assoc.
Qed.

(** With an empty formatted history the turn is lost after the model
    replied: line 180 raises [IndexError] before the suggestion call. *)
Lemma respond_empty_history user_id quest_id text final_prompt reply st :
  generate_content W final_prompt = Ok reply ->
  llm.respond W user_id quest_id [] text final_prompt st
  = (st,
     [ Log INFO "Calling Gemini chat model for Quest {quest_id}...";
       GenerateContent final_prompt (Ok reply);
       Log INFO "Gemini response generated: {ai_response_text[:100]}..." ],
     Raise IndexError).
Proof.
  intros Hgen. apply post_eq. unfold llm.respond. cbv zeta. rewrite Hgen.
  by do 10 run_step.
Qed.

End Turn.

(** ** The properties at concrete inputs *)

Section Instances.

Import Sample.

Lemma assemble_prompt_alternates_witness :
  two_party history
  /\ exists evs final_prompt,
       llm.assemble_prompt "sys" history [TextPart (PStr "latest")] question_store
       = (question_store, evs, Ok final_prompt)
       /\ no_repeated_role final_prompt
       /\ last final_prompt = Some (mkTurn "user" [TextPart (PStr "latest")])
       /\ alternates_from_user final_prompt.
Proof.
  assert (two_party history) as Hparty.
  { unfold two_party, history.
    repeat (constructor; [first [left; reflexivity | right; reflexivity]|]). constructor. }
  split; [exact Hparty|].
  destruct (assemble_prompt_alternates "sys" history [TextPart (PStr "latest")] question_store)
    as (evs & final_prompt & Hrun & Hrole & Hlast & Halt).
  exists evs, final_prompt. repeat split; [exact Hrun | exact Hrole | exact Hlast |].
  exact (Halt Hparty).
Defined.

Lemma merge_context_dedup_witness :
  text_message 9 "user" "q5" ∈ similar
  /\ text_message 9 "user" "q5" ∈ last_n 3 ten_messages
  /\ exists i m',
       first_seen similar !! i = Some m'
       /\ schemas.id m' = 9%N
       /\ llm.merge_context similar (last_n 3 ten_messages) !! i = Some m'
       /\ forall j x, llm.merge_context similar (last_n 3 ten_messages) !! j = Some x ->
                      schemas.id x = 9%N -> j = i.
Proof.
  assert (text_message 9 "user" "q5" ∈ similar) as Hsim by apply list_elem_of_here.
  assert (text_message 9 "user" "q5" ∈ last_n 3 ten_messages) as Hrec
    by apply list_elem_of_further, list_elem_of_here.
  split; [exact Hsim|]. split; [exact Hrec|].
  exact (proj2 (proj2 (proj2 (merge_context_dedup similar (last_n 3 ten_messages))))
           (text_message 9 "user" "q5") (text_message 9 "user" "q5") Hsim Hrec eq_refl).
Defined.

(** After a dropped leading user turn the walk may well keep a user turn
    of the history as the turn after the preamble: the second one. *)
Example second_user_turn_follows_preamble :
  result_of (llm.assemble_prompt "sys"
               [ mkTurn "user" [TextPart (PStr "q1")]; mkTurn "user" [TextPart (PStr "q2")] ]
               [TextPart (PStr "latest")] question_store)
  = Ok (llm.preamble "sys"
        ++ [ mkTurn "user" [TextPart (PStr "q2")]; llm.FILLER;
             mkTurn "user" [TextPart (PStr "latest")] ]).
Proof. reflexivity. Qed.

Lemma leading_user_turn_discarded_witness :
  role (mkTurn "user" [TextPart (PStr "q1")]) = "user"
  /\ llm.history_to_append history = tail history
  /\ exists evs filler,
       llm.assemble_prompt "sys" history [TextPart (PStr "latest")] question_store
       = (question_store, evs,
          Ok (llm.preamble "sys" ++ accepted_turns "model" (tail history) ++ filler
              ++ [mkTurn "user" [TextPart (PStr "latest")]]))
       /\ accepted_turns "model" (tail history) `sublist_of` tail history
       /\ (filler = [] \/ filler = [llm.FILLER])
       /\ forall t, (accepted_turns "model" (tail history) ++ filler
                     ++ [mkTurn "user" [TextPart (PStr "latest")]]) !! 0 = Some t ->
                    t ∈ tail history \/ t = mkTurn "user" [TextPart (PStr "latest")].
Proof.
  split; [reflexivity|].
  exact (leading_user_turn_discarded "sys" (mkTurn "user" [TextPart (PStr "q1")])
           (tail history) [TextPart (PStr "latest")] question_store eq_refl).
Defined.

Lemma no_embedding_recency_only_witness :
  length ten_messages = 10
  /\ NoDup (schemas.id <$> ten_messages)
  /\ exists evs,
       llm.prepare_context services 1%N ten_messages "" question_store
       = (question_store, evs, Ok (drop 7 ten_messages))
       /\ Forall (fun e => ~ is_similarity_search e) evs.
Proof.
  assert (NoDup (schemas.id <$> ten_messages)) as Hnd.
  { apply (bool_decide_unpack _). vm_compute. exact I. }
  split; [reflexivity|]. split; [exact Hnd|].
  exact (no_embedding_recency_only services 1%N ten_messages "" question_store
           eq_refl Hnd (or_introl eq_refl)).
Defined.

Lemma image_reference_item_normalized_witness :
  llm.image_reference image_dict = Some (PStr png_url)
  /\ exists evs block,
       llm.format_item services [] (PDict image_dict) question_store
       = (question_store, evs, Ok ([] ++ [block]))
       /\ ((fetch_fails services (PStr png_url)
            /\ block = TextPart (PStr "[Image could not be loaded]"))
           \/ exists mime data, fetch_succeeds services (PStr png_url) mime data
                                /\ block = InlineData mime data).
Proof.
  split; [reflexivity|].
  exact (image_reference_item_normalized services image_dict (PStr png_url) []
           question_store eq_refl).
Defined.

Lemma unrecognised_item_normalized_witness :
  is_text_item (PInt 7) = false
  /\ is_image_reference_item (PInt 7) = false
  /\ llm.format_item services [] (PInt 7) question_store
     = (question_store, [], Ok [TextPart (PStr "7")])
  /\ is_text_item empty_text_item = false
  /\ is_image_reference_item empty_text_item = false
  /\ eq_str (dict_get "type" [("type", PStr "text"); ("text", PStr "")]) "text" = true
  /\ llm.format_item services [TextPart (PStr "Hello")] empty_text_item question_store
     = (question_store, [], Ok [TextPart (PStr "Hello")]).
Proof.
  split; [reflexivity|]. split; [reflexivity|].
  split; [exact (unrecognised_item_normalized services (PInt 7) [] question_store
                   eq_refl eq_refl)|].
  split; [reflexivity|]. split; [reflexivity|]. split; [reflexivity|].
  exact (unrecognised_item_normalized services empty_text_item [TextPart (PStr "Hello")]
           question_store eq_refl eq_refl eq_refl).
Defined.

(** The claim of C8 as stated fails on a text item with an empty text:
    it is neither a text item with non-empty text nor an image
    reference, and it is dropped, not turned into a text block. *)
Lemma empty_text_item_dropped :
  is_text_item empty_text_item = false
  /\ is_image_reference_item empty_text_item = false
  /\ llm.format_content_for_gemini services (PList [empty_text_item]) question_store
     = (question_store, [], Ok [])
  /\ ~ exists text,
         result_of (llm.format_content_for_gemini services (PList [empty_text_item])
                      question_store)
         = Ok [TextPart text].
Proof.
  split; [reflexivity|]. split; [reflexivity|]. split; [reflexivity|].
  intros [text Htext]. vm_compute in Htext. discriminate Htext.
Qed.

Lemma generation_failure_persists_nothing_witness :
  Exists generation_failed
    (events_of (llm.generate_ai_response services_generation_down "u1" 1%N question_store))
  /\ store_of (llm.generate_ai_response services_generation_down "u1" 1%N question_store)
     = question_store
  /\ Forall (fun e => ~ is_add_message e)
       (events_of (llm.generate_ai_response services_generation_down "u1" 1%N question_store))
  /\ database.get_messages_by_quest
       (store_of (llm.generate_ai_response services_generation_down "u1" 1%N question_store))
       "u1" 1%N
     = database.get_messages_by_quest question_store "u1" 1%N.
Proof.
  assert (Exists generation_failed
            (events_of (llm.generate_ai_response services_generation_down "u1" 1%N
                          question_store))) as Hfailed.
  { vm_compute. repeat (first [apply Exists_cons_hd; exact I | apply Exists_cons_tl]). }
  split; [exact Hfailed|].
  exact (generation_failure_persists_nothing services_generation_down "u1" 1%N
           question_store Hfailed).
Defined.

Lemma no_user_message_aborts_witness :
  database.get_messages_by_quest model_only_store "u1" 1%N <> []
  /\ llm.generate_ai_response services "u1" 1%N model_only_store
     = (model_only_store,
        [ Log INFO "Generating AI response for Quest {quest_id}";
          GetMessagesByQuest "u1" 1%N;
          Log WARNING "No user message for Quest {quest_id}." ],
        Ok tt).
Proof.
  assert (database.get_messages_by_quest model_only_store "u1" 1%N <> []) as Hne.
  { vm_compute. discriminate. }
  assert (Forall (fun m => schemas.role m <> "user")
            (database.get_messages_by_quest model_only_store "u1" 1%N)) as Hnone.
  { vm_compute. constructor; [discriminate|constructor]. }
  split; [exact Hne|].
  exact (no_user_message_aborts services "u1" 1%N model_only_store Hne Hnone).
Defined.

(** C4. A turn whose only message is a picture: the model replies, the
    formatted history is empty, line 180 raises, and the reply is not
    persisted. *)
Theorem image_only_turn_lost :
  llm.generate_ai_response services "u1" 1%N image_only_store
  = (image_only_store, image_only_trace, Ok tt)
  /\ Forall (fun e => ~ is_add_message e) image_only_trace.
Proof.
  split; [vm_compute; reflexivity|].
  unfold image_only_trace. repeat (constructor; [simpl; tauto|]). constructor.
Qed.

End Instances.

(** * Further properties *)

(** ** database.py *)

Section Database.

Implicit Types (st : Store) (m : Message) (l : list Message).

Lemma insert_by_created_at_perm m l : database.insert_by_created_at m l ≡ₚ m :: l.
Proof.
  induction l as [|x l IH]; simpl; [done|].
  destruct (schemas.created_at m <=? schemas.created_at x)%Z; [done|].
  rewrite IH. apply Permutation_swap.
Qed.

Lemma order_by_created_at_perm l : database.order_by_created_at l ≡ₚ l.
Proof.
  unfold database.order_by_created_at. induction l as [|x l IH]; simpl; [done|].
  by rewrite insert_by_created_at_perm, IH.
Qed.

Lemma insert_by_created_at_sorted m l :
  StronglySorted older_or_same l -> StronglySorted older_or_same (database.insert_by_created_at m l).
Proof.
  induction 1 as [|x l Hl IH Hx]; simpl.
  - repeat constructor.
  - destruct (Z.leb_spec (schemas.created_at m) (schemas.created_at x)) as [Hle|Hlt].
    + constructor; [by constructor|]. constructor; [done|].
      eapply Forall_impl; [exact Hx|]. unfold older_or_same. simpl. lia.
    + constructor; [done|]. rewrite insert_by_created_at_perm.
      constructor; [|done]. unfold older_or_same. lia.
Qed.

Lemma order_by_created_at_sorted l :
  StronglySorted older_or_same (database.order_by_created_at l).
Proof.
  unfold database.order_by_created_at. induction l as [|x l IH]; simpl; [constructor|].
  by apply insert_by_created_at_sorted.
Qed.

(** A row no older than the rows before it is read back last. *)
Lemma order_by_created_at_snoc l m :
  Forall (fun x => older_or_same x m) l ->
  database.order_by_created_at (l ++ [m]) = database.order_by_created_at l ++ [m].
Proof.
  unfold database.order_by_created_at. intros Hl.
  assert (forall x sorted, older_or_same x m ->
            database.insert_by_created_at x (sorted ++ [m])
            = database.insert_by_created_at x sorted ++ [m]) as Hins.
  { intros x sorted Hx. induction sorted as [|y sorted IH]; simpl.
    - unfold older_or_same in Hx. by destruct (Z.leb_spec (schemas.created_at x)
                                                 (schemas.created_at m)); [|lia].
    - destruct (schemas.created_at x <=? schemas.created_at y)%Z; [done|]. by rewrite IH. }
  induction Hl as [|x l Hx Hl IH]; simpl; [done|]. by rewrite IH, Hins.
Qed.

Lemma get_messages_by_quest_rows st user_id quest_id :
  database.get_messages_by_quest st user_id quest_id
  = match database.get_quest_by_id st user_id quest_id with
    | None => []
    | Some _ =>
        if forallb schemas.valid_message (rows_of_quest st quest_id)
        then database.order_by_created_at (rows_of_quest st quest_id)
        else []
    end.
Proof. reflexivity. Qed.

Lemma forallb_false_elem {A} (p : A -> bool) (l : list A) x :
  x ∈ l -> p x = false -> forallb p l = false.
Proof.
  intros Hx Hp. destruct (forallb p l) eqn:Hall; [|done].
  rewrite forallb_forall in Hall. apply list_elem_of_In, Hall in Hx. congruence.
Qed.

Lemma get_quest_by_id_found st user_id quest_id quest :
  database.get_quest_by_id st user_id quest_id = Some quest ->
  quest ∈ quests st /\ schemas.q_id quest = quest_id /\ schemas.q_user_id quest = user_id.
Proof.
  unfold database.get_quest_by_id. intros Hfind.
  apply List.find_some in Hfind as [Hin Hp]. apply andb_true_iff in Hp as [Hid Hu].
  split; [by apply list_elem_of_In|]. split; [by apply N.eqb_eq | by apply String.eqb_eq].
Qed.

(** X1. What [get_messages_by_quest] returns.  When the user has the
    quest and every row of it passes the [schemas.Message] validation,
    content and metadata, it is the rows of the quest, all of them and
    nothing else, in ascending [created_at] order.  In every other case
    it is empty: a single row of the quest that fails the validation
    empties the read.  So what it returns is always sorted and made of
    valid rows of the store that belong to the quest, and when it is not
    empty the quest exists and is the user's. *)
Theorem get_messages_by_quest_sorted_scoped st user_id quest_id :
  StronglySorted older_or_same (database.get_messages_by_quest st user_id quest_id)
  /\ Forall (fun m => schemas.quest_id m = quest_id
                      /\ schemas.valid_message m = true
                      /\ exists r, r ∈ messages st /\ row_message r = m)
       (database.get_messages_by_quest st user_id quest_id)
  /\ (database.get_messages_by_quest st user_id quest_id <> [] ->
      exists quest, quest ∈ quests st /\ schemas.q_id quest = quest_id
                    /\ schemas.q_user_id quest = user_id)
  /\ (database.get_quest_by_id st user_id quest_id <> None ->
      rows_valid st quest_id ->
      database.get_messages_by_quest st user_id quest_id ≡ₚ rows_of_quest st quest_id)
  /\ (database.get_quest_by_id st user_id quest_id = None ->
      database.get_messages_by_quest st user_id quest_id = [])
  /\ (forall m, m ∈ rows_of_quest st quest_id -> schemas.valid_message m = false ->
        database.get_messages_by_quest st user_id quest_id = []).
Proof.
  rewrite get_messages_by_quest_rows. unfold rows_valid.
  destruct (database.get_quest_by_id st user_id quest_id) as [quest|] eqn:Hquest;
    [|by repeat split; try constructor].
  destruct (forallb _ (rows_of_quest st quest_id)) eqn:Hvalid;
    [|split; [constructor|split; [constructor|done]]].
  split; [apply order_by_created_at_sorted|]. split; [|split; [|split; [|split; [done|]]]].
  - rewrite order_by_created_at_perm. apply Forall_forall. intros m Hm.
    rewrite forallb_forall in Hvalid. unfold rows_of_quest in *.
    apply list_elem_of_In in Hm. split; [|split].
    + apply List.filter_In in Hm as [_ Hq]. by apply N.eqb_eq.
    + by apply Hvalid.
    + apply List.filter_In in Hm as [Hm _]. apply List.in_map_iff in Hm as (r & <- & Hr).
      exists r. split; [by apply list_elem_of_In|done].
  - intros _. exists quest. by apply (get_quest_by_id_found st user_id quest_id).
  - intros _ _. apply order_by_created_at_perm.
  - intros m Hm Hbad. rewrite (forallb_false_elem _ _ m Hm Hbad) in Hvalid. discriminate.
Qed.

Lemma find_map_preserving {A} (p : A -> bool) (f : A -> A) (l : list A) :
  (forall x, p (f x) = p x) -> List.find p (map f l) = f <$> List.find p l.
Proof.
  intros Hp. induction l as [|x l IH]; simpl; [done|].
  rewrite Hp. by destruct (p x).
Qed.

Section AddMessage.

Context (W : Services) (st : Store) (user_id : string) (quest_id : uuid) (role : string)
  (content : pyval) (embedding : option (list pyval)) (metadata : option pyval).

Local Abbreviation added :=
  (database.add_message W st user_id quest_id role content embedding metadata).

Local Abbreviation new_message :=
  (inserted_message W st user_id quest_id role content metadata).

Lemma add_message_saved :
  added.2 = if schemas.valid_message new_message then Some new_message else None.
Proof. reflexivity. Qed.

Lemma valid_message_inserted :
  schemas.valid_message new_message
  = schemas.valid_content content && schemas.valid_metadata metadata.
Proof. reflexivity. Qed.

Lemma add_message_messages :
  messages added.1 = messages st ++ [mkRow new_message embedding].
Proof. reflexivity. Qed.

Lemma add_message_get_quest_by_id u q :
  database.get_quest_by_id added.1 u q
  = database.touch_quest
      (utcnow W (mkStore (quests st) (messages st ++ [mkRow new_message embedding]))) quest_id
    <$> database.get_quest_by_id st u q.
Proof.
  unfold database.get_quest_by_id. simpl. apply find_map_preserving.
  intros x. unfold database.touch_quest. by destruct (schemas.q_id x =? quest_id)%N.
Qed.

Lemma add_message_rows q :
  rows_of_quest added.1 q
  = rows_of_quest st q ++ (if (quest_id =? q)%N then [new_message] else []).
Proof.
  unfold rows_of_quest. rewrite add_message_messages, map_app, List.filter_app. simpl.
  by destruct (quest_id =? q)%N.
Qed.

Lemma add_message_reads :
  database.get_quest_by_id st user_id quest_id <> None ->
  rows_valid st quest_id ->
  database.get_messages_by_quest st user_id quest_id
  = database.order_by_created_at (rows_of_quest st quest_id)
  /\ database.get_messages_by_quest added.1 user_id quest_id
     = if schemas.valid_message new_message
       then database.order_by_created_at (rows_of_quest st quest_id ++ [new_message])
       else [].
Proof.
  intros Hquest Hvalid.
  rewrite !get_messages_by_quest_rows, add_message_get_quest_by_id, add_message_rows.
  destruct (database.get_quest_by_id st user_id quest_id) as [quest|]; [|done]. simpl.
  rewrite N.eqb_refl, forallb_app. unfold rows_valid in Hvalid. rewrite Hvalid.
  cbn [forallb andb]. by rewrite andb_true_r.
Qed.

Lemma add_message_log_perm :
  database.get_quest_by_id st user_id quest_id <> None ->
  rows_valid st quest_id ->
  schemas.valid_content content = true ->
  schemas.valid_metadata metadata = true ->
  database.get_messages_by_quest added.1 user_id quest_id
  ≡ₚ database.get_messages_by_quest st user_id quest_id ++ [new_message].
Proof.
  intros Hquest Hvalid Hcontent Hmetadata.
  destruct (add_message_reads Hquest Hvalid) as [-> ->].
  rewrite valid_message_inserted, Hcontent, Hmetadata. cbn [andb].
  by rewrite !order_by_created_at_perm.
Qed.

Lemma add_message_log_snoc :
  database.get_quest_by_id st user_id quest_id <> None ->
  rows_valid st quest_id ->
  schemas.valid_content content = true ->
  schemas.valid_metadata metadata = true ->
  Forall (fun m => older_or_same m new_message) (rows_of_quest st quest_id) ->
  database.get_messages_by_quest added.1 user_id quest_id
  = database.get_messages_by_quest st user_id quest_id ++ [new_message].
Proof.
  intros Hquest Hvalid Hcontent Hmetadata.
  destruct (add_message_reads Hquest Hvalid) as [-> ->].
  rewrite valid_message_inserted, Hcontent, Hmetadata. cbn [andb].
  apply order_by_created_at_snoc.
Qed.

(** X2. Insert then read, on a quest of the user whose rows are valid.
    When the new message passes the [schemas.Message] validation,
    content and metadata, [add_message] returns it and
    [get_messages_by_quest] then returns the earlier log and the new
    message, and nothing else; the new message is last when no row of
    the quest is dated after it.  When it does not pass, [add_message]
    returns [None] but the row stays inserted, and the quest reads empty
    from then on. *)
Theorem add_message_read_back :
  database.get_quest_by_id st user_id quest_id <> None ->
  rows_valid st quest_id ->
  (schemas.valid_message new_message = true ->
   added.2 = Some new_message
   /\ database.get_messages_by_quest added.1 user_id quest_id
      ≡ₚ database.get_messages_by_quest st user_id quest_id ++ [new_message]
   /\ (Forall (fun m => older_or_same m new_message) (rows_of_quest st quest_id) ->
       database.get_messages_by_quest added.1 user_id quest_id
       = database.get_messages_by_quest st user_id quest_id ++ [new_message]))
  /\ (schemas.valid_message new_message = false ->
      added.2 = None
      /\ new_message ∈ rows_of_quest added.1 quest_id
      /\ database.get_messages_by_quest added.1 user_id quest_id = []).
Proof.
  intros Hquest Hvalid. split.
  - intros Hnew. pose proof Hnew as Hparts.
    rewrite valid_message_inserted in Hparts. apply andb_true_iff in Hparts as [Hc Hm].
    split; [by rewrite add_message_saved, Hnew|]. split.
    + by apply add_message_log_perm.
    + by apply add_message_log_snoc.
  - intros Hnew. split; [by rewrite add_message_saved, Hnew|]. split.
    + rewrite add_message_rows, N.eqb_refl. apply elem_of_app. right. by left.
    + destruct (add_message_reads Hquest Hvalid) as [_ ->]. by rewrite Hnew.
Qed.

(** X3. [add_message] touches one quest only: who owns which quest is
    unchanged, and for every other quest the quest row and the log read
    back are the same as before. *)
Theorem add_message_isolated u q :
  (database.get_quest_by_id added.1 u q = None <-> database.get_quest_by_id st u q = None)
  /\ (q <> quest_id ->
      database.get_quest_by_id added.1 u q = database.get_quest_by_id st u q
      /\ database.get_messages_by_quest added.1 u q = database.get_messages_by_quest st u q).
Proof.
  rewrite add_message_get_quest_by_id. split.
  - by destruct (database.get_quest_by_id st u q).
  - intros Hne.
    assert (database.touch_quest
              (utcnow W (mkStore (quests st) (messages st ++ [mkRow new_message embedding])))
              quest_id <$> database.get_quest_by_id st u q
            = database.get_quest_by_id st u q) as Hsame.
    { destruct (database.get_quest_by_id st u q) as [quest|] eqn:Hq; [|done]. simpl.
      apply get_quest_by_id_found in Hq as (_ & Hid & _).
      unfold database.touch_quest. rewrite Hid.
      by destruct (N.eqb_spec q quest_id). }
    split; [done|].
    rewrite !get_messages_by_quest_rows, add_message_get_quest_by_id, Hsame, add_message_rows.
    destruct (N.eqb_spec quest_id q) as [->|_]; [done|]. by rewrite app_nil_r.
Qed.

End AddMessage.

Lemma find_filter_kept {A} (p keep : A -> bool) (l : list A) :
  (forall x, p x = true -> keep x = true) ->
  List.find p (List.filter keep l) = List.find p l.
Proof.
  intros Hkeep. induction l as [|x l IH]; simpl; [done|].
  destruct (keep x) eqn:Hk; simpl.
  - by rewrite IH.
  - destruct (p x) eqn:Hp; [|done]. apply Hkeep in Hp. congruence.
Qed.

Lemma filter_filter_kept {A} (p keep : A -> bool) (l : list A) :
  (forall x, p x = true -> keep x = true) ->
  List.filter p (List.filter keep l) = List.filter p l.
Proof.
  intros Hkeep. induction l as [|x l IH]; simpl; [done|].
  destruct (keep x) eqn:Hk; simpl.
  - by rewrite IH.
  - destruct (p x) eqn:Hp; [|done]. apply Hkeep in Hp. congruence.
Qed.

Lemma find_filter_negb {A} (p : A -> bool) (l : list A) :
  List.find p (List.filter (fun x => negb (p x)) l) = None.
Proof.
  induction l as [|x l IH]; simpl; [done|].
  destruct (p x) eqn:Hx; simpl; rewrite ?Hx; exact IH.
Qed.

Lemma map_filter_rows (keep : Message -> bool) (rows : list message_row) :
  map row_message (List.filter (fun r => keep (row_message r)) rows)
  = List.filter keep (map row_message rows).
Proof.
  induction rows as [|r rows IH]; simpl; [done|].
  destruct (keep (row_message r)); simpl; by rewrite IH.
Qed.

Lemma find_snoc {A} (p : A -> bool) (l : list A) (x : A) :
  List.find p (l ++ [x])
  = match List.find p l with
    | Some found => Some found
    | None => if p x then Some x else None
    end.
Proof. induction l as [|y l IH]; simpl; [done|]. by destruct (p y). Qed.

Lemma find_none_forall {A} (p : A -> bool) (l : list A) :
  Forall (fun x => p x = false) l -> List.find p l = None.
Proof. induction 1 as [|x l Hx _ IH]; simpl; [done|]. by rewrite Hx. Qed.

Lemma delete_quest_gone st user_id quest_id :
  (database.delete_quest st user_id quest_id).2 = true
  /\ database.get_quest_by_id (database.delete_quest st user_id quest_id).1 user_id quest_id
     = None.
Proof.
  unfold database.delete_quest.
  destruct (existsb (database.deleted_by user_id quest_id) (quests st)) eqn:Hex; simpl.
  - split; [done|]. apply find_filter_negb.
  - split; [done|]. apply find_none_forall, Forall_forall. intros q Hq.
    apply list_elem_of_In in Hq.
    destruct (database.deleted_by user_id quest_id q) eqn:Hdel; [|done].
    assert (existsb (database.deleted_by user_id quest_id) (quests st) = true) as Hyes
      by (apply existsb_exists; eauto).
    congruence.
Qed.

(** X4. After [delete_quest] the user has no such quest and reads an
    empty log for it; quests with another id, and their logs, are as
    before; and when the user had no such quest, the store is unchanged
    (the call still returns [True]). *)
Theorem delete_quest_removes st user_id quest_id :
  (database.delete_quest st user_id quest_id).2 = true
  /\ database.get_quest_by_id (database.delete_quest st user_id quest_id).1 user_id quest_id = None
  /\ database.get_messages_by_quest (database.delete_quest st user_id quest_id).1 user_id quest_id
     = []
  /\ (forall u q, q <> quest_id ->
        database.get_quest_by_id (database.delete_quest st user_id quest_id).1 u q
        = database.get_quest_by_id st u q
        /\ database.get_messages_by_quest (database.delete_quest st user_id quest_id).1 u q
           = database.get_messages_by_quest st u q)
  /\ (database.get_quest_by_id st user_id quest_id = None ->
      (database.delete_quest st user_id quest_id).1 = st).
Proof.
  assert (forall q, database.deleted_by user_id quest_id q
                    = ((schemas.q_id q =? quest_id)%N && String.eqb (schemas.q_user_id q) user_id))
    as Hdel by done.
  unfold database.delete_quest.
  destruct (existsb (database.deleted_by user_id quest_id) (quests st)) eqn:Hex; simpl.
  - split; [done|].
    assert (List.find (database.deleted_by user_id quest_id)
              (List.filter (fun q => negb (database.deleted_by user_id quest_id q)) (quests st))
            = None) as Hgone.
    { apply find_filter_negb. }
    split; [exact Hgone|]. split.
    { rewrite get_messages_by_quest_rows. unfold database.get_quest_by_id. simpl.
      fold (database.deleted_by user_id quest_id). by rewrite Hgone. }
    split.
    + intros u q Hne.
      assert (database.get_quest_by_id
                (mkStore (List.filter (fun q0 => negb (database.deleted_by user_id quest_id q0))
                            (quests st))
                   (List.filter (fun r => negb (schemas.quest_id (row_message r) =? quest_id)%N)
                      (messages st))) u q
              = database.get_quest_by_id st u q) as Hquest.
      { unfold database.get_quest_by_id. simpl. apply find_filter_kept.
        intros x Hx. apply andb_true_iff in Hx as [Hid _]. apply N.eqb_eq in Hid.
        rewrite Hdel, Hid. by destruct (N.eqb_spec q quest_id). }
      split; [exact Hquest|].
      rewrite !get_messages_by_quest_rows, Hquest. unfold rows_of_quest. simpl.
      rewrite (map_filter_rows (fun m => negb (schemas.quest_id m =? quest_id)%N)).
      rewrite filter_filter_kept; [done|].
      intros m Hm. apply N.eqb_eq in Hm. rewrite Hm. by destruct (N.eqb_spec q quest_id).
    + intros Hnone. unfold database.get_quest_by_id in Hnone.
      apply existsb_exists in Hex as (x & Hin & Hx).
      eapply List.find_none in Hnone; [|exact Hin]. rewrite Hdel in Hx. congruence.
  - split; [done|].
    assert (database.get_quest_by_id st user_id quest_id = None) as Hnone.
    { unfold database.get_quest_by_id. fold (database.deleted_by user_id quest_id).
      induction (quests st) as [|x l IH]; simpl in *; [done|].
      apply orb_false_iff in Hex as [Hx Hl]. rewrite Hx. by apply IH. }
    split; [done|]. split; [by rewrite get_messages_by_quest_rows, Hnone|].
    split; done.
Qed.

Lemma string_length_app (s1 s2 : string) :
  String.length (s1 +:+ s2) = String.length s1 + String.length s2.
Proof. induction s1 as [|c s1 IH]; simpl; [done|]. by rewrite IH. Qed.

Lemma substring_length_le (n : nat) (s : string) :
  String.length (String.substring 0 n s) <= n.
Proof.
  revert s. induction n as [|n IH]; intros [|c s]; simpl; try lia.
  specialize (IH s). lia.
Qed.

Lemma substring_all (n : nat) (s : string) :
  String.length s <= n -> String.substring 0 n s = s.
Proof.
  revert s. induction n as [|n IH]; intros [|c s] Hlen; simpl in *; try done; try lia.
  f_equal. apply IH. lia.
Qed.

(** X5. The title of a new quest is never empty and never longer than 53
    characters; for a prompt of 1 to 50 characters it is the prompt
    followed by an ellipsis, although nothing was cut. *)
Theorem quest_title_bounds (initial_prompt : string) :
  1 <= String.length (database.quest_title initial_prompt) <= 53
  /\ (initial_prompt <> "" -> String.length initial_prompt <= 50 ->
      database.quest_title initial_prompt = initial_prompt +:+ "...").
Proof.
  unfold database.quest_title.
  destruct (String.eqb_spec initial_prompt "") as [->|Hne]; [simpl; split; [lia|done]|].
  split.
  - rewrite string_length_app. pose proof (substring_length_le 50 initial_prompt). simpl. lia.
  - intros _ Hlen. by rewrite substring_all.
Qed.

Lemma get_quest_by_id_snoc st (quest : schemas.Quest) u q :
  database.get_quest_by_id (mkStore (quests st ++ [quest]) (messages st)) u q
  = match database.get_quest_by_id st u q with
    | Some found => Some found
    | None => if (schemas.q_id quest =? q)%N && String.eqb (schemas.q_user_id quest) u
              then Some quest else None
    end.
Proof. unfold database.get_quest_by_id. simpl. by rewrite find_snoc. Qed.

Lemma get_quest_by_id_fresh st u q :
  Forall (fun quest => schemas.q_id quest <> q) (quests st) ->
  database.get_quest_by_id st u q = None.
Proof.
  intros Hfresh. unfold database.get_quest_by_id. apply find_none_forall.
  eapply Forall_impl; [exact Hfresh|]. intros x Hx. simpl.
  by destruct (N.eqb_spec (schemas.q_id x) q).
Qed.

Lemma create_quest_inserted (W : Services) st user_id quest_data initial_prompt :
  schemas.initial_prompt quest_data = Some initial_prompt ->
  Forall (fun q => schemas.q_id q <> gen_random_uuid W st) (quests st) ->
  exists quest,
    database.create_quest W st user_id quest_data
    = (mkStore (quests st ++ [quest]) (messages st), Ok (Some quest))
    /\ schemas.q_id quest = gen_random_uuid W st
    /\ schemas.q_user_id quest = user_id
    /\ schemas.title quest = Some (database.quest_title initial_prompt)
    /\ database.get_quest_by_id (mkStore (quests st ++ [quest]) (messages st)) user_id
         (schemas.q_id quest)
       = Some quest.
Proof.
  intros Hprompt Hfresh. unfold database.create_quest. rewrite Hprompt.
  exists (schemas.mkQuest (Some (database.quest_title initial_prompt)) (gen_random_uuid W st)
            user_id (utcnow W st) (utcnow W st)).
  cbn [schemas.q_id schemas.q_user_id schemas.title].
  rewrite get_quest_by_id_snoc, (get_quest_by_id_fresh _ _ _ Hfresh).
  cbn [schemas.q_id schemas.q_user_id]. by rewrite N.eqb_refl, String.eqb_refl.
Qed.

(** X6. [create_quest] without an initial prompt raises [TypeError] and
    inserts nothing.  With a prompt, and an id the quests table does not
    hold yet, it returns the new quest, owned by the user and titled by
    [quest_title]; the quest reads back for its owner and for nobody
    else, the messages are untouched and every other quest reads back
    as before. *)
Theorem create_quest_round_trip (W : Services) st user_id quest_data :
  match schemas.initial_prompt quest_data with
  | None => database.create_quest W st user_id quest_data = (st, Raise TypeError)
  | Some initial_prompt =>
      Forall (fun q => schemas.q_id q <> gen_random_uuid W st) (quests st) ->
      exists quest,
        (database.create_quest W st user_id quest_data).2 = Ok (Some quest)
        /\ schemas.q_id quest = gen_random_uuid W st
        /\ schemas.q_user_id quest = user_id
        /\ schemas.title quest = Some (database.quest_title initial_prompt)
        /\ database.get_quest_by_id (database.create_quest W st user_id quest_data).1
             user_id (schemas.q_id quest) = Some quest
        /\ (forall u, u <> user_id ->
              database.get_quest_by_id (database.create_quest W st user_id quest_data).1
                u (schemas.q_id quest) = None)
        /\ messages (database.create_quest W st user_id quest_data).1 = messages st
        /\ (forall u q, q <> schemas.q_id quest ->
              database.get_quest_by_id (database.create_quest W st user_id quest_data).1 u q
              = database.get_quest_by_id st u q)
  end.
Proof.
  unfold database.create_quest.
  destruct (schemas.initial_prompt quest_data) as [initial_prompt|]; [|done].
  intros Hfresh. cbn [fst snd].
  set (quest := schemas.mkQuest (Some (database.quest_title initial_prompt))
                  (gen_random_uuid W st) user_id (utcnow W st) (utcnow W st)).
  assert (forall u q,
            database.get_quest_by_id (mkStore (quests st ++ [quest]) (messages st)) u q
            = match database.get_quest_by_id st u q with
              | Some found => Some found
              | None => if (gen_random_uuid W st =? q)%N && String.eqb user_id u
                        then Some quest else None
              end) as Hget by (intros u q; apply get_quest_by_id_snoc).
  assert (forall u, database.get_quest_by_id st u (gen_random_uuid W st) = None) as Hnone
    by (intros u; by apply get_quest_by_id_fresh).
  exists quest. rewrite !Hget, Hnone, N.eqb_refl, String.eqb_refl. simpl.
  repeat split; try done.
  - intros u Hu. rewrite Hget, Hnone, N.eqb_refl. simpl.
    by destruct (String.eqb_spec user_id u) as [->|].
  - intros u q Hq. rewrite Hget.
    destruct (database.get_quest_by_id st u q); [done|].
    by destruct (N.eqb_spec (gen_random_uuid W st) q) as [<-|].
Qed.

End Database.

(** ** llm.py: the helpers *)

Section Helpers.

Context (W : Services).

(** X7. [latest_user] picks the last message of the log whose role is
    ['user']: no message after it is the user's; it finds none exactly
    when the log has no user message. *)
Theorem latest_user_is_last (messages_db : list Message) :
  match llm.latest_user messages_db with
  | Some msg =>
      exists before after,
        messages_db = before ++ msg :: after
        /\ schemas.role msg = "user"
        /\ Forall (fun m => schemas.role m <> "user") after
  | None => Forall (fun m => schemas.role m <> "user") messages_db
  end.
Proof.
  unfold llm.latest_user.
  induction messages_db as [|x l IH] using rev_ind; [by constructor|].
  rewrite rev_app_distr. simpl.
  destruct (String.eqb_spec (schemas.role x) "user") as [Hx|Hx].
  - exists l, []. by repeat split.
  - destruct (find _ (rev l)) as [msg|].
    + destruct IH as (before & after & -> & Hrole & Hafter).
      exists before, (after ++ [x]). rewrite <- app_assoc. split; [done|]. split; [done|].
      apply Forall_app. split; [done|]. by constructor.
    + apply Forall_app. split; [done|]. by constructor.
Qed.

Lemma join_all_str sep (items : list pyval) :
  join sep items
  = match llm.all_str items with
    | Some strs => Ok (String.concat sep strs)
    | None => Raise TypeError
    end.
Proof.
  induction items as [|[| | | |s| |] items IH]; try done.
  cbn [llm.all_str]. destruct items as [|item items]; [done|].
  change (join sep (PStr s :: item :: items))
    with (dor r <- join sep (item :: items); Ok (s +:+ sep +:+ r)).
  rewrite IH. destruct (llm.all_str (item :: items)) as [strs|] eqn:Hstrs; [|done].
  simpl. destruct strs as [|str strs]; [|done].
  destruct item as [| | | |s'| |]; try done. simpl in Hstrs.
  by destruct (llm.all_str items).
Qed.

(** X8. [extractTextContent] raises only [TypeError], and only on a list
    content in which an item tagged ['text'] holds a text that is not a
    string; otherwise it returns the string itself, or the texts of the
    items tagged ['text'] joined by newlines (images and other items
    contribute nothing). *)
Theorem extractTextContent_outcome (content : pyval) :
  match content with
  | PStr s => llm.extractTextContent W content = Ok s
  | PList items =>
      llm.extractTextContent W content
      = match llm.all_str (llm.text_parts items) with
        | Some texts => Ok (String.concat newline texts)
        | None => Raise TypeError
        end
  | _ => exists s, llm.extractTextContent W content = Ok s
  end.
Proof.
  destruct content as [| | | |s|items|d]; simpl; try done;
    try (destruct (json_dumps W _); eauto).
  apply join_all_str.
Qed.

Lemma format_history_for_gemini_cons msg rest :
  llm.format_history_for_gemini W (msg :: rest)
  = match llm.extractTextContent W (schemas.content msg) with
    | Ok text_content =>
        match llm.format_history_for_gemini W rest with
        | Ok history =>
            if negb (String.eqb text_content "")
            then Ok (mkTurn (schemas.role msg) [TextPart (PStr text_content)] :: history)
            else Ok history
        | Raise e => Raise e
        end
    | Raise e => Raise e
    end.
Proof. reflexivity. Qed.

(** X9. [format_history_for_gemini] raises exactly when the text of one
    of the messages cannot be extracted.  Otherwise the history has one
    turn per message with a non-empty text, in order, with the message's
    role and that text as its only part: messages without text (images
    only) give no turn, and no turn carries an image. *)
Theorem format_history_for_gemini_outcome (db_messages : list Message) :
  match llm.format_history_for_gemini W db_messages with
  | Ok history =>
      history = omap (history_turn W) db_messages
      /\ Forall (fun msg => exists text, llm.extractTextContent W (schemas.content msg) = Ok text)
           db_messages
      /\ Forall (fun t => exists text, text <> "" /\ parts t = [TextPart (PStr text)]) history
      /\ length history <= length db_messages
  | Raise e =>
      Exists (fun msg => llm.extractTextContent W (schemas.content msg) = Raise e) db_messages
  end.
Proof.
  induction db_messages as [|msg rest IH]; [by repeat split; constructor|].
  rewrite format_history_for_gemini_cons. cbn [omap list_omap]. unfold history_turn at 1.
  destruct (llm.extractTextContent W (schemas.content msg)) as [text|e] eqn:Htext;
    [|by apply Exists_cons_hd].
  destruct (llm.format_history_for_gemini W rest) as [history|e]; [|by apply Exists_cons_tl].
  destruct IH as (-> & Hall & Hturns & Hlen).
  destruct (String.eqb_spec text "") as [->|Hne]; simpl.
  - repeat split; [by constructor; eauto | done | lia].
  - repeat split; [by constructor; eauto | by constructor; eauto | lia].
Qed.

(** [fetch_image_data] sends at most one request. *)
Lemma fetch_image_data_requests image_url st :
  post (llm.fetch_image_data W image_url) st (fun st' evs r =>
    st' = st /\ (exists image_data, r = Ok image_data)
    /\ length (List.filter is_http_get evs) <= 1).
Proof.
  unfold llm.fetch_image_data, llm.client_get. do 2 run_step.
  destruct image_url as [| | | |url| |]; run_all; repeat split; eauto; simpl; lia.
Qed.

(** What the loop body does with one item. *)
Lemma format_item_one parts item st :
  post (llm.format_item W parts item) st (fun st' evs r =>
    st' = st
    /\ (exists blocks, r = Ok (parts ++ blocks)
        /\ length blocks = (if is_dropped_item item then 0 else 1))
    /\ length (List.filter is_http_get evs) <= (if is_image_reference_item item then 1 else 0)).
Proof.
  unfold llm.format_item, is_dropped_item.
  destruct item as [| | | | | |d];
    try (run_step; split; [done|]; split; [by eexists; split|simpl; lia]).
  cbn [isinstance_dict is_text_item is_image_reference_item andb].
  destruct (eq_str (dict_get "type" d) "text" && truthy (dict_get "text" d)).
  - run_step. split; [done|]. split; [by eexists; split|simpl; lia].
  - destruct (llm.image_reference d) as [image_url|].
    + do 3 run_step. eapply post_mono; [apply fetch_image_data_requests|].
      intros st' evs r (-> & [image_data ->] & Hget).
      destruct image_data as [[mime data]|]; run_step;
        (split; [done|]; split; [by eexists; split|]);
        rewrite app_nil_r; simpl; lia.
    + run_step. split; [done|]. split; [|simpl; lia].
      exists []. by rewrite app_nil_r.
Qed.

Lemma format_items_all items parts st :
  post (for_each (llm.format_item W) items parts) st (fun st' evs r =>
    st' = st
    /\ (exists blocks, r = Ok (parts ++ blocks)
        /\ length blocks = length (List.filter (fun item => negb (is_dropped_item item)) items))
    /\ length (List.filter is_http_get evs)
       <= length (List.filter is_image_reference_item items)).
Proof.
  revert parts. induction items as [|item items IH]; intros parts; cbn [for_each].
  - run_step. split; [done|]. split; [|simpl; lia]. exists []. by rewrite app_nil_r.
  - run_step. eapply post_mono; [apply format_item_one|].
    intros st1 ev1 r (-> & (blocks & -> & Hblocks) & Hget1).
    eapply post_mono; [apply IH|].
    intros st2 ev2 r (-> & (blocks' & -> & Hblocks') & Hget2).
    split; [done|]. split.
    + exists (blocks ++ blocks'). rewrite app_assoc. split; [done|].
      rewrite length_app, Hblocks, Hblocks'. simpl.
      destruct (is_dropped_item item); simpl; lia.
    + rewrite List.filter_app, length_app. simpl.
      destruct (is_image_reference_item item); simpl; lia.
Qed.

(** X10. Normalising a list content never raises and leaves the store
    alone; it yields one block per item except the dicts that are neither
    a text item nor an image reference, and sends at most one request per
    image reference.  The result is empty exactly when every item is
    such a dict. *)
Theorem format_content_for_gemini_list items st :
  exists evs blocks,
    llm.format_content_for_gemini W (PList items) st = (st, evs, Ok blocks)
    /\ length blocks = length (List.filter (fun item => negb (is_dropped_item item)) items)
    /\ length (List.filter is_http_get evs)
       <= length (List.filter is_image_reference_item items)
    /\ (blocks = [] <-> Forall (fun item => is_dropped_item item = true) items).
Proof.
  pose proof (format_items_all items [] st) as Hrun.
  apply post_run in Hrun as (st' & evs & r & Hrun & -> & (blocks & -> & Hlen) & Hget).
  exists evs, blocks. split; [exact Hrun|]. split; [exact Hlen|]. split; [exact Hget|].
  rewrite <- length_zero_iff_nil, Hlen. clear.
  induction items as [|item items IH]; simpl; [by split; [constructor|]|].
  destruct (is_dropped_item item) eqn:Hitem; simpl.
  - rewrite IH. split; [by constructor|]. by intros [_ H]%Forall_cons.
  - split; [lia|]. intros [H _]%Forall_cons. congruence.
Qed.

(** X11. [generate_embedding] never raises and leaves the store alone.
    It returns an embedding exactly when the text is not blank and the
    service answers with a dict whose ['embedding'] is a list, which it
    returns; it calls the service at most once, and not at all for a
    blank text. *)
Theorem generate_embedding_outcome text st :
  exists evs result,
    llm.generate_embedding W text st = (st, evs, Ok result)
    /\ (forall embedding,
          result = Some embedding <->
          blank text = false
          /\ exists answer, embed_content W text = Ok answer
                            /\ llm.dict_has_key "embedding" answer = true
                            /\ dict_get "embedding" answer = PList embedding)
    /\ length (List.filter is_embed_content evs) <= 1
    /\ (blank text = true -> evs = []).
Proof.
  cut (post (llm.generate_embedding W text) st (fun st' evs r =>
         st' = st /\ exists result, r = Ok result
         /\ (forall embedding,
               result = Some embedding <->
               blank text = false
               /\ exists answer, embed_content W text = Ok answer
                                 /\ llm.dict_has_key "embedding" answer = true
                                 /\ dict_get "embedding" answer = PList embedding)
         /\ length (List.filter is_embed_content evs) <= 1
         /\ (blank text = true -> evs = []))).
  { intros (st' & evs & r & Hrun & -> & result & -> & H)%post_run. eauto. }
  unfold llm.generate_embedding. fold (blank text). run_step.
  destruct (blank text) eqn:Hblank.
  - run_step. split; [done|]. exists None. split; [done|].
    split; [|split; [simpl; lia|done]].
    intros embedding. split; [done|]. by intros [? _].
  - do 4 run_step.
    destruct (embed_content W text) as [answer|e] eqn:Hanswer.
    + cbv beta iota.
      destruct (llm.dict_has_key "embedding" answer) eqn:Hkey.
      * destruct (dict_get "embedding" answer) as [| | | | |embedding|] eqn:Hget;
          run_all; (split; [done|]); eexists; (split; [done|]);
          (split; [|split; [simpl; lia|done]]); intros embedding';
          (split; [try done|]).
        -- intros (_ & answer' & [= <-] & _ & Habs). congruence.
        -- intros (_ & answer' & [= <-] & _ & Habs). congruence.
        -- intros (_ & answer' & [= <-] & _ & Habs). congruence.
        -- intros (_ & answer' & [= <-] & _ & Habs). congruence.
        -- intros (_ & answer' & [= <-] & _ & Habs). congruence.
        -- intros [= <-]. split; [done|]. eauto.
        -- intros (_ & answer' & [= <-] & _ & Habs). congruence.
        -- intros (_ & answer' & [= <-] & _ & Habs). congruence.
      * run_all. split; [done|]. exists None. split; [done|].
        split; [|split; [simpl; lia|done]]. intros embedding. split; [done|].
        intros (_ & answer' & [= <-] & Hkey' & _). congruence.
    + cbv beta iota. run_all. split; [done|]. exists None. split; [done|].
      split; [|split; [simpl; lia|done]]. intros embedding. split; [done|].
      by intros (_ & answer' & [=] & _).
Qed.

(** *** Stripping *)

Lemma lstrip_chars_head p c r : p c = false -> lstrip_chars p (String c r) = String c r.
Proof. intros Hc. simpl. by rewrite Hc. Qed.

Lemma lstrip_chars_app p s t :
  string_forall p s = true -> lstrip_chars p (s +:+ t) = lstrip_chars p t.
Proof.
  induction s as [|c s IH]; simpl; [done|].
  intros [Hc Hs]%andb_true_iff. rewrite Hc. by apply IH.
Qed.

Lemma rstrip_chars_all p t : string_forall p t = true -> rstrip_chars p t = "".
Proof.
  induction t as [|c t IH]; simpl; [done|].
  intros [Hc Ht]%andb_true_iff. by rewrite (IH Ht), Hc.
Qed.

Lemma rstrip_chars_app p s t :
  string_forall p t = true -> rstrip_chars p (s +:+ t) = rstrip_chars p s.
Proof.
  intros Ht. induction s as [|c s IH]; simpl.
  - by apply rstrip_chars_all.
  - by rewrite IH.
Qed.

(** What [lstrip_chars] returns is empty or starts with a character that
    is kept. *)
Lemma lstrip_chars_starts p s :
  lstrip_chars p s = "" \/ exists c r, lstrip_chars p s = String c r /\ p c = false.
Proof.
  induction s as [|c s IH]; simpl; [by left|].
  destruct (p c) eqn:Hc; [done|]. right. eauto.
Qed.

Lemma rstrip_chars_head p c r :
  p c = false -> exists r', rstrip_chars p (String c r) = String c r'.
Proof.
  intros Hc. simpl. destruct (rstrip_chars p r); rewrite ?Hc; eauto.
Qed.

Lemma rstrip_chars_idem p s : rstrip_chars p (rstrip_chars p s) = rstrip_chars p s.
Proof.
  induction s as [|c s IH]; simpl; [done|].
  destruct (rstrip_chars p s) as [|c' s'] eqn:Hs.
  - destruct (p c) eqn:Hc; simpl; [done|]. by rewrite Hc.
  - simpl in *. by rewrite IH.
Qed.

(** A stripped string has nothing left to strip. *)
Lemma strip_idem s : strip (strip s) = strip s.
Proof.
  unfold strip.
  destruct (lstrip_chars_starts py_isspace_char s) as [->|(c & r & -> & Hc)]; [done|].
  destruct (rstrip_chars_head py_isspace_char c r Hc) as [r' Hr].
  rewrite Hr, lstrip_chars_head by done.
  rewrite <- Hr. apply rstrip_chars_idem.
Qed.

(** X12. [get_system_prompt] never raises and leaves the store alone.
    It returns the default prompt, or the user's custom prompt stripped,
    and then only when that is not empty: a missing user, missing
    metadata, a prompt that is not a string or is blank, and a failing
    lookup all give the default. *)
Theorem get_system_prompt_outcome user_id st :
  exists evs prompt,
    llm.get_system_prompt W user_id st = (st, evs, Ok prompt)
    /\ (prompt = DEFAULT_SYSTEM_PROMPT W
        \/ exists user metadata custom,
             get_user_by_id W user_id = Ok (Some user)
             /\ user_metadata user = Some metadata
             /\ dict_get "custom_guide_prompt" metadata = PStr custom
             /\ prompt = strip custom /\ prompt <> "" /\ strip prompt = prompt).
Proof.
  cut (post (llm.get_system_prompt W user_id) st (fun st' evs r =>
         st' = st /\ exists prompt, r = Ok prompt
         /\ (prompt = DEFAULT_SYSTEM_PROMPT W
             \/ exists user metadata custom,
                  get_user_by_id W user_id = Ok (Some user)
                  /\ user_metadata user = Some metadata
                  /\ dict_get "custom_guide_prompt" metadata = PStr custom
                  /\ prompt = strip custom /\ prompt <> "" /\ strip prompt = prompt))).
  { intros (st' & evs & r & Hrun & -> & prompt & -> & H)%post_run. eauto. }
  unfold llm.get_system_prompt. do 5 run_step.
  destruct (get_user_by_id W user_id) as [[[[[|kv md]|]]|]|e] eqn:Huser; cbv beta iota;
    cbn [user_metadata];
    try (run_all; split; [done|]; eexists; split; [done|]; by left).
  destruct (dict_get "custom_guide_prompt" (kv :: md)) as [| | | |custom| |] eqn:Hcustom;
    try (run_all; split; [done|]; eexists; split; [done|]; by left).
  destruct (String.eqb_spec custom "") as [->|Hne]; cbn [negb andb];
    [run_all; split; [done|]; eexists; split; [done|]; by left|].
  destruct (String.eqb_spec (strip custom) "") as [Hblank|Hstrip]; cbn [negb];
    [run_all; split; [done|]; eexists; split; [done|]; by left|].
  run_all. split; [done|]. eexists. split; [done|]. right.
  exists (mkUser (Some (kv :: md))), (kv :: md), custom.
  repeat split; try done. apply strip_idem.
Qed.

(** X13. [generate_followup_suggestions] never raises and leaves the
    store alone.  It calls the model once, with the history followed by
    the reply as a model turn and the fixed instruction as a user turn,
    and otherwise only logs; it returns at most 4 suggestions: the strings
    of the array the answer parses to, and none on any failure. *)
Theorem generate_followup_suggestions_bounded history latest_response st :
  exists logs,
    llm.generate_followup_suggestions W history latest_response st
    = (st,
       Log INFO "Generating follow-up suggestions..."
       :: GenerateSuggestions (suggestion_prompt history latest_response)
            (generate_json_content W (suggestion_prompt history latest_response))
       :: logs,
       Ok (parsed_suggestions W
             (generate_json_content W (suggestion_prompt history latest_response))))
    /\ Forall is_log logs
    /\ length (parsed_suggestions W
                 (generate_json_content W (suggestion_prompt history latest_response))) <= 4.
Proof.
  cut (post (llm.generate_followup_suggestions W history latest_response) st
         (fun st' evs r =>
            st' = st
            /\ (exists logs,
                  evs = Log INFO "Generating follow-up suggestions..."
                        :: GenerateSuggestions (suggestion_prompt history latest_response)
                             (generate_json_content W (suggestion_prompt history latest_response))
                        :: logs
                  /\ Forall is_log logs)
            /\ r = Ok (parsed_suggestions W
                         (generate_json_content W (suggestion_prompt history latest_response))))).
  { intros (st' & evs & r & Hrun & -> & (logs & -> & Hlogs) & ->)%post_run.
    exists logs. split; [done|]. split; [done|].
    unfold parsed_suggestions.
    destruct (generate_json_content W _) as [text|]; [|simpl; lia].
    destruct (json_loads W (llm.raw_json_of text)) as [[| | | | |l|]|]; try (simpl; lia).
    destruct (llm.all_str l); [|simpl; lia]. rewrite length_take. lia. }
  unfold llm.generate_followup_suggestions, parsed_suggestions. cbv zeta.
  fold (suggestion_prompt history latest_response).
  destruct (generate_json_content W (suggestion_prompt history latest_response)) as [text|e].
  - do 8 run_step.
    destruct (json_loads W (llm.raw_json_of text)) as [[| | | | |l|]|e]; run_all;
      (split; [done|]); (split; [|done]); eexists; (split; [reflexivity|]);
      repeat constructor.
  - run_all. split; [done|]. split; [|done]. eexists. split; [reflexivity|]. repeat constructor.
Qed.

Lemma string_app_assoc (a b c : string) : (a +:+ b) +:+ c = a +:+ (b +:+ c).
Proof. induction a as [|x a IH]; [done|]. exact (f_equal (String x) IH). Qed.

Lemma rstrip_chars_keep p s c :
  p c = false -> rstrip_chars p (s +:+ String c "") = s +:+ String c "".
Proof.
  intros Hc. induction s as [|x s IH]; simpl; [by rewrite Hc|].
  rewrite IH. by destruct s.
Qed.

(** A string that stripping leaves alone starts and ends with a
    character that is not white space. *)
Lemma strip_fixed body :
  body <> "" -> strip body = body ->
  (exists c r, body = String c r /\ py_isspace_char c = false)
  /\ rstrip_chars py_isspace_char body = body.
Proof.
  unfold strip. intros Hne Hfix.
  destruct (lstrip_chars_starts py_isspace_char body) as [Hl|(c & r & Hl & Hc)].
  - rewrite Hl in Hfix. simpl in Hfix. congruence.
  - rewrite Hl in Hfix.
    destruct (rstrip_chars_head py_isspace_char c r Hc) as [r' Hr].
    assert (body = String c r') as Hbody by congruence.
    assert (lstrip_chars py_isspace_char body = body) as Hsame.
    { rewrite Hbody. by apply lstrip_chars_head. }
    split; [eauto|]. rewrite Hsame in Hl. by rewrite <- Hl in Hfix.
Qed.

(** X14. Line 99 recovers the body of a fenced answer: for a body that
    is not empty and has no white space around it, the text
    [```json], newline, body, newline, [```] is reduced to the body.
    An unfenced body is left alone provided it neither starts with one
    of the characters of [```json] nor ends with a backquote, [lstrip]
    and [rstrip] taking their argument as a set of characters. *)
Theorem raw_json_of_fenced (body : string) :
  body <> "" -> strip body = body ->
  llm.raw_json_of (fence +:+ "json" +:+ newline +:+ body +:+ newline +:+ fence) = body
  /\ (lstrip (fence +:+ "json") body = body -> rstrip fence body = body ->
      llm.raw_json_of body = body).
Proof.
  intros Hne Hfix.
  destruct (strip_fixed body Hne Hfix) as [(c & r & Hbody & Hc) Hright].
  split; [|by unfold llm.raw_json_of; intros Hl Hr; rewrite Hfix, Hl, Hr].
  unfold llm.raw_json_of.
  assert (strip (fence +:+ "json" +:+ newline +:+ body +:+ newline +:+ fence)
          = fence +:+ "json" +:+ newline +:+ body +:+ newline +:+ fence) as ->.
  { unfold strip.
    assert (forall rest, lstrip_chars py_isspace_char (fence +:+ rest) = fence +:+ rest)
      as -> by done.
    replace (fence +:+ "json" +:+ newline +:+ body +:+ newline +:+ fence)
      with ((fence +:+ "json" +:+ newline +:+ body +:+ newline +:+ "``") +:+ "`")
      by (by rewrite !string_app_assoc).
    by apply rstrip_chars_keep. }
  assert (lstrip (fence +:+ "json") (fence +:+ "json" +:+ newline +:+ body +:+ newline +:+ fence)
          = newline +:+ body +:+ newline +:+ fence) as ->.
  { unfold lstrip.
    change (fence +:+ "json" +:+ newline +:+ body +:+ newline +:+ fence)
      with ((fence +:+ "json") +:+ (newline +:+ body +:+ newline +:+ fence)).
    rewrite lstrip_chars_app by reflexivity. by apply lstrip_chars_head. }
  assert (rstrip fence (newline +:+ body +:+ newline +:+ fence) = newline +:+ body +:+ newline)
    as ->.
  { unfold rstrip.
    replace (newline +:+ body +:+ newline +:+ fence)
      with ((newline +:+ body +:+ newline) +:+ fence) by (by rewrite !string_app_assoc).
    rewrite rstrip_chars_app by reflexivity.
    replace (newline +:+ body +:+ newline) with ((newline +:+ body) +:+ newline)
      by (by rewrite !string_app_assoc).
    by apply rstrip_chars_keep. }
  unfold strip. rewrite (lstrip_chars_app _ newline) by reflexivity.
  assert (lstrip_chars py_isspace_char (body +:+ newline) = body +:+ newline) as ->.
  { rewrite Hbody. exact (lstrip_chars_head py_isspace_char c (r +:+ newline) Hc). }
  by rewrite rstrip_chars_app.
Qed.

(** *** Context selection *)

Lemma first_seen_from_sublist seen (l : list Message) : first_seen_from seen l `sublist_of` l.
Proof.
  revert seen. induction l as [|m l IH]; intros seen; simpl; [done|].
  destruct (decide (schemas.id m ∈ seen)); [apply sublist_cons | apply sublist_skip]; apply IH.
Qed.

Lemma merge_context_sublist (relevant recent : list Message) :
  llm.merge_context relevant recent `sublist_of` relevant ++ recent.
Proof. rewrite merge_context_concat. apply first_seen_from_sublist. Qed.

Lemma select_context_subset (relevant messages_db : list Message) m :
  m ∈ llm.select_context relevant messages_db -> m ∈ relevant \/ m ∈ last_n 3 messages_db.
Proof.
  intros Hm. apply elem_of_app.
  eapply elem_of_sublist; [|apply merge_context_sublist].
  unfold llm.select_context in Hm. destruct (_ <? _)%nat; [|done].
  eapply elem_of_sublist; [exact Hm|]. apply sublist_drop.
Qed.

Lemma select_context_uncut (relevant messages_db : list Message) :
  length relevant <= 4 ->
  llm.select_context relevant messages_db = llm.merge_context relevant (last_n 3 messages_db).
Proof.
  intros Hlen. unfold llm.select_context, llm.MAX_CONTEXT_MSGS.
  destruct (Nat.ltb_spec 7 (length (llm.merge_context relevant (last_n 3 messages_db))))
    as [Hlt|]; [|done].
  pose proof (sublist_length _ _ (merge_context_sublist relevant (last_n 3 messages_db))) as Hsub.
  rewrite length_app in Hsub. pose proof (last_n_length 3 messages_db). lia.
Qed.

Lemma merge_context_covers (relevant recent : list Message) m :
  m ∈ relevant \/ m ∈ recent ->
  schemas.id m ∈ (schemas.id <$> llm.merge_context relevant recent).
Proof.
  intros Hm. rewrite merge_context_concat.
  apply first_seen_from_covers; [|apply not_elem_of_nil].
  apply list_elem_of_fmap_2. by apply elem_of_app.
Qed.

(** X15. Every selected message is one of the similarity results or one
    of the last three messages of the log.  With at most 4 similarity
    results (the search asks for 3) the cap of 7 never cuts: the
    selection is the whole merge, and every similarity result and each
    of the last three messages of the log is in it, by id. *)
Theorem select_context_sources (relevant messages_db : list Message) :
  (forall m, m ∈ llm.select_context relevant messages_db ->
             m ∈ relevant \/ m ∈ last_n 3 messages_db)
  /\ (length relevant <= 4 ->
      llm.select_context relevant messages_db
      = llm.merge_context relevant (last_n 3 messages_db)
      /\ forall m, m ∈ relevant \/ m ∈ last_n 3 messages_db ->
                   schemas.id m ∈ (schemas.id <$> llm.select_context relevant messages_db)).
Proof.
  split; [apply select_context_subset|]. intros Hlen.
  split; [by apply select_context_uncut|]. intros m Hm.
  rewrite select_context_uncut by done. by apply merge_context_covers.
Qed.

End Helpers.

(** ** llm.py: the turn as a whole *)

#[local] Hint Resolve generate_embedding_quiet client_get_quiet fetch_image_data_quiet
  format_item_quiet format_content_for_gemini_quiet get_system_prompt_quiet
  generate_followup_suggestions_quiet walk_step_quiet assemble_prompt_quiet
  find_relevant_messages_quiet get_messages_by_quest_quiet prepare_context_quiet : quiet.

Section WholeTurn.

Context (W : Services) (user_id : string) (quest_id : uuid).

Lemma at_most_one_reply_frame st st' ev1 ev2 ev3 :
  Forall benign ev1 -> Forall benign ev3 ->
  at_most_one_reply W user_id quest_id st st' ev2 ->
  at_most_one_reply W user_id quest_id st st' (ev1 ++ ev2 ++ ev3).
Proof.
  intros H1 H3 [[-> H2]|(prompt & reply & embedding & metadata & Hgen & -> & Hin)].
  - left. split; [done|]. rewrite !Forall_app. repeat split; [|done|];
      (eapply Forall_impl; [eassumption|]); apply benign_not_add_message.
  - right. exists prompt, reply, embedding, metadata. repeat split; [done|].
    rewrite !elem_of_app. auto.
Qed.

Lemma quiet_at_most_one_reply {A} (m : M A) st :
  respects eq benign m ->
  post m st (fun st' evs _ => at_most_one_reply W user_id quest_id st st' evs).
Proof.
  intros Hm. eapply post_mono; [apply Hm|]. intros st' evs r [<- Hev]. left.
  split; [done|]. eapply Forall_impl; [exact Hev|]. apply benign_not_add_message.
Qed.

Lemma quiet_then_at_most_one_reply {A B} (m : M A) (k : A -> M B) st :
  respects eq benign m ->
  (forall a, post (k a) st (fun st' evs _ => at_most_one_reply W user_id quest_id st st' evs)) ->
  post (bind m k) st (fun st' evs _ => at_most_one_reply W user_id quest_id st st' evs).
Proof.
  intros Hm Hk. run_step. eapply post_mono; [apply Hm|].
  intros st1 ev1 [a|e] [<- Hev1].
  - eapply post_mono; [apply Hk|]. intros st2 ev2 r Hone.
    rewrite <- (app_nil_r ev2). by apply at_most_one_reply_frame.
  - left. split; [done|]. eapply Forall_impl; [exact Hev1|]. apply benign_not_add_message.
Qed.

Lemma respond_at_most_one_reply formatted_history text final_prompt st :
  post (llm.respond W user_id quest_id formatted_history text final_prompt) st
    (fun st' evs _ => at_most_one_reply W user_id quest_id st st' evs).
Proof.
  destruct (generate_content W final_prompt) as [reply|e] eqn:Hgen.
  - destruct formatted_history as [|turn formatted_history].
    + unfold post. rewrite (respond_empty_history W _ _ _ _ reply st Hgen). left.
      split; [done|]. repeat constructor; simpl; tauto.
    + destruct (respond_persists W user_id quest_id (turn :: formatted_history) text
                  final_prompt reply st) as (history & evs1 & evs2 & embedding & _ & Hrun);
        [done|done|].
      unfold post. cbv zeta in Hrun. rewrite Hrun. right.
      eexists final_prompt, reply, embedding, _. repeat split; [done|].
      cbn [events_of fst snd]. apply elem_of_app. right. by left.
  - unfold llm.respond. cbv zeta. rewrite Hgen. do 6 run_step. left.
    split; [done|]. repeat constructor; simpl; tauto.
Qed.

Tactic Notation "lookup_prefix" "as" simple_intropattern(x) :=
  apply quiet_then_at_most_one_reply; [solve [respects_tac] | intros x].

(** The shape of the turn: a log record, then a body whose exceptions
    end in a log record. *)
Lemma guarded_at_most_one_reply (body : M unit) lvl msg lvl' msg' st :
  post body st (fun st' evs _ => at_most_one_reply W user_id quest_id st st' evs) ->
  post (log lvl msg;; try_except body (fun _ => log lvl' msg')) st
    (fun st' evs r => r = Ok tt /\ at_most_one_reply W user_id quest_id st st' evs).
Proof.
  intros Hbody. do 3 run_step. eapply post_mono; [exact Hbody|].
  intros st1 ev1 [[]|e] Hone.
  - split; [done|].
    replace ([Log lvl msg] ++ ev1) with ([Log lvl msg] ++ ev1 ++ []) by by rewrite app_nil_r.
    apply at_most_one_reply_frame; [by repeat constructor|constructor|done].
  - run_step. split; [done|].
    apply at_most_one_reply_frame; [by repeat constructor|by repeat constructor|done].
Qed.

Lemma generate_ai_response_at_most_one_reply st :
  post (llm.generate_ai_response W user_id quest_id) st
    (fun st' evs r => r = Ok tt /\ at_most_one_reply W user_id quest_id st st' evs).
Proof.
  unfold llm.generate_ai_response. apply guarded_at_most_one_reply.
  lookup_prefix as messages_db.
  destruct messages_db as [|msg messages_db]; [apply quiet_at_most_one_reply; respects_tac|].
  destruct (llm.latest_user (msg :: messages_db)) as [latest_user_message|];
    [|apply quiet_at_most_one_reply; respects_tac].
  lookup_prefix as latest_user_content_text.
  lookup_prefix as context_messages_for_history.
  lookup_prefix as _.
  lookup_prefix as formatted_history.
  lookup_prefix as latest_user_parts.
  destruct latest_user_parts as [|part latest_user_parts];
    [apply quiet_at_most_one_reply; respects_tac|].
  lookup_prefix as effective_system_prompt.
  lookup_prefix as final_prompt.
  apply respond_at_most_one_reply.
Qed.

(** X16. A turn never raises, whatever the services do, and leaves
    behind at most one message: either the store is the one it started
    from and [add_message] was not called, or the store is the one it
    started from with one model message added to the quest, holding a
    reply of the generation model. *)
Theorem turn_adds_at_most_one_message st :
  result_of (llm.generate_ai_response W user_id quest_id st) = Ok tt
  /\ at_most_one_reply W user_id quest_id st
       (store_of (llm.generate_ai_response W user_id quest_id st))
       (events_of (llm.generate_ai_response W user_id quest_id st)).
Proof. apply generate_ai_response_at_most_one_reply. Qed.

Lemma turn_on_empty_log st :
  database.get_messages_by_quest st user_id quest_id = [] ->
  llm.generate_ai_response W user_id quest_id st
  = (st,
     [ Log INFO "Generating AI response for Quest {quest_id}";
       GetMessagesByQuest user_id quest_id;
       Log WARNING "No messages for Quest {quest_id}." ],
     Ok tt).
Proof.
  intros Hempty. apply post_eq. unfold llm.generate_ai_response.
  do 4 run_step. unfold post, llm.get_messages_by_quest. simpl. by rewrite Hempty.
Qed.

(** X17. A turn on a quest that is not the user's, or whose log reads
    empty, does nothing but log: it reads the log, warns and returns
    without calling any service and without changing the store. *)
Theorem empty_log_aborts st :
  database.get_quest_by_id st user_id quest_id = None
  \/ database.get_messages_by_quest st user_id quest_id = [] ->
  llm.generate_ai_response W user_id quest_id st
  = (st,
     [ Log INFO "Generating AI response for Quest {quest_id}";
       GetMessagesByQuest user_id quest_id;
       Log WARNING "No messages for Quest {quest_id}." ],
     Ok tt).
Proof.
  intros [Hnone|Hempty]; apply turn_on_empty_log; [|exact Hempty].
  unfold database.get_messages_by_quest. by rewrite Hnone.
Qed.

(** *** A turn that succeeds *)

Lemma latest_user_last (before : list Message) latest :
  schemas.role latest = "user" -> llm.latest_user (before ++ [latest]) = Some latest.
Proof.
  intros Hrole. unfold llm.latest_user. rewrite rev_app_distr. simpl. by rewrite Hrole.
Qed.

Lemma prepare_context_relevant messages_db text st :
  exists evs relevant,
    llm.prepare_context W quest_id messages_db text st
    = (st, evs, Ok (llm.select_context relevant messages_db))
    /\ (relevant = []
        \/ exists embedding,
             relevant = database.find_relevant_messages W st quest_id embedding
                          llm.MATCH_THRESHOLD 3).
Proof.
  cut (post (llm.prepare_context W quest_id messages_db text) st (fun st' evs r =>
         st' = st /\ exists relevant, r = Ok (llm.select_context relevant messages_db)
         /\ (relevant = []
             \/ exists embedding,
                  relevant = database.find_relevant_messages W st quest_id embedding
                               llm.MATCH_THRESHOLD 3))).
  { intros (st' & evs & r & Hrun & -> & relevant & -> & H)%post_run. eauto. }
  destruct (generate_embedding_total W text st) as (evs & embedding & Hemb).
  unfold llm.prepare_context. run_call Hemb.
  destruct embedding as [[|x embedding]|]; run_step;
    try (do 3 run_step; run_step; split; [done|]; exists []; by eauto).
  unfold post at 1, llm.find_relevant_messages.
  cbn [store_of events_of result_of fst snd]. run_step. split; [done|]. eauto.
Qed.

Lemma format_history_for_gemini_ok (db_messages : list Message) :
  Forall (fun m => exists text, llm.extractTextContent W (schemas.content m) = Ok text)
    db_messages ->
  llm.format_history_for_gemini W db_messages = Ok (omap (history_turn W) db_messages).
Proof.
  induction 1 as [|msg rest [text Htext] _ IH]; [done|].
  rewrite format_history_for_gemini_cons, Htext, IH. cbn [omap list_omap].
  unfold history_turn. rewrite Htext. by destruct (String.eqb text "").
Qed.

Lemma get_system_prompt_total st :
  exists evs prompt, llm.get_system_prompt W user_id st = (st, evs, Ok prompt).
Proof.
  cut (post (llm.get_system_prompt W user_id) st (fun st' evs r =>
         st' = st /\ exists prompt, r = Ok prompt)).
  { intros (st' & evs & r & Hrun & -> & prompt & ->)%post_run. eauto. }
  unfold llm.get_system_prompt. do 5 run_step.
  destruct (get_user_by_id W user_id) as [[[[[|kv md]|]]|]|e]; cbv beta iota;
    cbn [user_metadata]; run_all; eauto.
Qed.

Lemma last_n_last {A} (n : nat) (l : list A) (x : A) : 0 < n -> x ∈ last_n n (l ++ [x]).
Proof.
  intros Hn. unfold last_n. rewrite length_app. simpl.
  rewrite drop_app_le by lia. apply elem_of_app. right. by left.
Qed.

Lemma same_id_same_message (l : list Message) x y :
  NoDup (schemas.id <$> l) -> x ∈ l -> y ∈ l -> schemas.id x = schemas.id y -> x = y.
Proof.
  intros Hnd [i Hi]%list_elem_of_lookup [j Hj]%list_elem_of_lookup Hid.
  assert (i = j) as ->; [|congruence].
  apply (NoDup_lookup (schemas.id <$> l) i j (schemas.id x)); [done| |];
    rewrite list_lookup_fmap; [by rewrite Hi | by rewrite Hj, Hid].
Qed.

Lemma suggestions_metadata_valid (suggestions : list string) :
  schemas.valid_metadata (llm.suggestions_metadata suggestions) = true.
Proof. by destruct suggestions. Qed.

Lemma text_turn_runs st before latest text reply :
  database.get_messages_by_quest st user_id quest_id = before ++ [latest] ->
  schemas.role latest = "user" ->
  schemas.content latest = PStr text ->
  text <> "" ->
  NoDup (schemas.id <$> before ++ [latest]) ->
  Forall (fun m => exists t, llm.extractTextContent W (schemas.content m) = Ok t) before ->
  (forall embedding,
     length (database.find_relevant_messages W st quest_id embedding llm.MATCH_THRESHOLD 3) <= 3
     /\ database.find_relevant_messages W st quest_id embedding llm.MATCH_THRESHOLD 3
        ⊆ before ++ [latest]) ->
  (forall prompt, generate_content W prompt = Ok reply) ->
  post (llm.generate_ai_response W user_id quest_id) st (fun st' evs r =>
    r = Ok tt
    /\ exists embedding metadata,
         st' = (database.add_message W st user_id quest_id "model" (PStr reply)
                  embedding metadata).1
         /\ AddMessage user_id quest_id "model" (PStr reply) embedding metadata ∈ evs
         /\ schemas.valid_metadata metadata = true).
Proof.
  intros Hlog Hrole Hcontent Htext Hnd Hbefore Hsimilar Hgen.
  assert (Forall (fun m => exists t, llm.extractTextContent W (schemas.content m) = Ok t)
            (before ++ [latest])) as Hall.
  { apply Forall_app. split; [done|]. constructor; [|done]. rewrite Hcontent. by eexists. }
  destruct (prepare_context_relevant (before ++ [latest]) text st)
    as (evs_c & relevant & Hctx & Hrelevant).
  assert (length relevant <= 4 /\ relevant ⊆ before ++ [latest]) as [Hlen Hsub].
  { destruct Hrelevant as [->|[embedding ->]];
      [split; [simpl; lia | intros x Hx; by apply elem_of_nil in Hx]|].
    destruct (Hsimilar embedding). split; [lia|done]. }
  set (selected := llm.select_context relevant (before ++ [latest])) in *.
  assert (selected ⊆ before ++ [latest]) as Hselected.
  { intros m [Hm|Hm]%select_context_subset; [by apply Hsub|].
    eapply elem_of_sublist; [exact Hm|]. apply sublist_drop. }
  assert (latest ∈ selected) as Hlatest.
  { assert (schemas.id latest ∈ (schemas.id <$> selected)) as Hid.
    { subst selected. rewrite select_context_uncut by done. apply merge_context_covers.
      right. apply last_n_last. lia. }
    apply list_elem_of_fmap in Hid as (x & Hid & Hx).
    assert (latest ∈ before ++ [latest]) as Hin by (apply elem_of_app; right; by left).
    by rewrite (same_id_same_message (before ++ [latest]) latest x Hnd Hin (Hselected x Hx) Hid). }
  assert (llm.format_history_for_gemini W selected = Ok (omap (history_turn W) selected))
    as Hhistory.
  { apply format_history_for_gemini_ok. apply Forall_forall. intros m Hm.
    rewrite Forall_forall in Hall. by apply Hall, Hselected. }
  assert (omap (history_turn W) selected <> []) as Hnonempty.
  { intros Hnil.
    assert (mkTurn "user" [TextPart (PStr text)] ∈ omap (history_turn W) selected) as Hin.
    { apply list_elem_of_omap. exists latest. split; [done|].
      unfold history_turn. rewrite Hcontent, Hrole. simpl.
      by destruct (String.eqb_spec text ""). }
    rewrite Hnil in Hin. by apply elem_of_nil in Hin. }
  destruct (get_system_prompt_total st) as (evs_p & prompt & Hprompt).
  destruct (assemble_prompt_run prompt (omap (history_turn W) selected) [TextPart (PStr text)] st)
    as (evs_a & Hassemble & _).
  cbv zeta in Hassemble.
  destruct (respond_persists W user_id quest_id (omap (history_turn W) selected) text
              ((llm.preamble prompt
                ++ accepted_turns "model" (llm.history_to_append (omap (history_turn W) selected)))
               ++ (if String.eqb
                        (last_role_of "model"
                           (llm.preamble prompt
                            ++ accepted_turns "model"
                                 (llm.history_to_append (omap (history_turn W) selected))))
                        "user"
                   then [llm.FILLER] else [])
               ++ [mkTurn "user" [TextPart (PStr text)]])
              reply st Hnonempty (Hgen _))
    as (history & evs1 & evs2 & embedding & _ & Hrespond).
  cbv zeta in Hrespond.
  unfold llm.generate_ai_response. do 4 run_step.
  unfold post at 1, llm.get_messages_by_quest.
  cbn [store_of events_of result_of fst snd]. rewrite Hlog.
  assert (forall a b : M unit,
            match before ++ [latest] with [] => a | _ :: _ => b end = b) as ->
    by (intros; by destruct before).
  rewrite (latest_user_last before latest Hrole).
  run_step. rewrite Hcontent. cbn [llm.extractTextContent]. run_step.
  run_call Hctx. do 3 run_step. fold selected. rewrite Hhistory. run_step.
  cbn [llm.format_content_for_gemini]. do 2 run_step.
  run_call Hprompt. run_call Hassemble.
  unfold post. rewrite Hrespond. cbn [store_of events_of result_of fst snd].
  split; [done|]. eexists _, _. split; [reflexivity|].
  split; [|apply suggestions_metadata_valid].
  rewrite !elem_of_app, !elem_of_cons. tauto.
Qed.

(** X18. A turn that succeeds.  When the log ends with a user message
    holding a non-empty text, the ids of the log are distinct, the text of
    every message can be extracted, the similarity search returns at most
    3 messages, all of the log, and the generation model replies, the
    turn stores exactly that reply as a model message of the quest,
    whatever the embedding service, the suggestion call and the prompt
    lookup do. *)
Theorem text_turn_persists_reply st before latest text reply :
  database.get_messages_by_quest st user_id quest_id = before ++ [latest] ->
  schemas.role latest = "user" ->
  schemas.content latest = PStr text ->
  text <> "" ->
  NoDup (schemas.id <$> before ++ [latest]) ->
  Forall (fun m => exists t, llm.extractTextContent W (schemas.content m) = Ok t) before ->
  (forall embedding,
     length (database.find_relevant_messages W st quest_id embedding llm.MATCH_THRESHOLD 3) <= 3
     /\ database.find_relevant_messages W st quest_id embedding llm.MATCH_THRESHOLD 3
        ⊆ before ++ [latest]) ->
  (forall prompt, generate_content W prompt = Ok reply) ->
  exists evs embedding metadata,
    llm.generate_ai_response W user_id quest_id st
    = ((database.add_message W st user_id quest_id "model" (PStr reply) embedding metadata).1,
       evs, Ok tt)
    /\ AddMessage user_id quest_id "model" (PStr reply) embedding metadata ∈ evs.
Proof.
  intros Hlog Hrole Hcontent Htext Hnd Hbefore Hsimilar Hgen.
  destruct (proj1 (post_run _ _ _)
              (text_turn_runs st before latest text reply
                 Hlog Hrole Hcontent Htext Hnd Hbefore Hsimilar Hgen))
    as (st' & evs & r & Hrun & -> & embedding & metadata & -> & Hin & _).
  by exists evs, embedding, metadata.
Qed.

End WholeTurn.

(** ** llm.py: the similarity search *)

Section Search.

Context (W : Services).

(** X29. The embedding of the latest user text drives the search.  When
    the text is not blank and the embedding service answers with a dict
    that has an ['embedding'], a non-empty list makes exactly one
    similarity search, for that embedding, with threshold 0.75 and at
    most 3 results, and the context is selected from its results and the
    log; an empty list, being falsy, skips the search, and so does
    anything that is not a list, after an error record: the context is
    then selected from the log alone. *)
Theorem embedding_drives_search quest_id messages_db text answer st :
  blank text = false ->
  embed_content W text = Ok answer ->
  llm.dict_has_key "embedding" answer = true ->
  llm.prepare_context W quest_id messages_db text st
  = match dict_get "embedding" answer with
    | PList (x :: embedding) =>
        (st, [EmbedContent text; MatchQuestMessages quest_id (x :: embedding)],
         Ok (llm.select_context
               (database.find_relevant_messages W st quest_id (x :: embedding)
                  llm.MATCH_THRESHOLD 3)
               messages_db))
    | PList [] =>
        (st,
         [ EmbedContent text;
           Log WARNING "No query embedding for quest {quest_id}, skipping similarity search." ],
         Ok (llm.select_context [] messages_db))
    | _ =>
        (st,
         [ EmbedContent text;
           Log ERROR "Failed to generate valid embedding. API Result: {result}";
           Log WARNING "No query embedding for quest {quest_id}, skipping similarity search." ],
         Ok (llm.select_context [] messages_db))
    end.
Proof.
  unfold blank. intros Hblank Hanswer Hkey.
  unfold llm.prepare_context, llm.generate_embedding, llm.find_relevant_messages,
    bind, try_except, lift, emit, log, ret.
  rewrite Hblank, Hanswer, Hkey. cbn [app].
  destruct (dict_get "embedding" answer) as [| | | | |[|x embedding]|]; reflexivity.
Qed.

End Search.

(** ** llm.py: turns that stop early *)

Section StoppedTurn.

Context (W : Services) (user_id : string) (quest_id : uuid).

Lemma harmless_bind {A B} (m : M A) (k : A -> M B) (K : A -> Prop) st :
  post m st (fun st' evs r => harmless st st' evs /\ forall a, r = Ok a -> K a) ->
  (forall a, K a -> post (k a) st (fun st' evs _ => harmless st st' evs)) ->
  post (bind m k) st (fun st' evs _ => harmless st st' evs).
Proof.
  intros Hm Hk. run_step. eapply post_mono; [exact Hm|].
  intros st1 ev1 [a|e] [[-> Hev1] Ha]; [|done].
  eapply post_mono; [apply Hk; by apply Ha|].
  intros st2 ev2 r [-> Hev2]. split; [done|]. by apply Forall_app.
Qed.

Lemma harmless_then {A B} (m : M A) (k : A -> M B) st :
  respects eq benign m ->
  (forall a, post (k a) st (fun st' evs _ => harmless st st' evs)) ->
  post (bind m k) st (fun st' evs _ => harmless st st' evs).
Proof.
  intros Hm Hk. apply (harmless_bind m k (fun _ => True)); [|by intros a _].
  eapply post_mono; [apply Hm|]. by intros st' evs r [<- Hev].
Qed.

Lemma harmless_guarded (body : M unit) lvl msg lvl' msg' st :
  post body st (fun st' evs _ => harmless st st' evs) ->
  post (log lvl msg;; try_except body (fun _ => log lvl' msg')) st
    (fun st' evs r => r = Ok tt /\ harmless st st' evs).
Proof.
  intros Hbody. do 3 run_step. eapply post_mono; [exact Hbody|].
  intros st1 ev1 [[]|e] [-> Hev].
  - split; [done|]. split; [done|]. by constructor.
  - run_step. split; [done|]. split; [done|]. constructor; [done|].
    apply Forall_app. split; [done|]. by repeat constructor.
Qed.

Lemma format_content_for_gemini_dropped items st :
  Forall (fun item => is_dropped_item item = true) items ->
  post (llm.format_content_for_gemini W (PList items)) st (fun st' evs r =>
    harmless st st' evs /\ forall parts, r = Ok parts -> parts = []).
Proof.
  intros Hdropped.
  pose proof (format_content_for_gemini_quiet W (PList items) st) as Hquiet.
  pose proof (format_items_all W items [] st) as Hrun.
  unfold llm.format_content_for_gemini, post in *.
  destruct Hquiet as [<- Hev]. destruct Hrun as (_ & (blocks & -> & Hlen) & _).
  split; [done|]. intros parts [= <-]. apply length_zero_iff_nil. rewrite Hlen. clear -Hdropped.
  induction Hdropped as [|item items Hitem _ IH]; simpl; [done|]. by rewrite Hitem.
Qed.

(** X28. A latest user message without anything to send stops the turn.
    When the content of the latest user message is a list in which every
    item is a dict that is neither a text item nor an image reference (an
    empty list, a text item with an empty text), the turn returns
    normally, leaves the store as it was and neither calls the
    generation model nor stores a message. *)
Theorem unformattable_message_stops_turn st latest items :
  llm.latest_user (database.get_messages_by_quest st user_id quest_id) = Some latest ->
  schemas.content latest = PList items ->
  Forall (fun item => is_dropped_item item = true) items ->
  result_of (llm.generate_ai_response W user_id quest_id st) = Ok tt
  /\ store_of (llm.generate_ai_response W user_id quest_id st) = st
  /\ Forall benign (events_of (llm.generate_ai_response W user_id quest_id st)).
Proof.
  intros Hlatest Hcontent Hdropped.
  change (post (llm.generate_ai_response W user_id quest_id) st
            (fun st' evs r => r = Ok tt /\ harmless st st' evs)).
  unfold llm.generate_ai_response. apply harmless_guarded.
  apply (harmless_bind _ _
           (fun messages_db => messages_db = database.get_messages_by_quest st user_id quest_id)).
  { unfold post, llm.get_messages_by_quest. cbn [store_of events_of result_of fst snd].
    split; [split; [done|by repeat constructor]|]. by intros a [= <-]. }
  intros messages_db ->.
  destruct (database.get_messages_by_quest st user_id quest_id) as [|msg messages_db];
    [discriminate Hlatest|].
  rewrite Hlatest, Hcontent.
  apply harmless_then; [respects_tac|intros latest_user_content_text].
  apply harmless_then; [respects_tac|intros context_messages_for_history].
  apply harmless_then; [respects_tac|intros _].
  apply harmless_then; [respects_tac|intros formatted_history].
  apply (harmless_bind _ _ (fun parts => parts = []));
    [by apply format_content_for_gemini_dropped|].
  intros latest_user_parts ->. run_step. split; [done|]. by repeat constructor.
Qed.

End StoppedTurn.

Ltac close_events :=
  let Hev := fresh "Hev" in
  intros ? ? ? (l1 & l2 & a & -> & Hev & ?);
  exists l1, l2, a; split; [done|]; split; [|done];
  rewrite <- Hev; simpl; by rewrite <- ?app_assoc.

(** ** llm.py: the image task *)

Section ImageTask.

Context (W : Services) (P : Platform).

Lemma file_path_png user_id :
  llm.file_path P user_id "image/png"
  = user_id +:+ "/generated_" +:+ pretty (timestamp_ms P) +:+ "_"
    +:+ pretty (randint P 100 999) +:+ ".png".
Proof. reflexivity. Qed.

Lemma generate_and_upload_outcome user_id st :
  exists logs outcome,
    llm.generate_and_upload P user_id st = (st, logs, outcome)
    /\ Forall is_log logs
    /\ match published_url P user_id with
       | Some url => url <> "" /\ outcome = Ok (Some url, None)
       | None =>
           (exists e, outcome = Raise e)
           \/ exists reason, reason <> "" /\ outcome = Ok (None, Some reason)
       end.
Proof.
  cut (post (llm.generate_and_upload P user_id) st (fun st' logs outcome =>
         st' = st /\ Forall is_log logs
         /\ match published_url P user_id with
            | Some url => url <> "" /\ outcome = Ok (Some url, None)
            | None =>
                (exists e, outcome = Raise e)
                \/ exists reason, reason <> "" /\ outcome = Ok (None, Some reason)
            end)).
  { intros (st' & evs & r & Hrun & -> & ? & ?)%post_run. eauto. }
  unfold llm.generate_and_upload, published_url. rewrite file_path_png.
  run_step. run_step.
  destruct (render_png P) as [[|b image_bytes]|e]; cbn [andb negb String.eqb Ascii.eqb].
  - run_step. split; [done|]. split; [by constructor|].
    right. eexists. split; [|reflexivity]. discriminate.
  - change (negb ("image/png" =? "")) with true. cbv iota.
    run_step. run_step. run_step. run_step.
    destruct (storage_upload P _ _ _) as [[]|e];
      [|split; [done|]; split; [simpl; repeat constructor | left; by eexists]].
    run_step. run_step.
    destruct (get_public_url P _) as [url_response|e];
      [|split; [done|]; split; [simpl; repeat constructor | left; by eexists]].
    destruct url_response as [| | | |url| |]; cbn [andb truthy];
      try (destruct (String.eqb_spec url "") as [->|Hurl]; cbn [negb]);
      run_all; (split; [done|]); (split; [simpl; repeat constructor|]);
      first [done | right; eexists; (split; [|reflexivity]); discriminate].
  - split; [done|]. split; [by constructor|]. left. by eexists.
Qed.

Lemma if_truthy_nonempty reason : reason <> "" -> llm.if_truthy (Some reason) = Some reason.
Proof. intros Hne. unfold llm.if_truthy. by destruct (String.eqb_spec reason ""). Qed.

Lemma string_app_nonempty (a b : string) : a <> "" -> a +:+ b <> "".
Proof. by destruct a. Qed.

Lemma handle_image_generation_request_run user_id quest_id prompt st :
  exists logs1 logs2 answer,
    llm.handle_image_generation_request W P user_id quest_id prompt st
    = ((database.add_message W st user_id quest_id "model"
          (PList [llm.text_item (request_line prompt); answer]) None None).1,
       logs1
       ++ AddMessage user_id quest_id "model"
            (PList [llm.text_item (request_line prompt); answer]) None None
       :: logs2,
       Ok tt)
    /\ Forall is_log logs1 /\ Forall is_log logs2
    /\ schemas.valid_content (PList [llm.text_item (request_line prompt); answer]) = true
    /\ match published_url P user_id with
       | Some url => answer = llm.image_url_item url
       | None => exists reason, reason <> "" /\ answer = apology reason
       end.
Proof.
  destruct (generate_and_upload_outcome user_id st) as (logs & outcome & Hrun & Hlogs & Hout).
  cut (post (llm.handle_image_generation_request W P user_id quest_id prompt) st
         (fun st' evs r =>
            exists logs1 logs2 answer,
              st' = (database.add_message W st user_id quest_id "model"
                       (PList [llm.text_item (request_line prompt); answer]) None None).1
              /\ evs = logs1
                       ++ AddMessage user_id quest_id "model"
                            (PList [llm.text_item (request_line prompt); answer]) None None
                       :: logs2
              /\ r = Ok tt
              /\ Forall is_log logs1 /\ Forall is_log logs2
              /\ schemas.valid_content (PList [llm.text_item (request_line prompt); answer])
                 = true
              /\ match published_url P user_id with
                 | Some url => answer = llm.image_url_item url
                 | None => exists reason, reason <> "" /\ answer = apology reason
                 end)).
  { intros (st' & evs & r & -> & l1 & l2 & answer & -> & -> & -> & ?)%post_run.
    by exists l1, l2, answer. }
  unfold llm.handle_image_generation_request. do 4 run_step.
  unfold post at 1. rewrite Hrun. cbn [store_of events_of result_of fst snd].
  assert (forall answer,
            match published_url P user_id with
            | Some url => answer = llm.image_url_item url
            | None => exists reason, reason <> "" /\ answer = apology reason
            end ->
            post
              (llm.add_message W user_id quest_id "model"
                 (PList [llm.text_item (request_line prompt); answer]) None None;;
               log INFO "Image generation result message saved for quest {quest_id}")
              st
              (fun st2 ev2 r2 =>
                 exists logs2,
                   st2 = (database.add_message W st user_id quest_id "model"
                            (PList [llm.text_item (request_line prompt); answer]) None None).1
                   /\ ev2 = AddMessage user_id quest_id "model"
                              (PList [llm.text_item (request_line prompt); answer]) None None
                            :: logs2
                   /\ r2 = Ok tt /\ Forall is_log logs2
                   /\ schemas.valid_content
                        (PList [llm.text_item (request_line prompt); answer]) = true))
    as Htail.
  { intros answer Hanswer. run_step. unfold post at 1, llm.add_message.
    cbn [store_of events_of result_of fst snd database.add_message]. run_step.
    eexists. split; [reflexivity|]. split; [reflexivity|]. split; [done|].
    split; [repeat constructor|].
    destruct (published_url P user_id) as [url|]; [by subst|].
    by destruct Hanswer as (reason & _ & ->). }
  assert (forall answer (pre : list event),
            Forall is_log pre ->
            match published_url P user_id with
            | Some url => answer = llm.image_url_item url
            | None => exists reason, reason <> "" /\ answer = apology reason
            end ->
            post
              (llm.add_message W user_id quest_id "model"
                 (PList [llm.text_item (request_line prompt); answer]) None None;;
               log INFO "Image generation result message saved for quest {quest_id}")
              st
              (fun st2 ev2 r2 =>
                 exists logs1 logs2 answer,
                   st2 = (database.add_message W st user_id quest_id "model"
                            (PList [llm.text_item (request_line prompt); answer]) None None).1
                   /\ pre ++ ev2
                      = logs1
                        ++ AddMessage user_id quest_id "model"
                             (PList [llm.text_item (request_line prompt); answer]) None None
                        :: logs2
                   /\ r2 = Ok tt
                   /\ Forall is_log logs1 /\ Forall is_log logs2
                   /\ schemas.valid_content
                        (PList [llm.text_item (request_line prompt); answer]) = true
                   /\ match published_url P user_id with
                      | Some url => answer = llm.image_url_item url
                      | None => exists reason, reason <> "" /\ answer = apology reason
                      end)) as Hclose.
  { intros answer pre Hpre Hanswer. eapply post_mono; [exact (Htail answer Hanswer)|].
    intros st2 ev2 r2 (logs2 & -> & -> & -> & Hl2 & Hvalid). by exists pre, logs2, answer. }
  clear Htail.
  set (start := [Log INFO "Starting image generation for quest {quest_id} with prompt: {prompt[:50]}..."]).
  set (caught := [Log EXCEPTION "Error during image generation task for quest {quest_id}:"]).
  assert (Forall is_log start) as Hstart by repeat constructor.
  assert (Forall is_log caught) as Hcaught by repeat constructor.
  destruct (published_url P user_id) as [url|].
  - destruct Hout as [Hurl ->]. cbn [fst snd]. rewrite (if_truthy_nonempty url Hurl).
    eapply post_mono; [apply (Hclose (llm.image_url_item url) (start ++ logs)); [|done]|].
    + by apply Forall_app.
    + close_events.
  - destruct Hout as [[e ->]|(reason & Hreason & ->)].
    + do 3 run_step. cbn [fst snd].
      rewrite (if_truthy_nonempty ("An unexpected error occurred: " +:+ exception_text P e))
        by (by apply string_app_nonempty).
      eapply post_mono;
        [apply (Hclose (apology ("An unexpected error occurred: " +:+ exception_text P e))
                  (start ++ logs ++ caught ++ []))|].
      * apply Forall_app. split; [done|]. apply Forall_app. split; [done|].
        by apply Forall_app.
      * eexists. split; [|reflexivity]. by apply string_app_nonempty.
      * close_events.
    + cbn [fst snd]. rewrite (if_truthy_nonempty reason Hreason).
      eapply post_mono; [apply (Hclose (apology reason) (start ++ logs)); [|by eexists]|].
      * by apply Forall_app.
      * close_events.
Qed.

Lemma apology_names_reason reason :
  apology reason <> llm.text_item "Sorry, image generation failed unexpectedly.".
Proof.
  unfold apology. intros H. injection H as H. cbv [String.append] in H. discriminate H.
Qed.

(** X19. The image task always answers.  It never raises and stores
    exactly one message, of the model, in the quest: the request quoted
    back, followed by the image when the placeholder was rendered,
    uploaded under the user's folder and given a public URL, and by an
    apology that names a reason in every other case.  The message passes
    the [schemas.Message] validation, and the apology without a reason of
    the last branch is never stored. *)
Theorem image_request_always_answered user_id quest_id prompt st :
  exists logs1 logs2 answer,
    llm.handle_image_generation_request W P user_id quest_id prompt st
    = ((database.add_message W st user_id quest_id "model"
          (PList [llm.text_item (request_line prompt); answer]) None None).1,
       logs1
       ++ AddMessage user_id quest_id "model"
            (PList [llm.text_item (request_line prompt); answer]) None None
       :: logs2,
       Ok tt)
    /\ Forall is_log logs1 /\ Forall is_log logs2
    /\ schemas.valid_content (PList [llm.text_item (request_line prompt); answer]) = true
    /\ match published_url P user_id with
       | Some url => answer = llm.image_url_item url
       | None => exists reason, reason <> "" /\ answer = apology reason
       end
    /\ answer <> llm.text_item "Sorry, image generation failed unexpectedly.".
Proof.
  destruct (handle_image_generation_request_run user_id quest_id prompt st)
    as (logs1 & logs2 & answer & Hrun & Hlogs1 & Hlogs2 & Hvalid & Hanswer).
  exists logs1, logs2, answer. do 5 (split; [done|]).
  destruct (published_url P user_id) as [url|].
  - by subst answer.
  - destruct Hanswer as (reason & _ & ->). apply apology_names_reason.
Qed.

End ImageTask.

(** ** main.py: the request handlers *)

Section Endpoints.

Context (W : Services) (P : Platform).

Implicit Types (st : Store) (user_id : string) (quest_id : uuid).

Lemma get_quest_by_id_none st user_id quest_id :
  database.get_quest_by_id st user_id quest_id = None
  <-> Forall (not_owned user_id quest_id) (quests st).
Proof.
  unfold database.get_quest_by_id. split.
  - intros Hnone. apply Forall_forall. intros q Hq Hid Hu.
    apply list_elem_of_In in Hq.
    apply (List.find_none _ _ Hnone) in Hq. simpl in Hq.
    rewrite Hid, Hu, N.eqb_refl, String.eqb_refl in Hq. discriminate.
  - intros Hall. apply find_none_forall. eapply Forall_impl; [exact Hall|].
    intros q Hq. simpl. destruct (N.eqb_spec (schemas.q_id q) quest_id) as [Hid|]; [|done].
    destruct (String.eqb_spec (schemas.q_user_id q) user_id) as [Hu|]; [|done].
    by destruct (Hq Hid).
Qed.

Lemma delete_quest_absent st user_id quest_id :
  database.get_quest_by_id st user_id quest_id = None ->
  database.delete_quest st user_id quest_id = (st, true).
Proof.
  unfold database.get_quest_by_id, database.delete_quest. intros Hnone.
  destruct (existsb _ (quests st)) eqn:Hex; [|done].
  apply existsb_exists in Hex as (q & Hq & Hdel).
  apply (List.find_none _ _ Hnone) in Hq. unfold database.deleted_by in Hdel. simpl in Hq.
  congruence.
Qed.

(** X21. A quest that is not the user's is not found: when no row of
    the quests table has this id and this owner, reading the quest,
    posting a message to it and asking an image for it all answer 404,
    change nothing and schedule nothing.  Deleting it changes nothing
    either, but reports success. *)
Theorem foreign_quest_not_found user_id quest_id message_data request_data st :
  Forall (not_owned user_id quest_id) (quests st) ->
  main.get_quest_details user_id quest_id st = (st, [], main.NOT_FOUND)
  /\ main.add_new_message W user_id quest_id message_data st = (st, [], main.NOT_FOUND)
  /\ main.generate_image_for_quest user_id quest_id request_data st = (st, [], main.NOT_FOUND)
  /\ main.delete_single_quest user_id quest_id st = (st, [], Return tt).
Proof.
  intros Hnone%get_quest_by_id_none.
  unfold main.get_quest_details, main.add_new_message, main.generate_image_for_quest,
    main.delete_single_quest.
  by rewrite Hnone, (delete_quest_absent st user_id quest_id Hnone).
Qed.

Lemma get_messages_by_quest_scoped st user_id quest_id :
  StronglySorted older_or_same (database.get_messages_by_quest st user_id quest_id)
  /\ Forall (fun m => schemas.quest_id m = quest_id)
       (database.get_messages_by_quest st user_id quest_id).
Proof.
  rewrite get_messages_by_quest_rows.
  destruct (database.get_quest_by_id st user_id quest_id); [|by split; constructor].
  destruct (forallb _ (rows_of_quest st quest_id)); [|by split; constructor].
  split; [apply order_by_created_at_sorted|].
  rewrite order_by_created_at_perm. apply Forall_forall. intros m Hm.
  apply list_elem_of_In, List.filter_In in Hm as [_ Hq]. by apply N.eqb_eq.
Qed.

(** X22. Reading a quest never changes the store and schedules nothing.
    It answers 404 exactly when the user has no quest with this id;
    otherwise it returns a quest row with this id and this owner, with
    messages of this quest only, oldest first. *)
Theorem get_quest_details_scoped user_id quest_id st :
  exists reply,
    main.get_quest_details user_id quest_id st = (st, [], reply)
    /\ match reply with
       | Return detail =>
           schemas.detail_quest detail ∈ quests st
           /\ schemas.q_id (schemas.detail_quest detail) = quest_id
           /\ schemas.q_user_id (schemas.detail_quest detail) = user_id
           /\ Forall (fun m => schemas.quest_id m = quest_id) (schemas.detail_messages detail)
           /\ StronglySorted older_or_same (schemas.detail_messages detail)
       | HTTPException status_code _ =>
           status_code = 404%Z /\ Forall (not_owned user_id quest_id) (quests st)
       | Unhandled _ => False
       end.
Proof.
  unfold main.get_quest_details.
  destruct (database.get_quest_by_id st user_id quest_id) as [quest|] eqn:Hquest.
  - eexists. split; [reflexivity|]. cbn [schemas.detail_quest schemas.detail_messages].
    apply get_quest_by_id_found in Hquest as (Hin & Hid & Hu).
    destruct (get_messages_by_quest_scoped st user_id quest_id). by repeat split.
  - eexists. split; [reflexivity|]. split; [done|]. by apply get_quest_by_id_none.
Qed.

Lemma add_message_owned (st : Store) user_id quest_id role content embedding metadata :
  database.get_quest_by_id st user_id quest_id <> None ->
  database.get_quest_by_id
    (database.add_message W st user_id quest_id role content embedding metadata).1
    user_id quest_id <> None.
Proof.
  rewrite add_message_get_quest_by_id.
  by destruct (database.get_quest_by_id st user_id quest_id).
Qed.

Lemma add_message_rows_valid (st : Store) user_id quest_id role content embedding metadata :
  rows_valid st quest_id ->
  schemas.valid_content content = true ->
  schemas.valid_metadata metadata = true ->
  rows_valid (database.add_message W st user_id quest_id role content embedding metadata).1
    quest_id.
Proof.
  unfold rows_valid. intros Hrows Hcontent Hmetadata.
  rewrite add_message_rows, N.eqb_refl, forallb_app, Hrows. cbn [forallb andb].
  by rewrite valid_message_inserted, Hcontent, Hmetadata.
Qed.

Section Posted.

Context (user_id : string) (quest_id : uuid) (text reply : string) (st : Store).

Local Abbreviation log := (database.get_messages_by_quest st user_id quest_id).

Local Abbreviation question :=
  (inserted_message W st user_id quest_id "user" (PStr text) None).

Local Abbreviation posted :=
  (database.add_message W st user_id quest_id "user" (PStr text) None None).1.

(** X23. A posted question is answered.  On a quest of the user whose
    rows are valid and not dated after the clock, posting a non-empty
    text stores it as the user's message, returns it and schedules one
    turn; when the ids of the log are distinct, the text of every
    message can be extracted, the similarity search returns at most 3
    messages of the log and the generation model replies, running that
    turn adds the reply as a model message, and the quest then reads as
    the earlier log, the question and the answer. *)
Theorem posted_message_is_answered :
  database.get_quest_by_id st user_id quest_id <> None ->
  rows_valid st quest_id ->
  Forall (fun m => older_or_same m question) (rows_of_quest st quest_id) ->
  text <> "" ->
  NoDup (schemas.id <$> log ++ [question]) ->
  Forall (fun m => exists t, llm.extractTextContent W (schemas.content m) = Ok t) log ->
  (forall embedding,
     length (database.find_relevant_messages W posted quest_id embedding llm.MATCH_THRESHOLD 3)
     <= 3
     /\ database.find_relevant_messages W posted quest_id embedding llm.MATCH_THRESHOLD 3
        ⊆ log ++ [question]) ->
  (forall prompt, generate_content W prompt = Ok reply) ->
  main.add_new_message W user_id quest_id (schemas.mkMessageCreate (PStr text)) st
  = (posted, [generate_ai_response_task user_id quest_id], Return question)
  /\ database.get_messages_by_quest posted user_id quest_id = log ++ [question]
  /\ exists evs embedding metadata,
       main.run_task W P (generate_ai_response_task user_id quest_id) posted
       = ((database.add_message W posted user_id quest_id "model" (PStr reply)
             embedding metadata).1,
          evs, Ok tt)
       /\ database.get_messages_by_quest
            (database.add_message W posted user_id quest_id "model" (PStr reply)
               embedding metadata).1 user_id quest_id
          ≡ₚ log ++ [question;
                     inserted_message W posted user_id quest_id "model" (PStr reply) metadata].
Proof.
  intros Hquest Hrows Holder Htext Hnd Hextract Hsimilar Hgen.
  pose proof (add_message_log_snoc W st user_id quest_id "user" (PStr text) None None
                Hquest Hrows eq_refl eq_refl Holder) as Hposted.
  split; [|split; [exact Hposted|]].
  - unfold main.add_new_message.
    by destruct (database.get_quest_by_id st user_id quest_id).
  - destruct (proj1 (post_run _ _ _)
                (text_turn_runs W user_id quest_id posted log question text reply
                   Hposted eq_refl eq_refl Htext Hnd Hextract Hsimilar Hgen))
      as (st' & evs & r & Hrun & -> & embedding & metadata & -> & _ & Hmetadata).
    exists evs, embedding, metadata. split; [exact Hrun|].
    rewrite (add_message_log_perm W posted user_id quest_id "model" (PStr reply)
               embedding metadata);
      [|by apply add_message_owned | by apply add_message_rows_valid | done | done].
    rewrite Hposted. by rewrite <- app_assoc.
Qed.

End Posted.

Lemma latest_user_skip (l : list Message) m :
  schemas.role m <> "user" -> llm.latest_user (l ++ [m]) = llm.latest_user l.
Proof.
  intros Hrole. unfold llm.latest_user. rewrite rev_app_distr. simpl.
  by destruct (String.eqb_spec (schemas.role m) "user").
Qed.

(** X20. An image request ends up in the log.  On a quest of the user
    whose rows are valid and not dated after the clock, the endpoint
    changes nothing and schedules one task; running it appends one
    message of the model to what the quest reads.  A later turn reads
    that message as text: the request quoted back when the image was
    published (the image itself contributes nothing), the request and
    the apology otherwise; and it never takes it for the latest user
    message. *)
Theorem image_request_extends_log user_id quest_id request_data st :
  database.get_quest_by_id st user_id quest_id <> None ->
  rows_valid st quest_id ->
  Forall (fun m => (schemas.created_at m <= utcnow W st)%Z) (rows_of_quest st quest_id) ->
  exists st' evs answer,
    main.generate_image_for_quest user_id quest_id request_data st
    = (st,
       [handle_image_generation_request_task user_id quest_id (schemas.prompt request_data)],
       Return (PDict [("message", PStr "Image generation request received.")]))
    /\ main.run_task W P
         (handle_image_generation_request_task user_id quest_id (schemas.prompt request_data))
         st
       = (st', evs, Ok tt)
    /\ database.get_messages_by_quest st' user_id quest_id
       = database.get_messages_by_quest st user_id quest_id ++ [answer]
    /\ schemas.role answer = "model"
    /\ match published_url P user_id with
       | Some url =>
           llm.extractTextContent W (schemas.content answer)
           = Ok (request_line (schemas.prompt request_data))
       | None =>
           exists reason,
             llm.extractTextContent W (schemas.content answer)
             = Ok (request_line (schemas.prompt request_data) +:+ newline
                   +:+ "Sorry, image generation failed: " +:+ reason)
       end
    /\ llm.latest_user (database.get_messages_by_quest st user_id quest_id ++ [answer])
       = llm.latest_user (database.get_messages_by_quest st user_id quest_id).
Proof.
  intros Hquest Hrows Holder.
  destruct (handle_image_generation_request_run W P user_id quest_id
              (schemas.prompt request_data) st)
    as (logs1 & logs2 & item & Hrun & _ & _ & Hvalid & Hitem).
  set (content := PList [llm.text_item (request_line (schemas.prompt request_data)); item]) in *.
  exists (database.add_message W st user_id quest_id "model" content None None).1,
    (logs1 ++ AddMessage user_id quest_id "model" content None None :: logs2),
    (inserted_message W st user_id quest_id "model" content None).
  split; [|split; [exact Hrun|split; [|split; [done|split]]]].
  - unfold main.generate_image_for_quest.
    by destruct (database.get_quest_by_id st user_id quest_id).
  - by apply add_message_log_snoc.
  - destruct (published_url P user_id) as [url|].
    + by subst item.
    + destruct Hitem as (reason & _ & ->). by exists reason.
  - by apply latest_user_skip.
Qed.

(** X24. A deleted quest is gone.  Deleting always reports success and
    schedules nothing; afterwards the user can neither read the quest,
    nor post to it, nor ask an image for it (404, nothing changed), and
    a turn that was scheduled for it earlier only reads the empty log
    and warns. *)
Theorem deleted_quest_is_gone user_id quest_id message_data request_data st :
  exists st',
    main.delete_single_quest user_id quest_id st = (st', [], Return tt)
    /\ main.get_quest_details user_id quest_id st' = (st', [], main.NOT_FOUND)
    /\ main.add_new_message W user_id quest_id message_data st' = (st', [], main.NOT_FOUND)
    /\ main.generate_image_for_quest user_id quest_id request_data st'
       = (st', [], main.NOT_FOUND)
    /\ main.run_task W P (generate_ai_response_task user_id quest_id) st'
       = (st',
          [ Log INFO "Generating AI response for Quest {quest_id}";
            GetMessagesByQuest user_id quest_id;
            Log WARNING "No messages for Quest {quest_id}." ],
          Ok tt).
Proof.
  destruct (delete_quest_gone st user_id quest_id) as [Hsuccess Hgone].
  exists (database.delete_quest st user_id quest_id).1.
  unfold main.delete_single_quest, main.get_quest_details, main.add_new_message,
    main.generate_image_for_quest, main.run_task.
  destruct (database.delete_quest st user_id quest_id) as [st' success].
  cbn [fst snd] in *. subst success. rewrite Hgone.
  repeat split. apply turn_on_empty_log.
  unfold database.get_messages_by_quest. by rewrite Hgone.
Qed.

Lemma rows_without_quest (rows : list message_row) quest_id :
  Forall (fun r => schemas.quest_id (row_message r) <> quest_id) rows ->
  List.filter (fun m => (schemas.quest_id m =? quest_id)%N) (map row_message rows) = [].
Proof.
  induction 1 as [|r l Hr _ IH]; simpl; [done|].
  by destruct (N.eqb_spec (schemas.quest_id (row_message r)) quest_id).
Qed.

(** X25. Creating a quest.  Without an initial prompt, which the request
    schema allows, the handler ends with an uncaught [TypeError] and
    nothing is created.  With a prompt, and an id that neither table
    holds yet, it returns the new quest and schedules nothing, and the
    quest then reads back for its owner with no messages. *)
Theorem create_new_quest_outcome user_id quest_data st :
  match schemas.initial_prompt quest_data with
  | None => main.create_new_quest W user_id quest_data st = (st, [], Unhandled TypeError)
  | Some initial_prompt =>
      Forall (fun q => schemas.q_id q <> gen_random_uuid W st) (quests st) ->
      Forall (fun r => schemas.quest_id (row_message r) <> gen_random_uuid W st) (messages st) ->
      exists st' quest,
        main.create_new_quest W user_id quest_data st = (st', [], Return quest)
        /\ schemas.q_user_id quest = user_id
        /\ schemas.title quest = Some (database.quest_title initial_prompt)
        /\ main.get_quest_details user_id (schemas.q_id quest) st'
           = (st', [], Return (schemas.mkQuestDetail quest []))
  end.
Proof.
  unfold main.create_new_quest.
  destruct (schemas.initial_prompt quest_data) as [initial_prompt|] eqn:Hprompt.
  - intros Hquests Hmessages.
    destruct (create_quest_inserted W st user_id quest_data initial_prompt Hprompt Hquests)
      as (quest & -> & Hid & Huser & Htitle & Hread).
    eexists _, quest. split; [reflexivity|]. split; [done|]. split; [done|].
    unfold main.get_quest_details. rewrite Hread. do 3 f_equal.
    rewrite get_messages_by_quest_rows, Hread. unfold rows_of_quest. cbn [messages].
    by rewrite Hid, (rows_without_quest (messages st) (gen_random_uuid W st) Hmessages).
  - unfold database.create_quest. by rewrite Hprompt.
Qed.

(** X26. The guide a user reads back is the prompt the turn uses: when
    the guide endpoint returns a prompt that is not blank, the turn's
    system prompt is that prompt stripped; when it returns none or a
    blank one, or fails, the turn uses the default.  The only failure
    of the endpoint is a 500. *)
Theorem guide_is_system_prompt user_id st :
  exists evs,
    llm.get_system_prompt W user_id st
    = (st, evs,
       Ok match main.get_user_guide W user_id with
          | Return (Some prompt) =>
              if String.eqb (strip prompt) "" then DEFAULT_SYSTEM_PROMPT W else strip prompt
          | _ => DEFAULT_SYSTEM_PROMPT W
          end)
    /\ match main.get_user_guide W user_id with
       | Return _ => True
       | HTTPException status_code _ => status_code = 500%Z
       | Unhandled _ => False
       end.
Proof.
  cut (post (llm.get_system_prompt W user_id) st (fun st' evs r =>
         st' = st
         /\ r = Ok match main.get_user_guide W user_id with
                   | Return (Some prompt) =>
                       if String.eqb (strip prompt) "" then DEFAULT_SYSTEM_PROMPT W
                       else strip prompt
                   | _ => DEFAULT_SYSTEM_PROMPT W
                   end)).
  { intros (st' & evs & r & Hrun & -> & ->)%post_run. exists evs. split; [done|].
    unfold main.get_user_guide.
    destruct (get_user_by_id W user_id) as [[[[[|kv md]|]]|]|e]; simpl; try done.
    by destruct (dict_get "custom_guide_prompt" (kv :: md)). }
  unfold llm.get_system_prompt, main.get_user_guide. do 5 run_step.
  destruct (get_user_by_id W user_id) as [[[[[|kv md]|]]|]|e]; cbv beta iota;
    cbn [user_metadata bindR main.GuideResponse]; try (run_all; done).
  destruct (dict_get "custom_guide_prompt" (kv :: md)) as [| | | |s| |];
    cbn [main.GuideResponse]; try (run_all; done).
  destruct (String.eqb_spec s "") as [->|Hs]; cbn [negb andb]; [by run_all|].
  destruct (String.eqb (strip s) ""); cbn [negb]; by run_all.
Qed.

End Endpoints.

(** ** auth.py *)

Section Auth.

Context (P : Platform).

(** X27. Only a user returned by the auth service is let in.  Every
    other outcome of the token check, no user or an exception of the
    call, gives the same 401; nothing escapes the handler. *)
Theorem get_current_user_outcome token :
  match auth.get_current_user P token with
  | Return user => auth_get_user P token = Ok (Some user)
  | HTTPException status_code detail =>
      status_code = 401%Z /\ detail = "Could not validate credentials"
      /\ forall user, auth_get_user P token <> Ok (Some user)
  | Unhandled _ => False
  end.
Proof.
  unfold auth.get_current_user.
  destruct (auth_get_user P token) as [[user|]|e]; simpl; repeat split; congruence.
Qed.

End Auth.

(** ** Instances *)

Section FurtherInstances.

Import Sample Scenario.

Lemma get_messages_by_quest_sorted_scoped_witness :
  database.get_messages_by_quest two_quest_store "u1" 1%N <> []
  /\ database.get_quest_by_id two_quest_store "u1" 1%N <> None
  /\ rows_valid two_quest_store 1%N
  /\ (exists quest, quest ∈ quests two_quest_store /\ schemas.q_id quest = 1%N
                    /\ schemas.q_user_id quest = "u1")
  /\ database.get_messages_by_quest two_quest_store "u1" 1%N
     ≡ₚ rows_of_quest two_quest_store 1%N
  /\ database.get_quest_by_id two_quest_store "u2" 1%N = None
  /\ database.get_messages_by_quest two_quest_store "u2" 1%N = []
  /\ noted_message ∈ rows_of_quest noted_store 1%N
  /\ schemas.valid_message noted_message = false
  /\ database.get_messages_by_quest noted_store "u1" 1%N = [].
Proof.
  assert (database.get_messages_by_quest two_quest_store "u1" 1%N <> []) as Hne
    by (vm_compute; discriminate).
  assert (database.get_quest_by_id two_quest_store "u1" 1%N <> None) as Hquest
    by (vm_compute; discriminate).
  assert (rows_valid two_quest_store 1%N) as Hrows by reflexivity.
  assert (noted_message ∈ rows_of_quest noted_store 1%N) as Hin
    by apply list_elem_of_further, list_elem_of_here.
  destruct (get_messages_by_quest_sorted_scoped two_quest_store "u1" 1%N)
    as (_ & _ & Howned & Hall & _).
  destruct (get_messages_by_quest_sorted_scoped two_quest_store "u2" 1%N)
    as (_ & _ & _ & _ & Hforeign & _).
  destruct (get_messages_by_quest_sorted_scoped noted_store "u1" 1%N)
    as (_ & _ & _ & _ & _ & Hbad).
  split; [exact Hne|]. split; [exact Hquest|]. split; [exact Hrows|].
  split; [exact (Howned Hne)|]. split; [exact (Hall Hquest Hrows)|].
  split; [reflexivity|]. split; [exact (Hforeign eq_refl)|].
  split; [exact Hin|]. split; [reflexivity|]. exact (Hbad noted_message Hin eq_refl).
Defined.

Lemma add_message_read_back_witness :
  database.get_quest_by_id two_quest_store "u1" 1%N <> None
  /\ rows_valid two_quest_store 1%N
  /\ schemas.valid_message
       (inserted_message services two_quest_store "u1" 1%N "model"
          (PStr "Because of the air.") None) = true
  /\ Forall (fun m => older_or_same m
               (inserted_message services two_quest_store "u1" 1%N "model"
                  (PStr "Because of the air.") None))
       (rows_of_quest two_quest_store 1%N)
  /\ database.get_messages_by_quest
       (database.add_message services two_quest_store "u1" 1%N "model"
          (PStr "Because of the air.") None None).1 "u1" 1%N
     = [ text_message 10 "user" "Why is the sky blue?";
         inserted_message services two_quest_store "u1" 1%N "model"
           (PStr "Because of the air.") None ]
  /\ schemas.valid_message
       (inserted_message services two_quest_store "u1" 1%N "model"
          (PStr "Because of the air.") (Some (PStr "note"))) = false
  /\ (database.add_message services two_quest_store "u1" 1%N "model"
        (PStr "Because of the air.") None (Some (PStr "note"))).2 = None
  /\ database.get_messages_by_quest
       (database.add_message services two_quest_store "u1" 1%N "model"
          (PStr "Because of the air.") None (Some (PStr "note"))).1 "u1" 1%N
     = [].
Proof.
  assert (database.get_quest_by_id two_quest_store "u1" 1%N <> None) as Hquest
    by (vm_compute; discriminate).
  assert (rows_valid two_quest_store 1%N) as Hrows by reflexivity.
  assert (Forall (fun m => older_or_same m
                    (inserted_message services two_quest_store "u1" 1%N "model"
                       (PStr "Because of the air.") None))
            (rows_of_quest two_quest_store 1%N)) as Holder.
  { constructor; [|constructor]. unfold older_or_same. simpl. lia. }
  destruct (add_message_read_back services two_quest_store "u1" 1%N "model"
              (PStr "Because of the air.") None None Hquest Hrows) as [Hgood _].
  destruct (add_message_read_back services two_quest_store "u1" 1%N "model"
              (PStr "Because of the air.") None (Some (PStr "note")) Hquest Hrows)
    as [_ Hbad].
  destruct (Hgood eq_refl) as (_ & _ & Hsnoc).
  destruct (Hbad eq_refl) as (Hnone & _ & Hempty).
  split; [exact Hquest|]. split; [exact Hrows|]. split; [reflexivity|].
  split; [exact Holder|]. split; [exact (Hsnoc Holder)|].
  split; [reflexivity|]. split; [exact Hnone | exact Hempty].
Defined.

Lemma add_message_isolated_witness :
  2%N <> 1%N
  /\ database.get_quest_by_id
       (database.add_message services two_quest_store "u1" 1%N "model"
          (PStr "Because of the air.") None None).1 "u2" 2%N
     = Some moon_quest
  /\ database.get_messages_by_quest
       (database.add_message services two_quest_store "u1" 1%N "model"
          (PStr "Because of the air.") None None).1 "u2" 2%N
     = [moon_message].
Proof.
  assert (2%N <> 1%N) as Hother by discriminate.
  split; [exact Hother|].
  exact (proj2 (add_message_isolated services two_quest_store "u1" 1%N "model"
                  (PStr "Because of the air.") None None "u2" 2%N) Hother).
Defined.

Lemma delete_quest_removes_witness :
  2%N <> 1%N
  /\ database.get_quest_by_id (database.delete_quest two_quest_store "u1" 1%N).1 "u2" 2%N
     = Some moon_quest
  /\ database.get_messages_by_quest (database.delete_quest two_quest_store "u1" 1%N).1 "u2" 2%N
     = [moon_message]
  /\ database.get_quest_by_id two_quest_store "u2" 1%N = None
  /\ (database.delete_quest two_quest_store "u2" 1%N).1 = two_quest_store.
Proof.
  assert (2%N <> 1%N) as Hother by discriminate.
  assert (database.get_quest_by_id two_quest_store "u2" 1%N = None) as Hnone by reflexivity.
  split; [exact Hother|].
  destruct (delete_quest_removes two_quest_store "u1" 1%N) as (_ & _ & _ & Hkept & _).
  destruct (delete_quest_removes two_quest_store "u2" 1%N) as (_ & _ & _ & _ & Hsame).
  destruct (Hkept "u2" 2%N Hother) as [Hq Hm].
  split; [exact Hq|]. split; [exact Hm|]. split; [exact Hnone|]. exact (Hsame Hnone).
Defined.

Lemma quest_title_bounds_witness :
  "Why is the sky blue?" <> ""
  /\ String.length "Why is the sky blue?" <= 50
  /\ database.quest_title "Why is the sky blue?" = "Why is the sky blue?...".
Proof.
  assert ("Why is the sky blue?" <> "") as Hne by discriminate.
  assert (String.length "Why is the sky blue?" <= 50) as Hlen by (simpl; lia).
  split; [exact Hne|]. split; [exact Hlen|].
  exact (proj2 (quest_title_bounds "Why is the sky blue?") Hne Hlen).
Defined.

Lemma create_quest_round_trip_witness :
  Forall (fun q => schemas.q_id q <> gen_random_uuid services two_quest_store)
    (quests two_quest_store)
  /\ exists quest,
       (database.create_quest services two_quest_store "u2"
          (schemas.mkQuestCreate (Some "Why is the sky blue?"))).2 = Ok (Some quest)
       /\ schemas.q_user_id quest = "u2"
       /\ schemas.title quest = Some "Why is the sky blue?..."
       /\ database.get_quest_by_id
            (database.create_quest services two_quest_store "u2"
               (schemas.mkQuestCreate (Some "Why is the sky blue?"))).1
            "u1" (schemas.q_id quest) = None.
Proof.
  assert (Forall (fun q => schemas.q_id q <> gen_random_uuid services two_quest_store)
            (quests two_quest_store)) as Hfresh.
  { repeat (constructor; [discriminate|]). constructor. }
  split; [exact Hfresh|].
  destruct (create_quest_round_trip services two_quest_store "u2"
              (schemas.mkQuestCreate (Some "Why is the sky blue?")) Hfresh)
    as (quest & Hrun & _ & Huser & Htitle & _ & Hothers & _).
  exists quest. split; [exact Hrun|]. split; [exact Huser|]. split; [exact Htitle|].
  apply Hothers. discriminate.
Defined.

Lemma format_content_for_gemini_list_witness :
  Forall (fun item => is_dropped_item item = true) [empty_text_item]
  /\ exists evs,
       llm.format_content_for_gemini services (PList [empty_text_item]) question_store
       = (question_store, evs, Ok []).
Proof.
  assert (Forall (fun item => is_dropped_item item = true) [empty_text_item]) as Hdropped
    by (constructor; [reflexivity|constructor]).
  split; [exact Hdropped|].
  destruct (format_content_for_gemini_list services [empty_text_item] question_store)
    as (evs & blocks & Hrun & _ & _ & Hempty).
  exists evs. rewrite Hrun. by rewrite (proj2 Hempty Hdropped).
Defined.

Lemma generate_embedding_outcome_witness :
  blank "Why is the sky blue?" = false
  /\ embed_content services_up "Why is the sky blue?" = Ok [("embedding", PList embedding_vector)]
  /\ exists evs,
       llm.generate_embedding services_up "Why is the sky blue?" question_store
       = (question_store, evs, Ok (Some embedding_vector)).
Proof.
  assert (blank "Why is the sky blue?" = false) as Hblank by reflexivity.
  split; [exact Hblank|]. split; [reflexivity|].
  destruct (generate_embedding_outcome services_up "Why is the sky blue?" question_store)
    as (evs & result & Hrun & Hsome & _ & _).
  exists evs. rewrite Hrun.
  assert (result = Some embedding_vector) as ->; [|reflexivity].
  apply Hsome. split; [exact Hblank|].
  exists [("embedding", PList embedding_vector)]. repeat split.
Defined.

Lemma raw_json_of_fenced_witness :
  fenced_body <> ""
  /\ strip fenced_body = fenced_body
  /\ lstrip (fence +:+ "json") fenced_body = fenced_body
  /\ rstrip fence fenced_body = fenced_body
  /\ llm.raw_json_of (fence +:+ "json" +:+ newline +:+ fenced_body +:+ newline +:+ fence)
     = fenced_body
  /\ llm.raw_json_of fenced_body = fenced_body.
Proof.
  assert (fenced_body <> "") as Hne by discriminate.
  assert (strip fenced_body = fenced_body) as Hstrip by reflexivity.
  assert (lstrip (fence +:+ "json") fenced_body = fenced_body) as Hl by reflexivity.
  assert (rstrip fence fenced_body = fenced_body) as Hr by reflexivity.
  split; [exact Hne|]. split; [exact Hstrip|]. split; [exact Hl|]. split; [exact Hr|].
  destruct (raw_json_of_fenced fenced_body Hne Hstrip) as [Hfenced Hplain].
  split; [exact Hfenced | exact (Hplain Hl Hr)].
Defined.

Lemma select_context_sources_witness :
  length similar <= 4
  /\ text_message 2 "model" "a1" ∈ similar
  /\ llm.select_context similar ten_messages = llm.merge_context similar (last_n 3 ten_messages)
  /\ 2%N ∈ (schemas.id <$> llm.select_context similar ten_messages).
Proof.
  assert (length similar <= 4) as Hlen by (simpl; lia).
  assert (text_message 2 "model" "a1" ∈ similar) as Hin
    by apply list_elem_of_further, list_elem_of_here.
  split; [exact Hlen|]. split; [exact Hin|].
  destruct (proj2 (select_context_sources similar ten_messages) Hlen) as [Hmerge Hcovers].
  split; [exact Hmerge|].
  exact (Hcovers (text_message 2 "model" "a1") (or_introl Hin)).
Defined.

Lemma empty_log_aborts_witness :
  database.get_quest_by_id two_quest_store "u2" 1%N = None
  /\ llm.generate_ai_response services_up "u2" 1%N two_quest_store
     = (two_quest_store,
        [ Log INFO "Generating AI response for Quest {quest_id}";
          GetMessagesByQuest "u2" 1%N;
          Log WARNING "No messages for Quest {quest_id}." ],
        Ok tt).
Proof.
  assert (database.get_quest_by_id two_quest_store "u2" 1%N = None) as Hnone by reflexivity.
  split; [exact Hnone|].
  exact (empty_log_aborts services_up "u2" 1%N two_quest_store (or_introl Hnone)).
Defined.

Lemma text_turn_persists_reply_witness :
  database.get_messages_by_quest conversation_store "u1" 1%N = conversation ++ [night_question]
  /\ (forall embedding,
        database.find_relevant_messages services_up conversation_store 1%N embedding
          llm.MATCH_THRESHOLD 3
        = take 1 conversation)
  /\ exists evs embedding metadata,
       llm.generate_ai_response services_up "u1" 1%N conversation_store
       = ((database.add_message services_up conversation_store "u1" 1%N "model" (PStr reply)
             embedding metadata).1,
          evs, Ok tt)
       /\ AddMessage "u1" 1%N "model" (PStr reply) embedding metadata ∈ evs.
Proof.
  assert (database.get_messages_by_quest conversation_store "u1" 1%N
          = conversation ++ [night_question]) as Hlog by reflexivity.
  assert (forall embedding,
            database.find_relevant_messages services_up conversation_store 1%N embedding
              llm.MATCH_THRESHOLD 3
            = take 1 conversation) as Hsimilar by reflexivity.
  split; [exact Hlog|]. split; [exact Hsimilar|].
  apply (text_turn_persists_reply services_up "u1" 1%N conversation_store conversation
           night_question "And at night?" reply Hlog eq_refl eq_refl).
  - discriminate.
  - apply (bool_decide_unpack _). vm_compute. exact I.
  - repeat (constructor; [by eexists|]). constructor.
  - intros embedding. rewrite Hsimilar. split; [simpl; lia|].
    intros m Hm. apply elem_of_app. left.
    eapply elem_of_sublist; [exact Hm | apply sublist_take].
  - reflexivity.
Defined.

Lemma image_request_extends_log_witness :
  database.get_quest_by_id two_quest_store "u1" 1%N <> None
  /\ rows_valid two_quest_store 1%N
  /\ Forall (fun m => (schemas.created_at m <= utcnow services two_quest_store)%Z)
       (rows_of_quest two_quest_store 1%N)
  /\ exists st' evs answer,
       main.run_task services platform
         (handle_image_generation_request_task "u1" 1%N "a red kite") two_quest_store
       = (st', evs, Ok tt)
       /\ database.get_messages_by_quest st' "u1" 1%N
          = [text_message 10 "user" "Why is the sky blue?"; answer]
       /\ schemas.role answer = "model"
       /\ llm.extractTextContent services (schemas.content answer)
          = Ok (request_line "a red kite").
Proof.
  assert (database.get_quest_by_id two_quest_store "u1" 1%N <> None) as Hquest
    by (vm_compute; discriminate).
  assert (rows_valid two_quest_store 1%N) as Hrows by reflexivity.
  assert (Forall (fun m => (schemas.created_at m <= utcnow services two_quest_store)%Z)
            (rows_of_quest two_quest_store 1%N)) as Holder.
  { constructor; [|constructor]. simpl. lia. }
  split; [exact Hquest|]. split; [exact Hrows|]. split; [exact Holder|].
  destruct (image_request_extends_log services platform "u1" 1%N image_request two_quest_store
              Hquest Hrows Holder)
    as (st' & evs & answer & _ & Hrun & Hlog & Hrole & Htext & _).
  exists st', evs, answer. split; [exact Hrun|]. split; [exact Hlog|]. split; [exact Hrole|].
  exact Htext.
Defined.

Lemma foreign_quest_not_found_witness :
  Forall (not_owned "u2" 1%N) (quests two_quest_store)
  /\ main.get_quest_details "u2" 1%N two_quest_store = (two_quest_store, [], main.NOT_FOUND)
  /\ main.add_new_message services "u2" 1%N (schemas.mkMessageCreate (PStr "Hello"))
       two_quest_store
     = (two_quest_store, [], main.NOT_FOUND)
  /\ main.generate_image_for_quest "u2" 1%N image_request two_quest_store
     = (two_quest_store, [], main.NOT_FOUND)
  /\ main.delete_single_quest "u2" 1%N two_quest_store = (two_quest_store, [], Return tt).
Proof.
  assert (Forall (not_owned "u2" 1%N) (quests two_quest_store)) as Hforeign.
  { repeat (constructor; [intros Hid; simpl in *; discriminate|]). constructor. }
  split; [exact Hforeign|].
  exact (foreign_quest_not_found services "u2" 1%N (schemas.mkMessageCreate (PStr "Hello"))
           image_request two_quest_store Hforeign).
Defined.

Lemma posted_message_is_answered_witness :
  database.get_quest_by_id conversation_only_store "u1" 1%N <> None
  /\ rows_valid conversation_only_store 1%N
  /\ database.get_messages_by_quest conversation_only_store "u1" 1%N = conversation
  /\ exists embedding metadata,
       store_of
         (main.run_task services_up platform (generate_ai_response_task "u1" 1%N)
            (database.add_message services_up conversation_only_store "u1" 1%N "user"
               (PStr "And at night?") None None).1)
       = (database.add_message services_up
            (database.add_message services_up conversation_only_store "u1" 1%N "user"
               (PStr "And at night?") None None).1
            "u1" 1%N "model" (PStr reply) embedding metadata).1
       /\ database.get_messages_by_quest
            (database.add_message services_up
               (database.add_message services_up conversation_only_store "u1" 1%N "user"
                  (PStr "And at night?") None None).1
               "u1" 1%N "model" (PStr reply) embedding metadata).1 "u1" 1%N
          ≡ₚ conversation
             ++ [ inserted_message services_up conversation_only_store "u1" 1%N "user"
                    (PStr "And at night?") None;
                  inserted_message services_up
                    (database.add_message services_up conversation_only_store "u1" 1%N "user"
                       (PStr "And at night?") None None).1
                    "u1" 1%N "model" (PStr reply) metadata ].
Proof.
  assert (database.get_quest_by_id conversation_only_store "u1" 1%N <> None) as Hquest
    by (vm_compute; discriminate).
  assert (rows_valid conversation_only_store 1%N) as Hrows by reflexivity.
  assert (database.get_messages_by_quest conversation_only_store "u1" 1%N = conversation)
    as Hlog by reflexivity.
  split; [exact Hquest|]. split; [exact Hrows|]. split; [exact Hlog|].
  destruct (posted_message_is_answered services_up platform "u1" 1%N "And at night?" reply
              conversation_only_store Hquest Hrows)
    as (_ & _ & evs & embedding & metadata & Hrun & Hread).
  - repeat (constructor; [unfold older_or_same; simpl; lia|]). constructor.
  - discriminate.
  - apply (bool_decide_unpack _). vm_compute. exact I.
  - repeat (constructor; [by eexists|]). constructor.
  - intros embedding. split; [simpl; lia|].
    intros m Hm. change (m ∈ take 1 conversation) in Hm.
    apply elem_of_app. left. rewrite Hlog.
    eapply elem_of_sublist; [exact Hm | apply sublist_take].
  - reflexivity.
  - exists embedding, metadata. rewrite Hrun. split; [reflexivity|].
    rewrite <- Hlog. exact Hread.
Defined.

Lemma create_new_quest_outcome_witness :
  Forall (fun q => schemas.q_id q <> gen_random_uuid services two_quest_store)
    (quests two_quest_store)
  /\ Forall (fun r => schemas.quest_id (row_message r) <> gen_random_uuid services two_quest_store)
       (messages two_quest_store)
  /\ exists st' quest,
       main.create_new_quest services "u2" (schemas.mkQuestCreate (Some "Why is the sky blue?"))
         two_quest_store
       = (st', [], Return quest)
       /\ schemas.title quest = Some "Why is the sky blue?..."
       /\ main.get_quest_details "u2" (schemas.q_id quest) st'
          = (st', [], Return (schemas.mkQuestDetail quest [])).
Proof.
  assert (Forall (fun q => schemas.q_id q <> gen_random_uuid services two_quest_store)
            (quests two_quest_store)) as Hquests.
  { repeat (constructor; [discriminate|]). constructor. }
  assert (Forall (fun r => schemas.quest_id (row_message r)
                           <> gen_random_uuid services two_quest_store)
            (messages two_quest_store)) as Hmessages.
  { repeat (constructor; [discriminate|]). constructor. }
  split; [exact Hquests|]. split; [exact Hmessages|].
  destruct (create_new_quest_outcome services "u2"
              (schemas.mkQuestCreate (Some "Why is the sky blue?")) two_quest_store
              Hquests Hmessages)
    as (st' & quest & Hrun & _ & Htitle & Hread).
  exists st', quest. split; [exact Hrun|]. split; [exact Htitle|]. exact Hread.
Defined.

Lemma unformattable_message_stops_turn_witness :
  llm.latest_user (database.get_messages_by_quest empty_item_store "u1" 1%N)
  = Some empty_item_message
  /\ Forall (fun item => is_dropped_item item = true) [empty_text_item]
  /\ result_of (llm.generate_ai_response services_up "u1" 1%N empty_item_store) = Ok tt
  /\ store_of (llm.generate_ai_response services_up "u1" 1%N empty_item_store)
     = empty_item_store
  /\ Forall benign (events_of (llm.generate_ai_response services_up "u1" 1%N empty_item_store)).
Proof.
  assert (llm.latest_user (database.get_messages_by_quest empty_item_store "u1" 1%N)
          = Some empty_item_message) as Hlatest by reflexivity.
  assert (Forall (fun item => is_dropped_item item = true) [empty_text_item]) as Hdropped
    by (constructor; [reflexivity|constructor]).
  split; [exact Hlatest|]. split; [exact Hdropped|].
  exact (unformattable_message_stops_turn services_up "u1" 1%N empty_item_store
           empty_item_message [empty_text_item] Hlatest eq_refl Hdropped).
Defined.

Lemma embedding_drives_search_witness :
  blank "And at night?" = false
  /\ embed_content services_up "And at night?" = Ok [("embedding", PList embedding_vector)]
  /\ llm.dict_has_key "embedding" [("embedding", PList embedding_vector)] = true
  /\ llm.prepare_context services_up 1%N (conversation ++ [night_question]) "And at night?"
       conversation_store
     = (conversation_store,
        [EmbedContent "And at night?"; MatchQuestMessages 1%N embedding_vector],
        Ok (llm.select_context (take 1 conversation) (conversation ++ [night_question]))).
Proof.
  split; [reflexivity|]. split; [reflexivity|]. split; [reflexivity|].
  exact (embedding_drives_search services_up 1%N (conversation ++ [night_question])
           "And at night?" [("embedding", PList embedding_vector)] conversation_store
           eq_refl eq_refl eq_refl).
Defined.

End FurtherInstances.
